(** * Aurelia runtime: bindings, scheduling and lifecycle flags

    A shallow embedding of
    - [packages/runtime/src/lifecycle.ts] ([State], [stringifyState],
      [BatchQueue]),
    - [packages/runtime-html/src/binding/binding-utils.ts]
      ([BindingTargetSubscriber]),
    - the interpolation bindings ([InterpolationBinding], [ContentBinding],
      [ContentBinding2]),
    - the history helpers ([jump], [nextStateHistory], [applyLimits]), the
      router's hook manager and the syntax helpers of the AOT plugin,
    followed by the properties of the specification that concern them.

    JavaScript objects are records, object identity is a natural number,
    mutation is explicit state passing over a [World], and calls into
    collaborators that live outside these files (target accessors, DOM
    nodes, expression hooks) are recorded as [Event]s in the world's log. *)

From Stdlib Require Import ZArith String Ascii List Bool Lia.
From stdpp Require Import base list strings pretty.
Import ListNotations.

Open Scope Z_scope.

(* ===================================================================== *)
(** * JavaScript Numbers                                                  *)
(* ===================================================================== *)

(** The Number type is IEEE 754 binary64.  A finite Number is held as the
    pair [m], [e] of its value [m * 2^e], in lowest terms ([m] odd) or as
    zero ([m = 0], [e = 0]); the sign of zero is not kept.  Arithmetic is
    the exact result rounded to nearest, ties to even. *)
Module Number.

Inductive t :=
| Finite (m e : Z)
| PosInfinity
| NegInfinity
| NaN.

(** [p * 2^e] with the factors of two moved into the exponent. *)
Fixpoint oddPart (p : positive) (e : Z) : positive * Z :=
  match p with
  | xO p' => oddPart p' (e + 1)
  | _ => (p, e)
  end.

(** The Number [m * 2^e], in lowest terms. *)
Definition finite (m e : Z) : t :=
  match m with
  | Z0 => Finite 0 0
  | Zpos p => let '(q, e') := oddPart p e in Finite (Zpos q) e'
  | Zneg p => let '(q, e') := oddPart p e in Finite (Zneg q) e'
  end.

Definition neg (x : t) : t :=
  match x with
  | Finite m e => Finite (- m) e
  | PosInfinity => NegInfinity
  | NegInfinity => PosInfinity
  | NaN => NaN
  end.

(** [2^k <= p / q], for positive [p] and [q]. *)
Definition geqPow2 (p q k : Z) : bool :=
  if 0 <=? k then q * 2 ^ k <=? p else q <=? p * 2 ^ (- k).

(** The [k] with [2^k <= p / q < 2^(k+1)], for positive [p] and [q]. *)
Definition binade (p q : Z) : Z :=
  let k := Z.log2 p - Z.log2 q in
  if geqPow2 p q k then k else k - 1.

(** [a / b] rounded to the nearest integer, a tie to the even one. *)
Definition roundHalfEven (a b : Z) : Z :=
  let f := a / b in
  let r := a mod b in
  if 2 * r <? b then f
  else if b <? 2 * r then f + 1
  else if Z.even f then f else f + 1.

(** The Number value for [p / q], for positive [p] and [q]: 53 bits of
    precision, the least exponent -1074 (subnormals), and infinity from
    [2^1024] on. *)
Definition nearestPos (p q : Z) : t :=
  let ex := Z.max (binade p q) (-1022) - 52 in
  let n := if 0 <=? ex then roundHalfEven p (q * 2 ^ ex)
           else roundHalfEven (p * 2 ^ (- ex)) q in
  if ((971 <? ex) || ((ex =? 971) && (2 ^ 53 <=? n)))%bool then PosInfinity
  else finite n ex.

(** The Number value for [p / q], for positive [q]. *)
Definition nearest (p q : Z) : t :=
  match p with
  | Z0 => Finite 0 0
  | Zpos _ => nearestPos p q
  | Zneg _ => neg (nearestPos (- p) q)
  end.

(** The Number value for the integer [z]. *)
Definition ofZ (z : Z) : t := nearest z 1.

(** [x + y] *)
Definition add (x y : t) : t :=
  match x, y with
  | NaN, _ | _, NaN => NaN
  | PosInfinity, NegInfinity | NegInfinity, PosInfinity => NaN
  | PosInfinity, _ | _, PosInfinity => PosInfinity
  | NegInfinity, _ | _, NegInfinity => NegInfinity
  | Finite m1 e1, Finite m2 e2 =>
      let e := Z.min e1 e2 in
      let s := m1 * 2 ^ (e1 - e) + m2 * 2 ^ (e2 - e) in
      if 0 <=? e then nearest (s * 2 ^ e) 1 else nearest s (2 ^ (- e))
  end.

(** [x - y] *)
Definition sub (x y : t) : t := add x (neg y).

(** The order of two Numbers; [None] when one of them is NaN. *)
Definition compare (x y : t) : option comparison :=
  match x, y with
  | NaN, _ | _, NaN => None
  | PosInfinity, PosInfinity | NegInfinity, NegInfinity => Some Eq
  | PosInfinity, _ | _, NegInfinity => Some Gt
  | NegInfinity, _ | _, PosInfinity => Some Lt
  | Finite m1 e1, Finite m2 e2 =>
      let e := Z.min e1 e2 in
      Some (m1 * 2 ^ (e1 - e) ?= m2 * 2 ^ (e2 - e))
  end.

(** [x < y] *)
Definition ltb (x y : t) : bool :=
  match compare x y with Some Lt => true | _ => false end.

(** [x > y] *)
Definition gtb (x y : t) : bool := ltb y x.

(** [x >= y] *)
Definition geb (x y : t) : bool :=
  match compare x y with Some Gt | Some Eq => true | _ => false end.

(** [x === y] on Numbers *)
Definition eqb (x y : t) : bool :=
  match compare x y with Some Eq => true | _ => false end.

(** The integer a finite Number is, when it is one. *)
Definition toInteger (x : t) : option Z :=
  match x with
  | Finite m e =>
      if 0 <=? e then Some (m * 2 ^ e)
      else if m mod 2 ^ (- e) =? 0 then Some (m / 2 ^ (- e)) else None
  | _ => None
  end.

(** An integer or an infinity, as [ToIntegerOrInfinity] answers. *)
Inductive integerOrInfinity :=
| Integer (z : Z)
| PlusInfinity
| MinusInfinity.

(** [ToIntegerOrInfinity(x)]: NaN is 0, a fraction is cut towards zero. *)
Definition toIntegerOrInfinity (x : t) : integerOrInfinity :=
  match x with
  | NaN => Integer 0
  | PosInfinity => PlusInfinity
  | NegInfinity => MinusInfinity
  | Finite m e => Integer (if 0 <=? e then m * 2 ^ e else Z.quot m (2 ^ (- e)))
  end.

End Number.

(* ===================================================================== *)
(** * JavaScript values and the operators the sources apply to them      *)
(* ===================================================================== *)

Module JS.

(** The Numbers a binding caches or adds: the integer-valued Numbers and
    NaN.  What a string converts to is any Number, see [to_number]. *)
Inductive num :=
| Int (z : Z)
| NaN.

Inductive obj_kind :=
| Plain
| Arr    (* [x instanceof Array] *)
| Node.  (* [x instanceof platform.Node] *)

(** An object is known by its identity [ref]; [prim] is the string its
    [ToPrimitive] conversion yields at the time the value is used. *)
Inductive val :=
| VUndefined
| VNull
| VBool (b : bool)
| VNum (n : num)
| VStr (s : string)
| VObj (k : obj_kind) (ref : nat) (prim : string).

Definition num_eqb (a b : num) : bool :=
  match a, b with
  | Int x, Int y => x =? y
  | _, _ => false
  end.

Definition num_add (a b : num) : num :=
  match a, b with
  | Int x, Int y => Int (x + y)
  | _, _ => NaN
  end.

Definition to_primitive (v : val) : val :=
  match v with
  | VObj _ _ p => VStr p
  | _ => v
  end.

(** [String(n)], for an integer below [10^21] in magnitude; from there
    on JavaScript prints the exponent form, which is not followed here. *)
Definition num_to_string (n : num) : string :=
  match n with
  | Int z => pretty z
  | NaN => "NaN"
  end.

(** [String(v)], also the conversion [+] applies next to a string. *)
Definition to_string (v : val) : string :=
  match v with
  | VUndefined => "undefined"
  | VNull => "null"
  | VBool true => "true"
  | VBool false => "false"
  | VNum n => num_to_string n
  | VStr s => s
  | VObj _ _ p => p
  end.

(** A [string] is read as a sequence of code units below 256; the white
    space and line terminators among them ([StrWhiteSpaceChar]). *)
Definition is_ws (c : ascii) : bool :=
  let n := nat_of_ascii c in
  (Nat.eqb n 32 || Nat.eqb n 9 || Nat.eqb n 10 || Nat.eqb n 11
   || Nat.eqb n 12 || Nat.eqb n 13 || Nat.eqb n 160)%bool.

Fixpoint ltrim (l : list ascii) : list ascii :=
  match l with
  | c :: r => if is_ws c then ltrim r else l
  | [] => []
  end.

Definition trim (s : string) : list ascii :=
  rev (ltrim (rev (ltrim (list_ascii_of_string s)))).

(** The value of [c] as a digit of the given base (at most 16). *)
Definition digit (base : Z) (c : ascii) : option Z :=
  let n := Z.of_nat (nat_of_ascii c) in
  let v := if ((48 <=? n) && (n <=? 57))%bool then Some (n - 48)
           else if ((97 <=? n) && (n <=? 102))%bool then Some (n - 87)
           else if ((65 <=? n) && (n <=? 70))%bool then Some (n - 55)
           else None in
  match v with
  | Some d => if d <? base then Some d else None
  | None => None
  end.

(** The digits at the head of [l]: their value after [acc], how many
    they are after [count], and what follows them. *)
Fixpoint digits (base : Z) (l : list ascii) (acc : Z) (count : nat)
  : Z * nat * list ascii :=
  match l with
  | c :: r =>
      match digit base c with
      | Some d => digits base r (base * acc + d) (S count)
      | None => (acc, count, l)
      end
  | [] => (acc, count, [])
  end.

(** [0x], [0o] and [0b] literals ([NonDecimalIntegerLiteral]): the value,
    when [l] is one. *)
Definition nonDecimal (l : list ascii) : option Z :=
  match l with
  | z :: x :: r =>
      let n := nat_of_ascii x in
      let base := if (Nat.eqb n 120 || Nat.eqb n 88)%bool then Some 16
                  else if (Nat.eqb n 111 || Nat.eqb n 79)%bool then Some 8
                  else if (Nat.eqb n 98 || Nat.eqb n 66)%bool then Some 2
                  else None in
      match base with
      | Some base =>
          if Ascii.eqb z "0" then
            match digits base r 0 0 with
            | (v, S _, []) => Some v
            | _ => None
            end
          else None
      | None => None
      end
  | _ => None
  end.

(** What follows the mantissa of a decimal literal: nothing, or an
    [ExponentPart]; the exponent, when [l] is one of the two. *)
Definition exponentPart (l : list ascii) : option Z :=
  match l with
  | [] => Some 0
  | c :: r =>
      if (Ascii.eqb c "e" || Ascii.eqb c "E")%bool then
        let '(sign, r') :=
          match r with
          | s :: r' => if Ascii.eqb s "+" then (1, r')
                       else if Ascii.eqb s "-" then (-1, r')
                       else (1, r)
          | [] => (1, r)
          end in
        match digits 10 r' 0 0 with
        | (v, S _, []) => Some (sign * v)
        | _ => None
        end
      else None
  end.

(** [StrUnsignedDecimalLiteral] without [Infinity]: [m] and [e] with the
    value [m * 10^e], when [l] is one. *)
Definition unsignedDecimal (l : list ascii) : option (Z * Z) :=
  let '(i, ni, r1) := digits 10 l 0 0 in
  match r1 with
  | c :: r2 =>
      if Ascii.eqb c "." then
        let '(m, nf, r3) := digits 10 r2 i 0 in
        if (Nat.eqb ni 0 && Nat.eqb nf 0)%bool then None
        else match exponentPart r3 with
             | Some e => Some (m, e - Z.of_nat nf)
             | None => None
             end
      else if Nat.eqb ni 0 then None
      else match exponentPart r1 with
           | Some e => Some (i, e)
           | None => None
           end
  | [] => if Nat.eqb ni 0 then None else Some (i, 0)
  end.

(** [Number(s)] ([StringToNumber]): white space around the literal is
    dropped, the empty string is 0, a literal is read by the grammar
    [StrNumericLiteral] and rounded to the nearest Number, as engines do,
    and anything else is NaN. *)
Definition string_to_number (s : string) : Number.t :=
  match trim s with
  | [] => Number.Finite 0 0
  | c :: r =>
      match nonDecimal (c :: r) with
      | Some v => Number.nearest v 1
      | None =>
          let '(negative, u) :=
            if Ascii.eqb c "-" then (true, r)
            else if Ascii.eqb c "+" then (false, r)
            else (false, c :: r) in
          let x :=
            if String.eqb (string_of_list_ascii u) "Infinity" then Number.PosInfinity
            else match unsignedDecimal u with
                 | Some (m, e) =>
                     if 0 <=? e then Number.nearest (m * 10 ^ e) 1
                     else Number.nearest m (10 ^ (- e))
                 | None => Number.NaN
                 end in
          if negative then Number.neg x else x
      end
  end.

(** [ToNumber(v)] *)
Definition to_number (v : val) : Number.t :=
  match to_primitive v with
  | VUndefined => Number.NaN
  | VNull => Number.Finite 0 0
  | VBool true => Number.Finite 1 0
  | VBool false => Number.Finite 0 0
  | VNum (Int z) => Number.ofZ z
  | VNum NaN => Number.NaN
  | VStr s => string_to_number s
  | VObj _ _ _ => Number.NaN
  end.

(** [ToNumber] of a primitive that is neither a string nor an object, as
    [+] applies it once neither operand is a string. *)
Definition numeric (v : val) : num :=
  match v with
  | VNull => Int 0
  | VBool true => Int 1
  | VBool false => Int 0
  | VNum n => n
  | _ => NaN
  end.

(** [a === b] *)
Definition strict_eq (a b : val) : bool :=
  match a, b with
  | VUndefined, VUndefined => true
  | VNull, VNull => true
  | VBool x, VBool y => Bool.eqb x y
  | VNum x, VNum y => num_eqb x y
  | VStr x, VStr y => String.eqb x y
  | VObj _ r1 _, VObj _ r2 _ => Nat.eqb r1 r2
  | _, _ => false
  end.

(** [a == b] *)
Definition loose_eq (a b : val) : bool :=
  match a, b with
  | VUndefined, VUndefined | VUndefined, VNull
  | VNull, VUndefined | VNull, VNull => true
  | VUndefined, _ | VNull, _ | _, VUndefined | _, VNull => false
  | VBool _, VBool _ | VNum _, VNum _ | VStr _, VStr _ | VObj _ _ _, VObj _ _ _ =>
      strict_eq a b
  | _, _ =>
      match to_primitive a, to_primitive b with
      | VStr x, VStr y => String.eqb x y
      | pa, pb => Number.eqb (to_number pa) (to_number pb)
      end
  end.

(** [a + b] *)
Definition add (a b : val) : val :=
  match to_primitive a, to_primitive b with
  | VStr x, pb => VStr (x +:+ to_string pb)
  | pa, VStr y => VStr (to_string pa +:+ y)
  | pa, pb => VNum (num_add (numeric pa) (numeric pb))
  end.

Definition instanceof_Array (v : val) : bool :=
  match v with VObj Arr _ _ => true | _ => false end.

Definition instanceof_Node (v : val) : bool :=
  match v with VObj Node _ _ => true | _ => false end.

(** The 32-bit signed integer a bitwise operator sees. *)
Definition toInt32 (z : Z) : Z := (z + 2 ^ 31) mod 2 ^ 32 - 2 ^ 31.

(** [a & b] *)
Definition band (a b : Z) : Z := Z.land (toInt32 a) (toInt32 b).

End JS.

Import JS.

(* ===================================================================== *)
(** * lifecycle.ts: the controller [State] flags                          *)
(* ===================================================================== *)

Module State.
Definition none                     : Z := 0.    (* 0b00_0000_0000 *)
Definition activating               : Z := 1.    (* 0b00_0000_0001 *)
Definition beforeBindCalled         : Z := 2.    (* 0b00_0000_0010 *)
Definition activateChildrenCalled   : Z := 4.    (* 0b00_0000_0100 *)
Definition activated                : Z := 14.   (* 0b00_0000_1110 *)
Definition deactivating             : Z := 16.   (* 0b00_0001_0000 *)
Definition beforeDetachCalled       : Z := 32.   (* 0b00_0010_0000 *)
Definition deactivateChildrenCalled : Z := 64.   (* 0b00_0100_0000 *)
Definition deactivated              : Z := 224.  (* 0b00_1110_0000 *)
Definition released                 : Z := 256.  (* 0b01_0000_0000 *)
Definition disposed                 : Z := 512.  (* 0b10_0000_0000 *)
End State.

(** The test [(state & flag) === flag] that [stringifyState] applies. *)
Definition hasFlag (state flag : Z) : bool := band state flag =? flag.

(** [names.join('|')] *)
Fixpoint join (sep : string) (names : list string) : string :=
  match names with
  | [] => ""
  | [n] => n
  | n :: rest => n +:+ sep +:+ join sep rest
  end.

Definition stateNames (state : Z) : list string :=
  (if hasFlag state State.activating then ["activating"] else [])
  ++ (if hasFlag state State.activated then ["activated"]
      else (if hasFlag state State.beforeBindCalled then ["beforeBindCalled"] else [])
           ++ (if hasFlag state State.activateChildrenCalled
               then ["activateChildrenCalled"] else []))
  ++ (if hasFlag state State.deactivating then ["deactivating"] else [])
  ++ (if hasFlag state State.deactivated then ["deactivated"]
      else (if hasFlag state State.beforeDetachCalled then ["beforeDetachCalled"] else [])
           ++ (if hasFlag state State.deactivateChildrenCalled
               then ["deactivateChildrenCalled"] else []))
  ++ (if hasFlag state State.released then ["released"] else [])
  ++ (if hasFlag state State.disposed then ["disposed"] else []).

Definition stringifyState (state : Z) : string :=
  let names := stateNames state in
  if Nat.eqb (length names) 0 then "none" else join "|" names.


(* ===================================================================== *)
(** * Collaborators declared outside these sources                        *)
(* ===================================================================== *)

(** Members of the const enums [LifecycleFlags], [AccessorType],
    [BindingMode] and [ExpressionKind] of the runtime package.  The enum
    declarations are not part of the sources at hand, so the members are
    parameters of the development. *)
Class Enums := {
  LifecycleFlags_none : Z;
  LifecycleFlags_fromBind : Z;
  AccessorType_Layout : Z;
  BindingMode_oneTime : Z;
  BindingMode_toView : Z;
  ExpressionKind_AccessScope : Z;
}.

(** A [Scope] and a service locator are objects; only their identity
    matters to the bindings. *)
Definition Scope := nat.
Definition Locator := nat.

(** The application state expressions are evaluated against: property
    [key] of object [ref]. *)
Definition Heap := nat -> string -> val.

(** What a binding can subscribe to while an expression is evaluated. *)
Inductive ObsKey :=
| PropertyOf (ref : nat) (key : string)
| CollectionOf (ref : nat).

Definition ObsKey_eqb (a b : ObsKey) : bool :=
  match a, b with
  | PropertyOf r1 k1, PropertyOf r2 k2 => (Nat.eqb r1 r2 && String.eqb k1 k2)%bool
  | CollectionOf r1, CollectionOf r2 => Nat.eqb r1 r2
  | _, _ => false
  end.

(** An expression AST node ([IsExpression]), seen through the interface
    the bindings use: its [$kind], whether it has bind/unbind hooks, the
    value [evaluate] returns, and the observables [evaluate] reports to
    the connectable it is given, in the order they are read. *)
Record Expression := {
  kind : Z;
  hasBind : bool;
  hasUnbind : bool;
  evaluate : Z -> option Scope -> option Scope -> Locator -> Heap -> val;
  reads : Z -> option Scope -> option Scope -> Locator -> Heap -> list ObsKey;
}.

(** Calls that leave the modelled classes. *)
Inductive Event :=
| SetValue (v : val) (flags : Z)
    (* targetObserver.setValue(v, flags, target, targetProperty) *)
| SetTextContent (s : string)          (* target.textContent = s *)
| RemoveFromParent (ref : nat)         (* node.parentNode?.removeChild(node) *)
| InsertBeforeTarget (ref : nat)       (* target.parentNode?.insertBefore(node, target) *)
| ExprBind (flags : Z) (scope : Scope) (hostScope : option Scope)
| ExprUnbind (flags : Z) (scope : option Scope) (hostScope : option Scope)
| UpdateSource (v : val) (flags : Z).

(** ** Dependency-tracking record *)

Module Connectable.

(** Modelled from the spec: the [ObserverRecord] a connectable binding
    owns ([this.obs]); the mixin that provides it is not among the
    sources.  It maps each observed key to the version at which it was
    last seen and carries the current [version]. *)
Record ObserverRecord := {
  version : Z;
  entries : list (ObsKey * Z);
}.

Definition empty : ObserverRecord := {| version := 0; entries := [] |}.

(** [obs.count] *)
Definition count (r : ObserverRecord) : Z := Z.of_nat (length (entries r)).

(** [obs.version++] *)
Definition bump (r : ObserverRecord) : ObserverRecord :=
  {| version := version r + 1; entries := entries r |}.

Fixpoint touch (k : ObsKey) (v : Z) (l : list (ObsKey * Z)) : list (ObsKey * Z) :=
  match l with
  | [] => [(k, v)]
  | (k', v') :: r => if ObsKey_eqb k k' then (k, v) :: r else (k', v') :: touch k v r
  end.

(** Modelled from the spec: an observable read during a tracked
    evaluation sets its entry's last-seen version to the current
    version, creating the entry if it is new. *)
Definition add (k : ObsKey) (r : ObserverRecord) : ObserverRecord :=
  {| version := version r; entries := touch k (version r) (entries r) |}.

(** Modelled from the spec: [obs.clear(all)] unsubscribes and removes
    every entry when [all] is set, and the stale ones (not seen at the
    current version) otherwise. *)
Definition clear (all : bool) (r : ObserverRecord) : ObserverRecord :=
  {| version := version r;
     entries := if all then []
                else List.filter (fun e => snd e =? version r) (entries r) |}.

(** [expr.evaluate(flags, scope, hostScope, locator, c)]: the record is
    fed only when a connectable is passed ([c] non-null). *)
Definition tracked (connect : bool) (keys : list ObsKey) (r : ObserverRecord)
  : ObserverRecord :=
  if connect then fold_left (fun acc k => add k acc) keys r else r.

(** [this.observeCollection(v)] *)
Definition observeCollection (v : val) (r : ObserverRecord) : ObserverRecord :=
  match v with
  | VObj _ ref _ => add (CollectionOf ref) r
  | _ => r
  end.

End Connectable.

(** ** Task queue *)

Module TaskQueue.

Inductive TaskStatus := pending | completed | canceled.

Record QueueTaskOptions := { reusable : bool; preempt : bool }.

Record Task (W : Type) := {
  status : TaskStatus;
  options : QueueTaskOptions;
  work : W;
}.
Arguments status {W} _.
Arguments options {W} _.
Arguments work {W} _.

(** Modelled from the spec: the task queue of the kernel package, which
    is not among the sources.  Tasks are kept in the order they were
    queued; a task's handle is its position. *)
Abbreviation t W := (list (Task W)).

Definition isPending {W} (tk : Task W) : bool :=
  match status tk with pending => true | _ => false end.

(** Modelled from the spec: [queueTask(work, options)] returns a
    cancellable handle. *)
Definition queueTask {W} (wk : W) (opts : QueueTaskOptions) (q : t W) : nat * t W :=
  (length q, q ++ [{| status := pending; options := opts; work := wk |}]).

Definition setStatus {W} (s : TaskStatus) (tk : Task W) : Task W :=
  {| status := s; options := options tk; work := work tk |}.

(** Modelled from the spec: [cancel()] before execution prevents the
    work from running; on a task that ran or was canceled it does
    nothing. *)
Definition cancel {W} (h : nat) (q : t W) : t W :=
  match q !! h with
  | Some tk => if isPending tk then <[h := setStatus canceled tk]> q else q
  | None => q
  end.

Definition complete {W} (h : nat) (q : t W) : t W :=
  match q !! h with
  | Some tk => <[h := setStatus completed tk]> q
  | None => q
  end.

Definition isPendingAt {W} (q : t W) (h : nat) : bool :=
  match q !! h with Some tk => isPending tk | None => false end.

(** Handles of the pending tasks, in queueing order. *)
Definition pendingHandles {W} (q : t W) : list nat :=
  List.filter (isPendingAt q) (seq 0 (length q)).

Definition isPreempt {W} (q : t W) (h : nat) : bool :=
  match q !! h with Some tk => preempt (options tk) | None => false end.

(** Modelled from the spec: when the queue flushes, preempting tasks
    run ahead of the other pending work. *)
Definition flushOrder {W} (q : t W) : list nat :=
  List.filter (isPreempt q) (pendingHandles q)
  ++ List.filter (fun h => negb (isPreempt q h)) (pendingHandles q).

End TaskQueue.

(** [queueTaskOptions] of the interpolation bindings. *)
Definition queueTaskOptions : TaskQueue.QueueTaskOptions :=
  {| TaskQueue.reusable := false; TaskQueue.preempt := true |}.

(** ** The world a binding lives in *)

(** The application state, one binding object with what it owns, the
    tasks this binding has queued, and the calls made so far to the
    collaborators of the binding. *)
Record World (B W : Type) := {
  heap : Heap;
  binding : B;
  queue : TaskQueue.t W;
  log : list Event;
}.
Arguments heap {B W} _.
Arguments binding {B W} _.
Arguments queue {B W} _.
Arguments log {B W} _.

Definition setBinding {B W} (b : B) (w : World B W) : World B W :=
  {| heap := heap w; binding := b; queue := queue w; log := log w |}.

Definition setQueue {B W} (q : TaskQueue.t W) (w : World B W) : World B W :=
  {| heap := heap w; binding := binding w; queue := q; log := log w |}.

Definition setHeap {B W} (h : Heap) (w : World B W) : World B W :=
  {| heap := h; binding := binding w; queue := queue w; log := log w |}.

Definition emit {B W} (es : list Event) (w : World B W) : World B W :=
  {| heap := heap w; binding := binding w; queue := queue w; log := log w ++ es |}.

(** Modelled from the spec: the queue runs the work of a task that is
    still pending when its turn comes; the work of a canceled task never
    runs. *)
Definition runTask {B W} (run : W -> World B W -> World B W) (h : nat) (w : World B W)
  : World B W :=
  match queue w !! h with
  | Some tk =>
      if TaskQueue.isPending tk
      then run (TaskQueue.work tk) (setQueue (TaskQueue.complete h (queue w)) w)
      else w
  | None => w
  end.

(** Modelled from the spec: one flush of the queue runs the tasks that
    are pending when it starts, preempting ones first. *)
Definition flush {B W} (run : W -> World B W -> World B W) (w : World B W) : World B W :=
  fold_left (fun acc h => runTask run h acc) (TaskQueue.flushOrder (queue w)) w.

Definition pendingCount {B W} (w : World B W) : nat :=
  length (TaskQueue.pendingHandles (queue w)).

(* ===================================================================== *)
(** * The interpolation bindings                                          *)
(* ===================================================================== *)

(** ** ContentBinding: one [${...}] part of an interpolation *)

Module ContentBinding.
Section WithEnums.
Context `{Enums}.

Record t := {
  sourceExpression : Expression;
  locator : Locator;
  mode : Z;
  value : val;
  scope : option Scope;       (* $scope; [None] is [undefined] *)
  hostScope : option Scope;   (* $hostScope; [None] is [null] *)
  task : option nat;
  isBound : bool;
  obs : Connectable.ObserverRecord;
}.

(** [new ContentBinding(expr, target, targetProperty, locator, ...)] *)
Definition create (e : Expression) (l : Locator) : t :=
  {| sourceExpression := e; locator := l; mode := BindingMode_toView;
     value := VStr ""; scope := None; hostScope := None; task := None;
     isBound := false; obs := Connectable.empty |}.

Definition setObs (r : Connectable.ObserverRecord) (b : t) : t :=
  {| sourceExpression := sourceExpression b; locator := locator b; mode := mode b;
     value := value b; scope := scope b; hostScope := hostScope b; task := task b;
     isBound := isBound b; obs := r |}.

Definition setValue (v : val) (b : t) : t :=
  {| sourceExpression := sourceExpression b; locator := locator b; mode := mode b;
     value := v; scope := scope b; hostScope := hostScope b; task := task b;
     isBound := isBound b; obs := obs b |}.

Definition setBound (bound : bool) (s hs : option Scope) (b : t) : t :=
  {| sourceExpression := sourceExpression b; locator := locator b; mode := mode b;
     value := value b; scope := s; hostScope := hs; task := task b;
     isBound := bound; obs := obs b |}.

(** [sourceExpression.$kind === ExpressionKind.AccessScope && obsRecord.count === 1] *)
Definition canOptimize (b : t) : bool :=
  ((kind (sourceExpression b) =? ExpressionKind_AccessScope)
   && (Connectable.count (obs b) =? 1))%bool.

(** [(this.mode & toView) > 0] *)
Definition shouldConnect (b : t) : bool := band (mode b) BindingMode_toView >? 0.

(** The [if (!canOptimize) { ... }] block of [handleChange]: the value
    that is compared next, and the binding with its record updated. *)
Definition refresh (newValue : val) (flags : Z) (h : Heap) (b : t) : val * t :=
  if canOptimize b then (newValue, b)
  else
    let connect := shouldConnect b in
    let e := sourceExpression b in
    let r0 := if connect then Connectable.bump (obs b) else obs b in
    let v := evaluate e flags (scope b) (hostScope b) (locator b) h in
    let r1 := Connectable.tracked connect
                (reads e flags (scope b) (hostScope b) (locator b) h) r0 in
    let r2 := if connect then Connectable.clear false r1 else r1 in
    (v, setObs r2 b).

(** [handleChange(newValue, oldValue, flags)].  The second component is
    the call [this.owner.updateTarget(newValue, flags)], when made. *)
Definition handleChange (newValue oldValue : val) (flags : Z) (h : Heap) (b : t)
  : t * option (val * Z) :=
  if negb (isBound b) then (b, None)
  else
    let '(newValue, b1) := refresh newValue flags h b in
    if negb (loose_eq newValue (value b1)) then
      let b2 := setValue newValue b1 in
      let b3 := if instanceof_Array newValue
                then setObs (Connectable.observeCollection newValue (obs b2)) b2
                else b2 in
      (b3, Some (newValue, flags))
    else (b1, None).

(** [handleCollectionChange(indexMap, flags)]: always
    [this.owner.updateTarget(void 0, flags)]. *)
Definition handleCollectionChange (flags : Z) (b : t) : t * option (val * Z) :=
  (b, Some (VUndefined, flags)).

(** [$unbind(flags)] *)
Definition unbind (flags : Z) (b : t) : t * list Event :=
  if negb (isBound b) then (b, [])
  else
    let ev := if hasUnbind (sourceExpression b)
              then [ExprUnbind flags (scope b) (hostScope b)] else [] in
    let b1 := setBound false None None b in
    (setObs (Connectable.clear true (obs b1)) b1, ev).

(** [$bind(flags, scope, hostScope)] *)
Definition bind (flags : Z) (s : Scope) (hs : option Scope) (h : Heap) (b : t)
  : t * list Event :=
  if (isBound b && bool_decide (scope b = Some s))%bool then (b, [])
  else
    let '(b0, ev0) := if isBound b then unbind flags b else (b, []) in
    let b1 := setBound true (Some s) hs b0 in
    let e := sourceExpression b1 in
    let ev1 := if hasBind e then [ExprBind flags s hs] else [] in
    let v := evaluate e flags (Some s) hs (locator b1) h in
    let r := Connectable.tracked (shouldConnect b1)
               (reads e flags (Some s) hs (locator b1) h) (obs b1) in
    let b2 := setObs r (setValue v b1) in
    let b3 := if instanceof_Array v
              then setObs (Connectable.observeCollection v (obs b2)) b2
              else b2 in
    (b3, ev0 ++ ev1).

End WithEnums.
End ContentBinding.

(** ** InterpolationBinding: the owner of the parts *)

Module InterpolationBinding.
Section WithEnums.
Context `{Enums}.

Record t := {
  isBound : bool;
  scope : option Scope;                   (* $scope *)
  partBindings : list ContentBinding.t;
  staticParts : list string;              (* interpolation.parts *)
  targetObserverType : Z;                 (* targetObserver.type *)
  task : option nat;
  mode : Z;
}.

(** The closure handed to [taskQueue.queueTask]:
    [() => { this.task = null; targetObserver.setValue(result, flags, ...) }] *)
Inductive Work := WriteResult (result : val) (flags : Z).

Definition W := World t Work.

Definition setTask (tk : option nat) (b : t) : t :=
  {| isBound := isBound b; scope := scope b; partBindings := partBindings b;
     staticParts := staticParts b; targetObserverType := targetObserverType b;
     task := tk; mode := mode b |}.

Definition setParts (ps : list ContentBinding.t) (b : t) : t :=
  {| isBound := isBound b; scope := scope b; partBindings := ps;
     staticParts := staticParts b; targetObserverType := targetObserverType b;
     task := task b; mode := mode b |}.

Definition setBound (bound : bool) (s : option Scope) (b : t) : t :=
  {| isBound := bound; scope := s; partBindings := partBindings b;
     staticParts := staticParts b; targetObserverType := targetObserverType b;
     task := task b; mode := mode b |}.

Definition setMode (m : Z) (b : t) : t :=
  {| isBound := isBound b; scope := scope b; partBindings := partBindings b;
     staticParts := staticParts b; targetObserverType := targetObserverType b;
     task := task b; mode := m |}.

(** [staticParts[i]] *)
Definition staticPart (b : t) (i : nat) : val :=
  match staticParts b !! i with Some s => VStr s | None => VUndefined end.

(** [partBindings[i].value] *)
Definition partValue (b : t) (i : nat) : val :=
  match partBindings b !! i with
  | Some p => ContentBinding.value p
  | None => VUndefined
  end.

(** [for (let i = 0; ii > i; ++i) result += partBindings[i].value + staticParts[i + 1]],
    with [n] iterations left. *)
Fixpoint concatFrom (b : t) (i n : nat) (result : val) : val :=
  match n with
  | O => result
  | S m => concatFrom b (S i) m
             (JS.add result (JS.add (partValue b i) (staticPart b (S i))))
  end.

(** The string [updateTarget] computes before it decides how to write. *)
Definition render (b : t) : val :=
  let ii := length (partBindings b) in
  if Nat.eqb ii 1
  then JS.add (JS.add (staticPart b 0) (partValue b 0)) (staticPart b 1)
  else concatFrom b 0 ii (staticPart b 0).

(** [(flags & LifecycleFlags.fromBind) === 0 && (targetObserver.type & AccessorType.Layout) > 0] *)
Definition shouldQueueFlush (b : t) (flags : Z) : bool :=
  ((band flags LifecycleFlags_fromBind =? 0)
   && (band (targetObserverType b) AccessorType_Layout >? 0))%bool.

(** [updateTarget(value, flags)] *)
Definition updateTarget (value : val) (flags : Z) (w : W) : W :=
  let b := binding w in
  let result := render b in
  if shouldQueueFlush b flags then
    let task := task b in
    let '(h, q) := TaskQueue.queueTask (WriteResult result flags) queueTaskOptions (queue w) in
    let w1 := setQueue q (setBinding (setTask (Some h) b) w) in
    match task with
    | Some old => setQueue (TaskQueue.cancel old (queue w1)) w1
    | None => w1
    end
  else emit [SetValue result flags] w.

(** Running the queued closure. *)
Definition run (wk : Work) (w : W) : W :=
  match wk with
  | WriteResult result flags =>
      emit [SetValue result flags] (setBinding (setTask None (binding w)) w)
  end.

(** [for (...) partBindings[i].interceptor.$unbind(flags)] *)
Fixpoint unbindParts (flags : Z) (ps : list ContentBinding.t)
  : list ContentBinding.t * list Event :=
  match ps with
  | [] => ([], [])
  | p :: r =>
      let '(p', e1) := ContentBinding.unbind flags p in
      let '(r', e2) := unbindParts flags r in
      (p' :: r', e1 ++ e2)
  end.

(** [for (...) partBindings[i].$bind(flags, scope, hostScope)] *)
Fixpoint bindParts (flags : Z) (s : Scope) (hs : option Scope) (h : Heap)
    (ps : list ContentBinding.t) : list ContentBinding.t * list Event :=
  match ps with
  | [] => ([], [])
  | p :: r =>
      let '(p', e1) := ContentBinding.bind flags s hs h p in
      let '(r', e2) := bindParts flags s hs h r in
      (p' :: r', e1 ++ e2)
  end.

(** [$unbind(flags)] *)
Definition unbind (flags : Z) (w : W) : W :=
  let b := binding w in
  if negb (isBound b) then w
  else
    let b1 := setBound false None b in
    let '(ps, ev) := unbindParts flags (partBindings b1) in
    let w1 := emit ev (setBinding (setParts ps b1) w) in
    let w2 := match task (binding w1) with
              | Some h => setQueue (TaskQueue.cancel h (queue w1)) w1
              | None => w1
              end in
    setBinding (setTask None (binding w2)) w2.

(** [$bind(flags, scope, hostScope)] *)
Definition bind (flags : Z) (s : Scope) (hs : option Scope) (w : W) : W :=
  if (isBound (binding w) && bool_decide (scope (binding w) = Some s))%bool then w
  else
    let w0 := if isBound (binding w) then unbind flags w else w in
    let b1 := setBound true (Some s) (binding w0) in
    let '(ps, ev) := bindParts flags s hs (heap w0) (partBindings b1) in
    let w1 := emit ev (setBinding (setParts ps b1) w0) in
    updateTarget VUndefined flags w1.

(** A call the owner receives from a part. *)
Definition ownerCall (c : option (val * Z)) (w : W) : W :=
  match c with
  | Some (v, flags) => updateTarget v flags w
  | None => w
  end.

(** [partBindings[i].handleChange(newValue, oldValue, flags)] *)
Definition partHandleChange (i : nat) (newValue oldValue : val) (flags : Z) (w : W) : W :=
  match partBindings (binding w) !! i with
  | Some p =>
      let '(p', c) := ContentBinding.handleChange newValue oldValue flags (heap w) p in
      ownerCall c (setBinding (setParts (<[i := p']> (partBindings (binding w))) (binding w)) w)
  | None => w
  end.

(** [partBindings[i].handleCollectionChange(indexMap, flags)] *)
Definition partHandleCollectionChange (i : nat) (flags : Z) (w : W) : W :=
  match partBindings (binding w) !! i with
  | Some p =>
      let '(p', c) := ContentBinding.handleCollectionChange flags p in
      ownerCall c (setBinding (setParts (<[i := p']> (partBindings (binding w))) (binding w)) w)
  | None => w
  end.

(** [new InterpolationBinding(observerLocator, interpolation, target,
    targetProperty, mode, locator, taskQueue)]: one [ContentBinding] per
    expression of the interpolation.  [type] is the type of the accessor
    the observer locator answers for the target property. *)
Definition create (type : Z) (parts : list string) (expressions : list Expression)
    (mode : Z) (locator : Locator) : t :=
  {| isBound := false;
     scope := None;
     partBindings := List.map (fun e => ContentBinding.create e locator) expressions;
     staticParts := parts;
     targetObserverType := type;
     task := None;
     mode := mode |}.

End WithEnums.
End InterpolationBinding.

(** ** ContentBinding2: a binding that owns a text node *)

Module ContentBinding2.
Section WithEnums.
Context `{Enums}.

Record t := {
  sourceExpression : Expression;
  locator : Locator;
  mode : Z;
  value : val;
  scope : option Scope;       (* $scope *)
  hostScope : option Scope;   (* $hostScope *)
  task : option nat;
  isBound : bool;
  obs : Connectable.ObserverRecord;
}.

(** The closure handed to [platform.domWriteQueue.queueTask]:
    [() => { this.updateTarget(newValue, flags) }] *)
Inductive Work := UpdateTarget (newValue : val) (flags : Z).

Definition W := World t Work.

Definition create (e : Expression) (l : Locator) : t :=
  {| sourceExpression := e; locator := l; mode := BindingMode_toView;
     value := VStr ""; scope := None; hostScope := None; task := None;
     isBound := false; obs := Connectable.empty |}.

Definition setObs (r : Connectable.ObserverRecord) (b : t) : t :=
  {| sourceExpression := sourceExpression b; locator := locator b; mode := mode b;
     value := value b; scope := scope b; hostScope := hostScope b; task := task b;
     isBound := isBound b; obs := r |}.

Definition setValue (v : val) (b : t) : t :=
  {| sourceExpression := sourceExpression b; locator := locator b; mode := mode b;
     value := v; scope := scope b; hostScope := hostScope b; task := task b;
     isBound := isBound b; obs := obs b |}.

Definition setTask (tk : option nat) (b : t) : t :=
  {| sourceExpression := sourceExpression b; locator := locator b; mode := mode b;
     value := value b; scope := scope b; hostScope := hostScope b; task := tk;
     isBound := isBound b; obs := obs b |}.

Definition setBound (bound : bool) (s hs : option Scope) (b : t) : t :=
  {| sourceExpression := sourceExpression b; locator := locator b; mode := mode b;
     value := value b; scope := s; hostScope := hs; task := task b;
     isBound := bound; obs := obs b |}.

(** The DOM calls of [updateTarget], in program order. *)
Definition domWrites (oldValue value : val) : list Event :=
  (match oldValue with
   | VObj Node ref _ => [RemoveFromParent ref]
   | _ => []
   end)
  ++ (match value with
      | VObj Node ref _ => [SetTextContent ""; InsertBeforeTarget ref]
      | _ => [SetTextContent (to_string value)]
      end).

(** [updateTarget(value, flags)] *)
Definition updateTarget (v : val) (flags : Z) (w : W) : W :=
  let b := binding w in
  let oldValue := value b in
  let b1 := setTask None b in
  emit (domWrites oldValue v) (setBinding (setValue v b1) w).

Definition run (wk : Work) (w : W) : W :=
  match wk with
  | UpdateTarget newValue flags => updateTarget newValue flags w
  end.

Definition canOptimize (b : t) : bool :=
  ((kind (sourceExpression b) =? ExpressionKind_AccessScope)
   && (Connectable.count (obs b) =? 1))%bool.

Definition shouldConnect (b : t) : bool := band (mode b) BindingMode_toView >? 0.

(** The [if (!canOptimize) { ... }] block of [handleChange]. *)
Definition refresh (newValue : val) (flags : Z) (h : Heap) (b : t) : val * t :=
  if canOptimize b then (newValue, b)
  else
    let connect := shouldConnect b in
    let e := sourceExpression b in
    let r0 := if connect then Connectable.bump (obs b) else obs b in
    let v := evaluate e flags (scope b) (hostScope b) (locator b) h in
    let r1 := Connectable.tracked connect
                (reads e flags (scope b) (hostScope b) (locator b) h) r0 in
    let r2 := if connect then Connectable.clear false r1 else r1 in
    (v, setObs r2 b).

(** [handleChange(newValue, oldValue, flags)] *)
Definition handleChange (newValue oldValue : val) (flags : Z) (w : W) : W :=
  if negb (isBound (binding w)) then w
  else
    let '(newValue, b1) := refresh newValue flags (heap w) (binding w) in
    let w1 := setBinding b1 w in
    if strict_eq newValue (value b1) then w1
    else
      let shouldQueueFlush := band flags LifecycleFlags_fromBind =? 0 in
      let w2 := match task b1 with
                | Some old => setQueue (TaskQueue.cancel old (queue w1)) w1
                | None => w1
                end in
      if shouldQueueFlush then
        let '(h, q) := TaskQueue.queueTask (UpdateTarget newValue flags)
                         queueTaskOptions (queue w2) in
        setQueue q (setBinding (setTask (Some h) (binding w2)) w2)
      else updateTarget newValue flags w2.

(** [handleCollectionChange()] *)
Definition handleCollectionChange (w : W) : W :=
  updateTarget (VStr (to_string (value (binding w))))
    LifecycleFlags_none w.

(** [$unbind(flags)] *)
Definition unbind (flags : Z) (w : W) : W :=
  let b := binding w in
  if negb (isBound b) then w
  else
    let ev := if hasUnbind (sourceExpression b)
              then [ExprUnbind flags (scope b) (hostScope b)] else [] in
    let b1 := setBound false None None b in
    emit ev (setBinding (setObs (Connectable.clear true (obs b1)) b1) w).

(** [$bind(flags, scope, hostScope)] *)
Definition bind (flags : Z) (s : Scope) (hs : option Scope) (w : W) : W :=
  if (isBound (binding w) && bool_decide (scope (binding w) = Some s))%bool then w
  else
    let w0 := if isBound (binding w) then unbind flags w else w in
    let b1 := setBound true (Some s) hs (binding w0) in
    let e := sourceExpression b1 in
    let ev1 := if hasBind e then [ExprBind flags s hs] else [] in
    let v := evaluate e flags (Some s) hs (locator b1) (heap w0) in
    let r := Connectable.tracked (shouldConnect b1)
               (reads e flags (Some s) hs (locator b1) (heap w0)) (obs b1) in
    let b2 := setObs r (setValue v b1) in
    let b3 := if instanceof_Array v
              then setObs (Connectable.observeCollection v (obs b2)) b2
              else b2 in
    updateTarget v flags (emit ev1 (setBinding b3 w0)).

(** [target.textContent] as the writes so far leave it, starting from [init]. *)
Definition textContent (init : string) (w : W) : string :=
  fold_left (fun acc e => match e with SetTextContent s => s | _ => acc end)
    (log w) init.

End WithEnums.
End ContentBinding2.

(* ===================================================================== *)
(** * binding-utils.ts: BindingTargetSubscriber                           *)
(* ===================================================================== *)

Module BindingTargetSubscriber.

(** [ITwoWayBindingImpl]: what the subscriber needs of its binding.
    [updateSource] is the binding's own method; its effect on the
    application state is a parameter. *)
Record ITwoWayBindingImpl := {
  sourceExpression : Expression;
  scope : option Scope;        (* $scope *)
  hostScope : option Scope;    (* $hostScope *)
  locator : Locator;
  updateSource : val -> Z -> Heap -> Heap;
}.

Record state := { heap : Heap; calls : list Event }.

(** [handleChange(value, _, flags)] *)
Definition handleChange (b : ITwoWayBindingImpl) (value _old : val) (flags : Z)
    (s : state) : state :=
  if negb (strict_eq value
             (evaluate (sourceExpression b) flags (scope b) (hostScope b)
                (locator b) (heap s)))
  then {| heap := updateSource b value flags (heap s);
          calls := calls s ++ [UpdateSource value flags] |}
  else s.

End BindingTargetSubscriber.

(* ===================================================================== *)
(** * lifecycle.ts: BatchQueue                                            *)
(* ===================================================================== *)

Module BatchQueue.
Section WithRequestors.
Context `{Enums}.

(** The state the flush callbacks of the requestors act on, besides the
    queue itself. *)
Variable Env : Type.

Record t := {
  queue : list nat;   (* the requestors, by identity *)
  depth : Z;
  env : Env;
}.

(** [IBatchable.flushBatch(flags)] of requestor [r]: any function of the
    batch queue and the environment. *)
Variable flushBatch : nat -> Z -> t -> t.

Definition setQueue (q : list nat) (s : t) : t :=
  {| queue := q; depth := depth s; env := env s |}.

Definition setDepth (d : Z) (s : t) : t :=
  {| queue := queue s; depth := d; env := env s |}.

(** [begin()] *)
Definition begin (s : t) : t := setDepth (depth s + 1) s.

(** [add(requestor)] *)
Definition add (r : nat) (s : t) : t := setQueue (queue s ++ [r]) s.

Fixpoint removeFirst (r : nat) (q : list nat) : list nat :=
  match q with
  | [] => []
  | x :: rest => if Nat.eqb x r then rest else x :: removeFirst r rest
  end.

(** [remove(requestor)] *)
Definition remove (r : nat) (s : t) : t := setQueue (removeFirst r (queue s)) s.

(** One turn of the [while] loop of [process]: snapshot, clear, flush
    every entry of the snapshot.  The second component records the
    requestors whose [flushBatch] was invoked, in order. *)
Definition flushPass (flags : Z) (st : t * list nat) : t * list nat :=
  let batch := queue (fst st) in
  fold_left (fun acc r => (flushBatch r flags (fst acc), snd acc ++ [r]))
    batch (setQueue [] (fst st), snd st).

(** [process(flags)]; [fuel] bounds the number of passes. *)
Fixpoint process (fuel : nat) (flags : Z) (st : t * list nat) : option (t * list nat) :=
  match queue (fst st) with
  | [] => Some st
  | _ :: _ =>
      match fuel with
      | O => None
      | S f => process f flags (flushPass flags st)
      end
  end.

(** [end(flags?)] *)
Definition end_ (fuel : nat) (flags : option Z) (st : t * list nat)
  : option (t * list nat) :=
  let flags := match flags with Some f => f | None => LifecycleFlags_none end in
  let s := setDepth (depth (fst st) - 1) (fst st) in
  if depth s =? 0 then process fuel flags (s, snd st) else Some (s, snd st).

(** [inline(fn, flags?)] *)
Definition inline (fuel : nat) (fn : t -> t) (flags : option Z) (st : t * list nat)
  : option (t * list nat) :=
  let s1 := begin (fst st) in
  let s2 := fn s1 in
  end_ fuel flags (s2, snd st).

(** [k] passes in a row. *)
Fixpoint passes (k : nat) (flags : Z) (st : t * list nat) : t * list nat :=
  match k with
  | O => st
  | S j => passes j flags (flushPass flags st)
  end.

End WithRequestors.
End BatchQueue.

(* ===================================================================== *)
(** * The undo/redo history helpers ([jump] and its companions)           *)
(* ===================================================================== *)

Module History.

(** What a function returns, or the error it throws. *)
Inductive outcome (A : Type) :=
| Returns (a : A)
| Throws (message : string).
Arguments Returns {A} _.
Arguments Throws {A} _.

(** A state object as the functions see it.  [past] and [future] are
    [None] when the field is undefined or not an array; [present] is any
    value, [VUndefined] when the field is missing. *)
Record object := {
  past : option (list val);
  present : val;
  future : option (list val);
}.

Definition isUndefined (v : val) : bool :=
  match v with VUndefined => true | _ => false end.

(** [isStateHistory(history)] *)
Definition isStateHistory (history : object) : bool :=
  (negb (isUndefined (present history))
   && match future history with Some _ => true | None => false end
   && match past history with Some _ => true | None => false end)%bool.

(** The relative index [slice] computes from an integer argument. *)
Definition relativeIndex (len i : Z) : Z :=
  if i <? 0 then Z.max (len + i) 0 else Z.min i len.

(** [l.slice(start, end)]; [end_] is [None] when the argument is omitted. *)
Definition slice (l : list val) (start : Z) (end_ : option Z) : list val :=
  let len := Z.of_nat (length l) in
  let k := relativeIndex len start in
  let e := match end_ with Some e => relativeIndex len e | None => len end in
  firstn (Z.to_nat (e - k)) (skipn (Z.to_nat k) l).

(** [l[i]] for an integer [i] *)
Definition item (l : list val) (i : Z) : val :=
  if i <? 0 then VUndefined else nth (Z.to_nat i) l VUndefined.

Definition len (l : list val) : Z := Z.of_nat (length l).

(** [jumpToFuture(state, index)] for an integer [index] *)
Definition jumpToFuture (state : object) (index : Z) : outcome object :=
  match past state, future state with
  | Some past, Some future =>
      if ((index <? 0) || (index >=? len future))%bool then Returns state
      else
        let present := present state in
        let newPast := past ++ [present] ++ slice future 0 (Some index) in
        let newPresent := item future index in
        let newFuture := slice future (index + 1) None in
        Returns {| past := Some newPast; present := newPresent; future := Some newFuture |}
  | _, _ => Throws "TypeError"
  end.

(** [jumpToPast(state, index)] for an integer [index] *)
Definition jumpToPast (state : object) (index : Z) : outcome object :=
  match past state, future state with
  | Some past, Some future =>
      if ((index <? 0) || (index >=? len past))%bool then Returns state
      else
        let present := present state in
        let newPast := slice past 0 (Some index) in
        let newFuture := slice past (index + 1) None ++ [present] ++ future in
        let newPresent := item past index in
        Returns {| past := Some newPast; present := newPresent; future := Some newFuture |}
  | _, _ => Throws "TypeError"
  end.

(** [jump(state, n)] for an integer [n] *)
Definition jump (state : object) (n : Z) : outcome object :=
  if negb (isStateHistory state)
  then Throws "Provided state is not of type StateHistory"
  else if n >? 0 then jumpToFuture state (n - 1)
  else if n <? 0 then
    match past state with
    | Some past => jumpToPast state (len past + n)
    | None => Throws "TypeError"
    end
  else Returns state.

(** [nextStateHistory(presentStateHistory, nextPresent)]; spreading a
    [past] that is undefined throws.  (A [past] that can be iterated
    without being an array, such as a string, is spread by the code; it
    is not told apart here.) *)
Definition nextStateHistory (presentStateHistory : object) (nextPresent : val)
  : outcome object :=
  match past presentStateHistory with
  | Some past =>
      Returns {| past := Some (past ++ [present presentStateHistory]);
                 present := nextPresent;
                 future := Some [] |}
  | None => Throws "TypeError"
  end.

(** [applyLimits(state, limit)] for an integer [limit] *)
Definition applyLimits (state : object) (limit : Z) : object :=
  if isStateHistory state then
    match past state, future state with
    | Some past, Some future =>
        let past' := if len past >? limit then slice past (len past - limit) None
                     else past in
        let future' := if len future >? limit then slice future 0 (Some limit)
                       else future in
        {| past := Some past'; present := present state; future := Some future' |}
    | _, _ => state
    end
  else state.

(** The states of a history in the order they were entered. *)
Definition timeline (h : object) : list val :=
  match past h, future h with
  | Some p, Some f => p ++ present h :: f
  | _, _ => []
  end.

(** A history in which no recorded state is [undefined]. *)
Definition wellFormed (h : object) : Prop :=
  isStateHistory h = true
  /\ forallb (fun v => negb (isUndefined v)) (timeline h) = true.

(** The history with the given past, present and future. *)
Definition make (p : list val) (x : val) (f : list val) : object :=
  {| past := Some p; present := x; future := Some f |}.

(** The history a, b, [c], d, e. *)
Definition sample : object :=
  make [VStr "a"; VStr "b"] (VStr "c") [VStr "d"; VStr "e"].

End History.

(** ** The history helpers for any Number argument

    [History.jump] and [History.applyLimits] take an integer; the
    functions are written for any Number, and this is how they treat one.
    On integers the two agree. *)
Module NumberHistory.
Import History.

Definition zero : Number.t := Number.Finite 0 0.
Definition one : Number.t := Number.Finite 1 0.

(** [l.length] *)
Definition length (l : list val) : Number.t := Number.ofZ (len l).

(** The relative index [slice] computes from an argument. *)
Definition relativeIndex (len : Z) (i : Number.t) : Z :=
  match Number.toIntegerOrInfinity i with
  | Number.MinusInfinity => 0
  | Number.PlusInfinity => len
  | Number.Integer r => if r <? 0 then Z.max (len + r) 0 else Z.min r len
  end.

(** [l.slice(start, end)]; [end_] is [None] when the argument is omitted. *)
Definition slice (l : list val) (start : Number.t) (end_ : option Number.t) : list val :=
  let k := relativeIndex (len l) start in
  let e := match end_ with Some e => relativeIndex (len l) e | None => len l end in
  firstn (Z.to_nat (e - k)) (skipn (Z.to_nat k) l).

(** [l[i]]: an element when [i] is an integer from 0 on, and [undefined]
    for every other Number. *)
Definition item (l : list val) (i : Number.t) : val :=
  match Number.toInteger i with
  | Some z => if z <? 0 then VUndefined else nth (Z.to_nat z) l VUndefined
  | None => VUndefined
  end.

(** [jumpToFuture(state, index)]; reading [length] of, or spreading, a
    field that is undefined throws. *)
Definition jumpToFuture (state : object) (index : Number.t) : outcome object :=
  if Number.ltb index zero then Returns state
  else
    match future state with
    | None => Throws "TypeError"
    | Some future =>
        if Number.geb index (length future) then Returns state
        else
          match past state with
          | None => Throws "TypeError"
          | Some past =>
              let present := present state in
              let newPast := past ++ [present] ++ slice future zero (Some index) in
              let newPresent := item future index in
              let newFuture := slice future (Number.add index one) None in
              Returns {| past := Some newPast; present := newPresent;
                         future := Some newFuture |}
          end
    end.

(** [jumpToPast(state, index)] *)
Definition jumpToPast (state : object) (index : Number.t) : outcome object :=
  if Number.ltb index zero then Returns state
  else
    match past state with
    | None => Throws "TypeError"
    | Some past =>
        if Number.geb index (length past) then Returns state
        else
          match future state with
          | None => Throws "TypeError"
          | Some future =>
              let present := present state in
              let newPast := slice past zero (Some index) in
              let newFuture :=
                slice past (Number.add index one) None ++ [present] ++ future in
              let newPresent := item past index in
              Returns {| past := Some newPast; present := newPresent;
                         future := Some newFuture |}
          end
    end.

(** [jump(state, n)] *)
Definition jump (state : object) (n : Number.t) : outcome object :=
  if negb (isStateHistory state)
  then Throws "Provided state is not of type StateHistory"
  else if Number.gtb n zero then jumpToFuture state (Number.sub n one)
  else if Number.ltb n zero then
    match past state with
    | Some past => jumpToPast state (Number.add (length past) n)
    | None => Throws "TypeError"
    end
  else Returns state.

(** [applyLimits(state, limit)] *)
Definition applyLimits (state : object) (limit : Number.t) : object :=
  if isStateHistory state then
    match past state, future state with
    | Some past, Some future =>
        let past' := if Number.gtb (length past) limit
                     then slice past (Number.sub (length past) limit) None
                     else past in
        let future' := if Number.gtb (length future) limit
                       then slice future zero (Some limit)
                       else future in
        {| past := Some past'; present := present state; future := Some future' |}
    | _, _ => state
    end
  else state.

(** Both arrays of the history are shorter than [2^32], as every array
    is. *)
Definition arrays (h : object) : Prop :=
  match past h, future h with
  | Some p, Some f => len p < 2 ^ 32 /\ len f < 2 ^ 32
  | _, _ => True
  end.

End NumberHistory.

(* ===================================================================== *)
(** * The router's hook manager                                           *)
(* ===================================================================== *)

Module HookManager.

Inductive HookTypes :=
| BeforeNavigation
| TransformFromUrl
| TransformToUrl
| SetTitle.

Section WithHook.

(** The [Hook] class is declared outside these sources.  A hook is taken
    as the manager sees it: built by [new Hook(hookFunction, options, id)]
    and read through its [id] and [type]. *)
Variables (HookFunction Options Hook : Type).
Variable newHook : HookFunction -> Options -> Z -> Hook.
Variable hookId : Hook -> Z.
Variable hookType : Hook -> HookTypes.
(** The empty options object [{}]. *)
Variable noOptions : Options.

Record t := {
  beforeNavigation : list Hook;
  transformFromUrl : list Hook;
  transformToUrl : list Hook;
  setTitle : list Hook;
  lastIdentity : Z;
}.

(** [new HookManager()] *)
Definition create : t :=
  {| beforeNavigation := []; transformFromUrl := []; transformToUrl := [];
     setTitle := []; lastIdentity := 0 |}.

(** [this.hooks[type]] *)
Definition hooks (m : t) (type : HookTypes) : list Hook :=
  match type with
  | BeforeNavigation => beforeNavigation m
  | TransformFromUrl => transformFromUrl m
  | TransformToUrl => transformToUrl m
  | SetTitle => setTitle m
  end.

(** [this.hooks[type].push(hook)] *)
Definition push (type : HookTypes) (hook : Hook) (m : t) : t :=
  match type with
  | BeforeNavigation =>
      {| beforeNavigation := beforeNavigation m ++ [hook];
         transformFromUrl := transformFromUrl m; transformToUrl := transformToUrl m;
         setTitle := setTitle m; lastIdentity := lastIdentity m |}
  | TransformFromUrl =>
      {| beforeNavigation := beforeNavigation m;
         transformFromUrl := transformFromUrl m ++ [hook];
         transformToUrl := transformToUrl m;
         setTitle := setTitle m; lastIdentity := lastIdentity m |}
  | TransformToUrl =>
      {| beforeNavigation := beforeNavigation m; transformFromUrl := transformFromUrl m;
         transformToUrl := transformToUrl m ++ [hook];
         setTitle := setTitle m; lastIdentity := lastIdentity m |}
  | SetTitle =>
      {| beforeNavigation := beforeNavigation m; transformFromUrl := transformFromUrl m;
         transformToUrl := transformToUrl m;
         setTitle := setTitle m ++ [hook]; lastIdentity := lastIdentity m |}
  end.

(** [addHook(hookFunction, options?)]: the manager afterwards and the
    identity returned.  ([++] on a number is exact below 2^53.) *)
Definition addHook (hookFunction : HookFunction) (options : option Options) (m : t)
  : t * Z :=
  let identity := lastIdentity m + 1 in
  let m1 := {| beforeNavigation := beforeNavigation m;
               transformFromUrl := transformFromUrl m;
               transformToUrl := transformToUrl m;
               setTitle := setTitle m; lastIdentity := identity |} in
  let hook := newHook hookFunction
                (match options with Some o => o | None => noOptions end) identity in
  (push (hookType hook) hook m1, identity).

(** [l.findIndex(hook => hook.id === id)] followed by [l.splice(index, 1)]
    when an index is found. *)
Fixpoint spliceFirst (id : Z) (l : list Hook) : list Hook :=
  match l with
  | [] => []
  | hook :: rest => if hookId hook =? id then rest else hook :: spliceFirst id rest
  end.

(** [removeHook(id)] *)
Definition removeHook (id : Z) (m : t) : t :=
  {| beforeNavigation := spliceFirst id (beforeNavigation m);
     transformFromUrl := spliceFirst id (transformFromUrl m);
     transformToUrl := spliceFirst id (transformToUrl m);
     setTitle := spliceFirst id (setTitle m);
     lastIdentity := lastIdentity m |}.

(** Every hook of the manager, type by type. *)
Definition allHooks (m : t) : list Hook :=
  beforeNavigation m ++ transformFromUrl m ++ transformToUrl m ++ setTitle m.

(** The identities in use are below or at [lastIdentity]. *)
Definition identitiesBounded (m : t) : Prop :=
  Forall (fun hook => hookId hook <= lastIdentity m) (allHooks m).

End WithHook.
End HookManager.

(* ===================================================================== *)
(** * The TypeScript syntax helpers of the AOT plugin                     *)
(* ===================================================================== *)

(** The part of the TypeScript compiler's syntax tree that the helpers
    inspect.  The type guards [ts.isIdentifier], [ts.isCallExpression],
    [ts.isObjectLiteralExpression], [ts.isPropertyAccessExpression],
    [ts.isPropertyAssignment], [ts.isPropertyDeclaration] and
    [ts.isClassDeclaration] are matches on the constructors. *)
Module Ts.

Record Identifier := { escapedText : string; text : string }.

Inductive PropertyName :=
| NameIdentifier (id : Identifier)
| NameOther.

#[local] Set Warnings "-register-all".
Inductive Expression :=
| Ident (id : Identifier)
| CallExpression (expression : Expression) (arguments : option (list Expression))
| ObjectLiteralExpression (properties : option (list ObjectLiteralElement))
| PropertyAccessExpression (expression : Expression) (name : Identifier)
(** any other node, with its [text] property when it has one *)
| OtherExpression (text : option string)
with ObjectLiteralElement :=
| PropertyAssignment (name : PropertyName) (initializer : Expression)
| OtherElement.
#[local] Set Warnings "register-all".

Record Decorator := { expression : Expression }.

Inductive ClassElement :=
| PropertyDeclaration (decorators : option (list Decorator))
| OtherMember.

(** A class declaration; a default export may have no name. *)
Record ClassDeclaration := { name : option Identifier }.

Record Modifier := { kind : Z }.

(** [ts.ClassDeclaration | ts.Identifier | string] *)
Inductive NameLike :=
| OfString (s : string)
| OfIdentifier (id : Identifier)
| OfClass (c : ClassDeclaration).

End Ts.

(** The enum [bindingMode] of [./interfaces], declared outside these
    sources, with the members the helpers name. *)
Inductive bindingMode := oneTime | toView | twoWay | fromView.

Definition resolveBindingMode (mode : string) : option bindingMode :=
  if String.eqb mode "oneTime" then Some oneTime
  else if (String.eqb mode "toView" || String.eqb mode "oneTway")%bool then Some toView
  else if String.eqb mode "twoWay" then Some twoWay
  else if String.eqb mode "fromView" then Some fromView
  else None.

(** The loop of [getObjectPropertyValue] over the properties. *)
Fixpoint findPropertyValue (properties : list Ts.ObjectLiteralElement) (name : string)
  : option Ts.Expression :=
  match properties with
  | [] => None
  | prop :: rest =>
      match prop with
      | Ts.PropertyAssignment (Ts.NameIdentifier propName) initializer =>
          if String.eqb (Ts.escapedText propName) name then Some initializer
          else findPropertyValue rest name
      | _ => findPropertyValue rest name
      end
  end.

(** [getObjectPropertyValue(obj, name)], on the [properties] of [obj];
    [None] is [undefined]. *)
Definition getObjectPropertyValue (properties : option (list Ts.ObjectLiteralElement))
    (name : string) : option Ts.Expression :=
  match properties with
  | None | Some [] => None
  | Some properties => findPropertyValue properties name
  end.

(** [getBindableDecoratorBindingMode(dec)]: the lines written to the
    console and the value returned. *)
Definition getBindableDecoratorBindingMode (dec : Ts.Decorator)
  : list string * option bindingMode :=
  match Ts.expression dec with
  | Ts.CallExpression _ args =>
      match args with
      | None | Some [] => ([], None)
      | Some (config :: more) =>
          let console :=
            if (1 <? length (config :: more))%nat
            then ["@bindable() used with more than 1 parameter."] else [] in
          match config with
          | Ts.ObjectLiteralExpression properties =>
              match getObjectPropertyValue properties "defaultBindingMode" with
              | None => (console, None)
              | Some (Ts.PropertyAccessExpression (Ts.Ident accessed) name) =>
                  if negb (String.eqb (Ts.escapedText accessed) "bindingMode")
                  then (console, None)
                  else (console, resolveBindingMode (Ts.escapedText name))
              | Some _ => (console, None)
              end
          | _ => (console, None)
          end
      end
  | _ => ([], None)
  end.

(** The predicate [getBindableDecorator] hands to [find]. *)
Definition isBindable (dec : Ts.Decorator) : bool :=
  match Ts.expression dec with
  | Ts.CallExpression (Ts.Ident innerExpression) _ =>
      String.eqb (Ts.escapedText innerExpression) "bindable"
  | Ts.CallExpression _ _ => false
  | Ts.Ident id => String.eqb (Ts.escapedText id) "bindable"
  | _ => false
  end.

(** [getBindableDecorator(prop)], on the [decorators] of [prop]; [None]
    is [null]. *)
Definition getBindableDecorator (decorators : option (list Ts.Decorator))
  : option Ts.Decorator :=
  match decorators with
  | None => None
  | Some decorators => List.find isBindable decorators
  end.

(** [getBindableMode(classMember)] *)
Definition getBindableMode (classMember : Ts.ClassElement)
  : list string * option bindingMode :=
  match classMember with
  | Ts.PropertyDeclaration decorators =>
      match getBindableDecorator decorators with
      | None => ([], None)
      | Some bindableDecorator => getBindableDecoratorBindingMode bindableDecorator
      end
  | Ts.OtherMember => ([], None)
  end.

(** [(decorator.expression as ts.Identifier).text] *)
Definition textOf (e : Ts.Expression) : option string :=
  match e with
  | Ts.Ident id => Some (Ts.text id)
  | Ts.OtherExpression text => text
  | _ => None
  end.

(** [hasBindableDecorator(member)] *)
Definition hasBindableDecorator (member : Ts.ClassElement) : bool :=
  match member with
  | Ts.PropertyDeclaration None => false
  | Ts.PropertyDeclaration (Some decorators) =>
      existsb (fun decorator =>
                 match textOf (Ts.expression decorator) with
                 | Some t => String.eqb t "bindable"
                 | None => false
                 end) decorators
  | Ts.OtherMember => false
  end.

(** [s.replace(/suffix$/, '')] for a literal [suffix]: the one place
    where the pattern can match is where the rest of [s] is [suffix]. *)
Fixpoint replaceAtEnd (suffix s : string) : string :=
  if String.eqb s suffix then EmptyString
  else match s with
       | EmptyString => EmptyString
       | String c rest => String c (replaceAtEnd suffix rest)
       end.

(** [normalizeElementClassName(name)]; [None] is the [TypeError] of
    reading [escapedText] of a class declaration without a name. *)
Definition normalizeElementClassName (name : Ts.NameLike) : option string :=
  let name :=
    match name with
    | Ts.OfString s => Some s
    | Ts.OfClass c => Ts.escapedText <$> Ts.name c
    | Ts.OfIdentifier id => Some (Ts.escapedText id)
    end in
  replaceAtEnd "CustomElement" <$> name.

(** [getElementViewName(name)] *)
Definition getElementViewName (name : Ts.NameLike) : option string :=
  (fun n => "$" +:+ n +:+ "View") <$> normalizeElementClassName name.

(** [getPrivateClassName(name)] *)
Definition getPrivateClassName (name : Ts.NameLike) : option string :=
  (fun n => "$" +:+ n) <$>
    match name with
    | Ts.OfString s => Some s
    | Ts.OfIdentifier id => Some (Ts.escapedText id)
    | Ts.OfClass c => Ts.escapedText <$> Ts.name c
    end.

(** [l.findIndex(p)]; [None] is [-1]. *)
Fixpoint findIndex {A : Type} (p : A -> bool) (l : list A) : option nat :=
  match l with
  | [] => None
  | x :: rest => if p x then Some 0%nat else S <$> findIndex p rest
  end.

(** [removeExport(modifiers)] for the kind [ExportKeyword] of
    [ts.SyntaxKind]; [None] is a missing modifier array. *)
Definition removeExport (ExportKeyword : Z) (modifiers : option (list Ts.Modifier))
  : option (list Ts.Modifier) :=
  match modifiers with
  | None => None
  | Some modifiers =>
      match findIndex (fun m => Ts.kind m =? ExportKeyword) modifiers with
      | Some idx => Some (take idx modifiers ++ drop (S idx) modifiers)
      | None => Some modifiers
      end
  end.

(* ===================================================================== *)
(** * Definitions used to state the properties                            *)
(* ===================================================================== *)

(** [v0 + S1 + v1 + ... + Sk], the part of the rendering after [S0]. *)
Fixpoint dynamicTail (values : list val) (statics : list string) : string :=
  match values, statics with
  | v :: vs, s :: ss => to_string v +:+ s +:+ dynamicTail vs ss
  | _, _ => ""
  end.

(** The rendering as the specification words it:
    [S0 + v0 + S1 + v1 + ... + Sk]. *)
Definition concatenation (statics : list string) (values : list val) : string :=
  match statics with
  | s0 :: ss => s0 +:+ dynamicTail values ss
  | [] => ""
  end.

(** The handle a binding holds was issued by the queue of its world. *)
Definition handleIssued {W : Type} (tk : option nat) (q : TaskQueue.t W) : Prop :=
  match tk with
  | Some h => (h < length q)%nat
  | None => True
  end.

(** The discipline of the specification: the pending tasks of the queue
    are the one the binding holds the handle of, if any. *)
Definition onePending {W : Type} (tk : option nat) (q : TaskQueue.t W) : Prop :=
  TaskQueue.pendingHandles q = match tk with Some h => [h] | None => [] end.

(** What can happen to an interpolation binding between its creation and
    a later moment. *)
Inductive Op :=
| OpBind (flags : Z) (s : Scope) (hs : option Scope)
| OpUnbind (flags : Z)
| OpPartChange (i : nat) (newValue oldValue : val) (flags : Z)
| OpPartCollectionChange (i : nat) (flags : Z)
| OpHeap (h : Heap)     (* the application changes its state *)
| OpFlush.              (* the task queue flushes *)

Definition exec `{Enums} (op : Op) (w : InterpolationBinding.W) : InterpolationBinding.W :=
  match op with
  | OpBind flags s hs => InterpolationBinding.bind flags s hs w
  | OpUnbind flags => InterpolationBinding.unbind flags w
  | OpPartChange i nv ov flags => InterpolationBinding.partHandleChange i nv ov flags w
  | OpPartCollectionChange i flags => InterpolationBinding.partHandleCollectionChange i flags w
  | OpHeap h => setHeap h w
  | OpFlush => flush InterpolationBinding.run w
  end.

(** One assignment of the enum members, for concrete runs. *)
Definition sampleEnums : Enums :=
  {| LifecycleFlags_none := 0;
     LifecycleFlags_fromBind := 2;
     AccessorType_Layout := 64;
     BindingMode_oneTime := 1;
     BindingMode_toView := 2;
     ExpressionKind_AccessScope := 10082 |}.

(** A heap in which every scope has the properties [a] and [b]. *)
Definition sampleHeap (a b : val) : Heap :=
  fun _ name =>
    if String.eqb name "a" then a
    else if String.eqb name "b" then b
    else VUndefined.

(** The expression [name]: a bare property access on the scope's binding
    context. *)
Definition accessScope (name : string) : Expression :=
  {| kind := 10082;
     hasBind := false;
     hasUnbind := false;
     evaluate := fun _ s _ _ h => match s with Some r => h r name | None => VUndefined end;
     reads := fun _ s _ _ _ => match s with Some r => [PropertyOf r name] | None => [] end |}.

(** An expression of another kind that reads the same property, such as
    [name | converter]. *)
Definition converted (name : string) : Expression :=
  {| kind := 0;
     hasBind := false;
     hasUnbind := false;
     evaluate := fun _ s _ _ h => match s with Some r => h r name | None => VUndefined end;
     reads := fun _ s _ _ _ => match s with Some r => [PropertyOf r name] | None => [] end |}.

(** The interpolation ["${a} and ${b}"] on a target whose accessor has
    the given type, before it is bound. *)
Definition sampleInterpolation (type mode : Z) : InterpolationBinding.t :=
  {| InterpolationBinding.isBound := false;
     InterpolationBinding.scope := None;
     InterpolationBinding.partBindings :=
       [@ContentBinding.create sampleEnums (accessScope "a") 0%nat;
        @ContentBinding.create sampleEnums (accessScope "b") 0%nat];
     InterpolationBinding.staticParts := [""; " and "; ""]%string;
     InterpolationBinding.targetObserverType := type;
     InterpolationBinding.task := None;
     InterpolationBinding.mode := mode |}.

Definition sampleWorld (type mode : Z) (a b : val) : InterpolationBinding.W :=
  {| heap := sampleHeap a b;
     binding := sampleInterpolation type mode;
     queue := [];
     log := [] |}.

(** The same world once bound to scope 1 by a controller, which passes
    [fromBind]. *)
Definition boundWorld (type mode : Z) (a b : val) : InterpolationBinding.W :=
  @InterpolationBinding.bind sampleEnums 2 1%nat None (sampleWorld type mode a b).

(** An expression such as [name.join()]: it yields the string of the
    array held by the property [name], and reads both the property and
    the array. *)
Definition joined (name : string) : Expression :=
  {| kind := 0;
     hasBind := false;
     hasUnbind := false;
     evaluate := fun _ s _ _ h =>
                   match s with
                   | Some r => VStr (to_string (h r name))
                   | None => VUndefined
                   end;
     reads := fun _ s _ _ h =>
                match s with
                | Some r =>
                    PropertyOf r name
                    :: match h r name with
                       | VObj _ ref _ => [CollectionOf ref]
                       | _ => []
                       end
                | None => []
                end |}.

(** A text binding for expression [e] with the given mode, unbound. *)
Definition sampleText (e : Expression) (mode : Z) : ContentBinding2.t :=
  {| ContentBinding2.sourceExpression := e;
     ContentBinding2.locator := 0%nat;
     ContentBinding2.mode := mode;
     ContentBinding2.value := VStr "";
     ContentBinding2.scope := None;
     ContentBinding2.hostScope := None;
     ContentBinding2.task := None;
     ContentBinding2.isBound := false;
     ContentBinding2.obs := Connectable.empty |}.

(** The text binding once bound to scope 1, with [fromBind], in a heap
    where [a] holds the given value. *)
Definition boundText (e : Expression) (mode : Z) (a : val) : ContentBinding2.W :=
  @ContentBinding2.bind sampleEnums 2 1%nat None
    {| heap := sampleHeap a VUndefined; binding := sampleText e mode;
       queue := []; log := [] |}.

(** An interpolation part for expression [e] with the given mode, once
    bound to scope 1. *)
Definition boundPart (e : Expression) (mode : Z) (a : val) : ContentBinding.t :=
  fst (@ContentBinding.bind sampleEnums 2 1%nat None (sampleHeap a VUndefined)
         {| ContentBinding.sourceExpression := e;
            ContentBinding.locator := 0%nat;
            ContentBinding.mode := mode;
            ContentBinding.value := VStr "";
            ContentBinding.scope := None;
            ContentBinding.hostScope := None;
            ContentBinding.task := None;
            ContentBinding.isBound := false;
            ContentBinding.obs := Connectable.empty |}).

(** A property that [getObjectPropertyValue] passes over. *)
Definition passedOver (name : string) (prop : Ts.ObjectLiteralElement) : Prop :=
  match prop with
  | Ts.PropertyAssignment (Ts.NameIdentifier propName) _ => Ts.escapedText propName <> name
  | _ => True
  end.

(** The name that the class-name helpers read from their argument. *)
Definition spelled (name : Ts.NameLike) : option string :=
  match name with
  | Ts.OfString s => Some s
  | Ts.OfIdentifier id => Some (Ts.escapedText id)
  | Ts.OfClass c => Ts.escapedText <$> Ts.name c
  end.

(** The events [$bind] and [$unbind] raise on the expressions. *)
Definition isHook (flags : Z) (s : Scope) (hs : option Scope) (e : Event) : Prop :=
  e = ExprBind flags s hs \/ exists sc hs0, e = ExprUnbind flags sc hs0.

(** The heap after the assignment [ref[name] = v]. *)
Definition assign (ref : nat) (name : string) (v : val) (h : Heap) : Heap :=
  fun r k => if (Nat.eqb r ref && String.eqb k name)%bool then v else h r k.

(* ===================================================================== *)
(** * Properties                                                          *)
(* ===================================================================== *)

(** ** Controller state flags *)

Lemma toInt32_small (z : Z) : - 2 ^ 31 <= z < 2 ^ 31 -> toInt32 z = z.
Proof.
  intros Hz. unfold toInt32.
  rewrite Z.mod_small by lia. lia.
Qed.

Lemma land_covers (x a b : Z) :
  Z.land x (Z.lor a b) = Z.lor a b <-> Z.land x a = a /\ Z.land x b = b.
Proof.
  split.
  - intros Hx.
    assert (Hbit : forall n, (Z.testbit x n && (Z.testbit a n || Z.testbit b n))%bool
                             = (Z.testbit a n || Z.testbit b n)%bool).
    { intros n. rewrite <- Z.lor_spec, <- Z.land_spec, Hx. reflexivity. }
    split; apply Z.bits_inj'; intros n _; rewrite Z.land_spec; specialize (Hbit n);
      destruct (Z.testbit x n), (Z.testbit a n), (Z.testbit b n);
      cbn in *; congruence.
  - intros [Ha Hb]. rewrite Z.land_lor_distr_r, Ha, Hb. reflexivity.
Qed.

Lemma hasFlag_union (st a b : Z) :
  - 2 ^ 31 <= a < 2 ^ 31 -> - 2 ^ 31 <= b < 2 ^ 31 ->
  - 2 ^ 31 <= Z.lor a b < 2 ^ 31 ->
  hasFlag st (Z.lor a b) = true <-> hasFlag st a = true /\ hasFlag st b = true.
Proof.
  intros Ha Hb Hab. unfold hasFlag, band.
  rewrite !Z.eqb_eq, (toInt32_small a), (toInt32_small b), (toInt32_small (Z.lor a b))
    by assumption.
  apply land_covers.
Qed.

Ltac int32_range := split; [apply Z.leb_le | apply Z.ltb_lt]; reflexivity.

Lemma hasFlag_three (st a b c : Z) :
  - 2 ^ 31 <= a < 2 ^ 31 -> - 2 ^ 31 <= b < 2 ^ 31 -> - 2 ^ 31 <= c < 2 ^ 31 ->
  - 2 ^ 31 <= Z.lor b c < 2 ^ 31 ->
  - 2 ^ 31 <= Z.lor a (Z.lor b c) < 2 ^ 31 ->
  hasFlag st (Z.lor a (Z.lor b c)) = true <->
  hasFlag st a = true /\ hasFlag st b = true /\ hasFlag st c = true.
Proof.
  intros Ha Hb Hc Hbc Habc.
  rewrite hasFlag_union, (hasFlag_union st b c) by assumption.
  reflexivity.
Qed.

(** C3, as the code has it.  [State.activated] (0b1110) is the union of
    [beforeBindCalled], [activateChildrenCalled] and the further bit
    0b1000, and does not contain [activating]; a state passes the
    [activated] test of [stringifyState] exactly when those three bits are
    set.  The state made of [activating], [beforeBindCalled] and
    [activateChildrenCalled] alone is printed with its three names, not as
    activated.  The same holds of [State.deactivated] (0b1110_0000) with
    [beforeDetachCalled], [deactivateChildrenCalled] and bit 0b1000_0000. *)
Theorem State_activated_mask :
  State.activated
    = Z.lor State.beforeBindCalled (Z.lor State.activateChildrenCalled 8)
  /\ Z.land State.activated State.activating = 0
  /\ (forall st,
        hasFlag st State.activated = true <->
        hasFlag st State.beforeBindCalled = true
        /\ hasFlag st State.activateChildrenCalled = true
        /\ hasFlag st 8 = true)
  /\ stringifyState
       (Z.lor State.activating
          (Z.lor State.beforeBindCalled State.activateChildrenCalled))
     = "activating|beforeBindCalled|activateChildrenCalled"%string
  /\ State.deactivated
     = Z.lor State.beforeDetachCalled (Z.lor State.deactivateChildrenCalled 128)
  /\ Z.land State.deactivated State.deactivating = 0
  /\ (forall st,
        hasFlag st State.deactivated = true <->
        hasFlag st State.beforeDetachCalled = true
        /\ hasFlag st State.deactivateChildrenCalled = true
        /\ hasFlag st 128 = true)
  /\ stringifyState
       (Z.lor State.deactivating
          (Z.lor State.beforeDetachCalled State.deactivateChildrenCalled))
     = "deactivating|beforeDetachCalled|deactivateChildrenCalled"%string.
Proof.
  split_and!; try reflexivity.
  - intros st. apply (hasFlag_three st 2 4 8); int32_range.
  - intros st. apply (hasFlag_three st 32 64 128); int32_range.
Qed.

(** C3, as the specification words it, fails: the state in which exactly
    [activating], [beforeBindCalled] and [activateChildrenCalled] are set
    does not pass the [activated] test, [State.activated] is not the union
    of the three flags, and likewise on the deactivation side. *)
Lemma State_three_flags_not_activated :
  hasFlag (Z.lor State.activating
             (Z.lor State.beforeBindCalled State.activateChildrenCalled))
    State.activated = false
  /\ State.activated
     <> Z.lor State.activating
          (Z.lor State.beforeBindCalled State.activateChildrenCalled)
  /\ hasFlag (Z.lor State.deactivating
                (Z.lor State.beforeDetachCalled State.deactivateChildrenCalled))
       State.deactivated = false.
Proof. repeat split; try reflexivity. discriminate. Qed.

(** ** BindingTargetSubscriber *)

Lemma app_singleton_neq {A} (l : list A) (x : A) : l ++ [x] <> l.
Proof.
  intros Heq. apply (f_equal (@length A)) in Heq.
  rewrite length_app in Heq. cbn in Heq. lia.
Qed.

(** C10.  On a notification from the target observer, [updateSource] is
    called, with the notified value and flags, exactly when the value is
    not strictly equal to what the source expression evaluates to at that
    moment; when they are strictly equal nothing changes. *)
Theorem BindingTargetSubscriber_handleChange_spec
    (b : BindingTargetSubscriber.ITwoWayBindingImpl) (value old : val) (flags : Z)
    (s : BindingTargetSubscriber.state) :
  let current :=
    evaluate (BindingTargetSubscriber.sourceExpression b) flags
      (BindingTargetSubscriber.scope b) (BindingTargetSubscriber.hostScope b)
      (BindingTargetSubscriber.locator b) (BindingTargetSubscriber.heap s) in
  let s' := BindingTargetSubscriber.handleChange b value old flags s in
  (BindingTargetSubscriber.calls s'
     = BindingTargetSubscriber.calls s ++ [UpdateSource value flags]
   <-> strict_eq value current = false)
  /\ (strict_eq value current = false ->
      BindingTargetSubscriber.heap s'
        = BindingTargetSubscriber.updateSource b value flags
            (BindingTargetSubscriber.heap s))
  /\ (strict_eq value current = true -> s' = s).
Proof.
  cbn zeta. unfold BindingTargetSubscriber.handleChange.
  destruct (strict_eq value _) eqn:Heq; cbn.
  - split_and!; [| discriminate | reflexivity].
    split; [| discriminate].
    intros Hc. symmetry in Hc. apply app_singleton_neq in Hc. contradiction.
  - split_and!; [| reflexivity | discriminate].
    split; reflexivity.
Qed.

(** ** BatchQueue *)

Section BatchQueueProperties.
Context `{Enums}.
Context {Env : Type} (flushBatch : nat -> Z -> BatchQueue.t Env -> BatchQueue.t Env).

Local Abbreviation t := (BatchQueue.t Env).
Local Abbreviation flushPass := (BatchQueue.flushPass Env flushBatch).
Local Abbreviation process := (BatchQueue.process Env flushBatch).
Local Abbreviation passes := (BatchQueue.passes Env flushBatch).
Local Abbreviation end_ := (BatchQueue.end_ Env flushBatch).
Local Abbreviation inline := (BatchQueue.inline Env flushBatch).
Local Abbreviation queue := (BatchQueue.queue Env).
Local Abbreviation depth := (BatchQueue.depth Env).

(** The entries flushed by a pass are the snapshot taken at its start,
    whatever the callbacks do to the queue meanwhile. *)
Lemma flushPass_invokes_snapshot (flags : Z) (st : t * list nat) :
  snd (flushPass flags st) = snd st ++ queue (fst st).
Proof.
  unfold BatchQueue.flushPass.
  generalize (BatchQueue.setQueue Env [] (fst st)) as s0.
  generalize (snd st) as lg.
  induction (queue (fst st)) as [| r rest IH]; intros lg s0; cbn.
  - rewrite app_nil_r. reflexivity.
  - rewrite IH. cbn. rewrite <- app_assoc. reflexivity.
Qed.

Lemma process_empty (fuel : nat) (flags : Z) (st : t * list nat) :
  queue (fst st) = [] -> process fuel flags st = Some st.
Proof. intros Hq. destruct fuel; cbn; rewrite Hq; reflexivity. Qed.

Lemma process_step (fuel : nat) (flags : Z) (st : t * list nat) :
  queue (fst st) <> [] ->
  process (S fuel) flags st = process fuel flags (flushPass flags st).
Proof. intros Hq. cbn. destruct (queue (fst st)); [contradiction | reflexivity]. Qed.

Lemma process_out_of_fuel (flags : Z) (st : t * list nat) :
  queue (fst st) <> [] -> process 0 flags st = None.
Proof. intros Hq. cbn. destruct (queue (fst st)); [contradiction | reflexivity]. Qed.

(** The loop returns after [k] passes when the [k]-th pass is the first
    to leave the queue empty, and only then. *)
Lemma process_returns_iff (fuel : nat) (flags : Z) (st r : t * list nat) :
  process fuel flags st = Some r <->
  exists k, (k <= fuel)%nat
            /\ queue (fst (passes k flags st)) = []
            /\ (forall j, (j < k)%nat -> queue (fst (passes j flags st)) <> [])
            /\ r = passes k flags st.
Proof.
  split.
  - revert st. induction fuel as [| fuel IH]; intros st Hp.
    + destruct (queue (fst st)) eqn:Hq.
      * rewrite process_empty in Hp by assumption. injection Hp as <-.
        exists 0%nat. split_and!; [lia | assumption | lia | reflexivity].
      * rewrite process_out_of_fuel in Hp by congruence. discriminate.
    + destruct (queue (fst st)) eqn:Hq.
      * rewrite process_empty in Hp by assumption. injection Hp as <-.
        exists 0%nat. split_and!; [lia | assumption | lia | reflexivity].
      * rewrite process_step in Hp by congruence.
        destruct (IH _ Hp) as (k & Hk & Hempty & Hbefore & ->).
        exists (S k). split_and!; [lia | assumption | | reflexivity].
        intros [| j] Hj; cbn; [congruence |]. apply Hbefore. lia.
  - intros (k & Hk & Hempty & Hbefore & ->).
    revert fuel st Hk Hempty Hbefore.
    induction k as [| k IH]; intros fuel st Hk Hempty Hbefore.
    + apply process_empty. exact Hempty.
    + destruct fuel as [| fuel]; [lia |].
      rewrite process_step by (apply (Hbefore 0%nat); lia).
      cbn. apply IH; [lia | exact Hempty |].
      intros j Hj. apply (Hbefore (S j)). lia.
Qed.

(** Requestors that only [add] to the queue when flushed: the queue a
    pass leaves behind is what its callbacks added, in order. *)
Lemma flushPass_collects_added (adds : nat -> Z -> list nat) (flags : Z)
    (st : t * list nat) :
  (forall r f s, flushBatch r f s
                 = fold_left (fun acc x => BatchQueue.add Env x acc) (adds r f) s) ->
  queue (fst (flushPass flags st))
  = flat_map (fun r => adds r flags) (queue (fst st)).
Proof.
  intros Hadd. unfold BatchQueue.flushPass.
  assert (Hfold : forall l s, queue (fold_left (fun acc x => BatchQueue.add Env x acc) l s)
                              = queue s ++ l).
  { induction l as [| x l IHl]; intros s; cbn.
    - rewrite app_nil_r. reflexivity.
    - rewrite IHl. cbn. rewrite <- app_assoc. reflexivity. }
  assert (Hgen : forall batch s lg,
             queue (fst (fold_left
                           (fun acc r => (flushBatch r flags (fst acc), snd acc ++ [r]))
                           batch (s, lg)))
             = queue s ++ flat_map (fun r => adds r flags) batch).
  { induction batch as [| r rest IH]; intros s lg; cbn.
    - rewrite app_nil_r. reflexivity.
    - rewrite IH, Hadd, Hfold, <- app_assoc. reflexivity. }
  rewrite Hgen. reflexivity.
Qed.


End BatchQueueProperties.

(** ** Strings and [+] *)

Lemma append_assoc (a b c : string) : (a +:+ b) +:+ c = a +:+ b +:+ c.
Proof.
  induction a as [| ch a IH]; [reflexivity |].
  change (String ch ((a +:+ b) +:+ c) = String ch (a +:+ b +:+ c)).
  rewrite IH. reflexivity.
Qed.

Lemma append_nil_r (a : string) : a +:+ "" = a.
Proof.
  induction a as [| ch a IH]; [reflexivity |].
  change (String ch (a +:+ "") = String ch a).
  rewrite IH. reflexivity.
Qed.

Lemma add_str_l (a : string) (v : val) : JS.add (VStr a) v = VStr (a +:+ to_string v).
Proof. destruct v as [| | [] | | |]; reflexivity. Qed.

Lemma add_str_r (v : val) (a : string) : JS.add v (VStr a) = VStr (to_string v +:+ a).
Proof. destruct v as [| | [] | | |]; reflexivity. Qed.

(** ** Task queue *)

Section TaskQueueFacts.
Context {W : Type}.
Implicit Types (q : TaskQueue.t W) (tk : TaskQueue.Task W) (h : nat).

Lemma queueTask_handle (wk : W) opts q :
  fst (TaskQueue.queueTask wk opts q) = length q.
Proof. reflexivity. Qed.

Lemma queueTask_lookup_new (wk : W) opts q :
  snd (TaskQueue.queueTask wk opts q) !! length q
  = Some {| TaskQueue.status := TaskQueue.pending; TaskQueue.options := opts;
            TaskQueue.work := wk |}.
Proof.
  unfold TaskQueue.queueTask. cbn [snd].
  rewrite lookup_app_r by lia. rewrite Nat.sub_diag. reflexivity.
Qed.

Lemma queueTask_lookup_old (wk : W) opts q h :
  (h < length q)%nat -> snd (TaskQueue.queueTask wk opts q) !! h = q !! h.
Proof. intros Hh. unfold TaskQueue.queueTask. cbn [snd]. apply lookup_app_l. exact Hh. Qed.

Lemma cancel_length h q : length (TaskQueue.cancel h q) = length q.
Proof.
  unfold TaskQueue.cancel. destruct (q !! h) as [tk |]; [| reflexivity].
  destruct (TaskQueue.isPending tk); [apply length_insert | reflexivity].
Qed.

Lemma cancel_lookup_ne h h' q : h <> h' -> TaskQueue.cancel h q !! h' = q !! h'.
Proof.
  intros Hne. unfold TaskQueue.cancel. destruct (q !! h) as [tk |]; [| reflexivity].
  destruct (TaskQueue.isPending tk); [| reflexivity].
  apply list_lookup_insert_ne. exact Hne.
Qed.

Lemma cancel_lookup_eq h q tk :
  q !! h = Some tk -> TaskQueue.isPending tk = true ->
  TaskQueue.cancel h q !! h = Some (TaskQueue.setStatus TaskQueue.canceled tk).
Proof.
  intros Hl Hp. unfold TaskQueue.cancel. rewrite Hl, Hp.
  apply list_lookup_insert_eq. eapply lookup_lt_Some. exact Hl.
Qed.

Lemma filter_both {A} (f g : A -> bool) (l : list A) :
  List.filter (fun x => (f x && g x)%bool) l = List.filter g (List.filter f l).
Proof.
  induction l as [| x l IH]; [reflexivity |].
  cbn. destruct (f x); cbn; [destruct (g x) |]; rewrite IH; reflexivity.
Qed.

Lemma pendingHandles_bound q h : In h (TaskQueue.pendingHandles q) -> (h < length q)%nat.
Proof.
  unfold TaskQueue.pendingHandles. intros Hin. apply filter_In in Hin.
  destruct Hin as [Hin _]. apply in_seq in Hin. lia.
Qed.

Lemma pendingHandles_queueTask (wk : W) opts q :
  TaskQueue.pendingHandles (snd (TaskQueue.queueTask wk opts q))
  = TaskQueue.pendingHandles q ++ [length q].
Proof.
  unfold TaskQueue.pendingHandles, TaskQueue.queueTask. cbn [snd].
  rewrite length_app. cbn [length]. rewrite seq_app, List.filter_app. cbn [seq].
  f_equal.
  - apply List.filter_ext_in. intros x Hx. apply in_seq in Hx.
    unfold TaskQueue.isPendingAt. rewrite lookup_app_l by lia. reflexivity.
  - cbn. unfold TaskQueue.isPendingAt.
    rewrite lookup_app_r by lia. rewrite Nat.sub_diag. reflexivity.
Qed.

Lemma isPendingAt_cancel h q x :
  TaskQueue.isPendingAt (TaskQueue.cancel h q) x
  = (TaskQueue.isPendingAt q x && negb (Nat.eqb x h))%bool.
Proof.
  unfold TaskQueue.isPendingAt, TaskQueue.cancel.
  destruct (Nat.eqb_spec x h) as [-> | Hne].
  - destruct (q !! h) as [tk |] eqn:Hl; [| rewrite Hl; reflexivity].
    destruct (TaskQueue.isPending tk) eqn:Hp.
    + rewrite list_lookup_insert_eq by (eapply lookup_lt_Some; exact Hl). reflexivity.
    + rewrite Hl, Hp. reflexivity.
  - rewrite andb_true_r.
    destruct (q !! h) as [tk |]; [| reflexivity].
    destruct (TaskQueue.isPending tk); [| reflexivity].
    rewrite list_lookup_insert_ne by congruence. reflexivity.
Qed.

Lemma isPendingAt_complete h q x :
  TaskQueue.isPendingAt (TaskQueue.complete h q) x
  = (TaskQueue.isPendingAt q x && negb (Nat.eqb x h))%bool.
Proof.
  unfold TaskQueue.isPendingAt, TaskQueue.complete.
  destruct (Nat.eqb_spec x h) as [-> | Hne].
  - destruct (q !! h) as [tk |] eqn:Hl; [| rewrite Hl; reflexivity].
    rewrite list_lookup_insert_eq by (eapply lookup_lt_Some; exact Hl).
    rewrite andb_false_r. reflexivity.
  - rewrite andb_true_r.
    destruct (q !! h) as [tk |]; [| reflexivity].
    rewrite list_lookup_insert_ne by congruence. reflexivity.
Qed.

Lemma complete_length h q : length (TaskQueue.complete h q) = length q.
Proof.
  unfold TaskQueue.complete. destruct (q !! h); [apply length_insert | reflexivity].
Qed.

(** Canceling takes the handle out of the pending ones and leaves the
    others. *)
Lemma pendingHandles_cancel h q :
  TaskQueue.pendingHandles (TaskQueue.cancel h q)
  = List.filter (fun x => negb (Nat.eqb x h)) (TaskQueue.pendingHandles q).
Proof.
  unfold TaskQueue.pendingHandles. rewrite cancel_length, <- filter_both.
  apply List.filter_ext. intros x. apply isPendingAt_cancel.
Qed.

Lemma pendingHandles_complete h q :
  TaskQueue.pendingHandles (TaskQueue.complete h q)
  = List.filter (fun x => negb (Nat.eqb x h)) (TaskQueue.pendingHandles q).
Proof.
  unfold TaskQueue.pendingHandles. rewrite complete_length, <- filter_both.
  apply List.filter_ext. intros x. apply isPendingAt_complete.
Qed.

Lemma onePending_issued ot q : onePending ot q -> handleIssued ot q.
Proof.
  unfold onePending, handleIssued. destruct ot as [h |]; [| trivial].
  intros Hp. apply pendingHandles_bound. rewrite Hp. left. reflexivity.
Qed.

(** Queue the new task, cancel the old one: one task is pending again. *)
Lemma onePending_reschedule (wk : W) opts q ot :
  onePending ot q ->
  let q1 := snd (TaskQueue.queueTask wk opts q) in
  onePending (Some (length q))
    (match ot with Some old => TaskQueue.cancel old q1 | None => q1 end).
Proof.
  intros Hp. cbn zeta. pose proof (onePending_issued _ _ Hp) as Hi.
  unfold onePending in *. destruct ot as [old |]; cbn in Hi.
  - rewrite pendingHandles_cancel, pendingHandles_queueTask, Hp. cbn.
    rewrite Nat.eqb_refl. cbn.
    destruct (Nat.eqb_spec (length q) old); [lia | reflexivity].
  - rewrite pendingHandles_queueTask, Hp. reflexivity.
Qed.

Lemma onePending_cancel q ot :
  onePending ot q ->
  onePending None (match ot with Some old => TaskQueue.cancel old q | None => q end).
Proof.
  unfold onePending. intros Hp. destruct ot as [old |]; [| exact Hp].
  rewrite pendingHandles_cancel, Hp. cbn. rewrite Nat.eqb_refl. reflexivity.
Qed.

Lemma flushOrder_onePending q ot :
  onePending ot q ->
  TaskQueue.flushOrder q = match ot with Some h => [h] | None => [] end.
Proof.
  unfold onePending, TaskQueue.flushOrder. intros ->.
  destruct ot as [h |]; [| reflexivity].
  cbn. destruct (TaskQueue.isPreempt q h); reflexivity.
Qed.

End TaskQueueFacts.

(** ** InterpolationBinding.updateTarget *)

Section InterpolationProperties.
Context `{Enums}.
Import InterpolationBinding.

Lemma concatFrom_spec (b : t) (n i : nat) (acc : string) :
  (i + n = length (partBindings b))%nat ->
  length (staticParts b) = S (length (partBindings b)) ->
  concatFrom b i n (VStr acc)
  = VStr (acc +:+ dynamicTail (drop i (ContentBinding.value <$> partBindings b))
                    (drop (S i) (staticParts b))).
Proof.
  revert i acc. induction n as [| n IH]; intros i acc Hi Hlen.
  - cbn. rewrite drop_ge by (rewrite length_fmap; lia). cbn.
    rewrite append_nil_r. reflexivity.
  - assert (Hp : is_Some (partBindings b !! i)) by (apply lookup_lt_is_Some_2; lia).
    assert (Hs : is_Some (staticParts b !! S i)) by (apply lookup_lt_is_Some_2; lia).
    destruct Hp as [p Hp], Hs as [s Hs].
    cbn [concatFrom]. unfold partValue, staticPart. rewrite Hp, Hs.
    rewrite add_str_r, add_str_l. cbn [to_string].
    rewrite IH by lia.
    rewrite (drop_S (ContentBinding.value <$> partBindings b) (ContentBinding.value p) i)
      by (rewrite list_lookup_fmap, Hp; reflexivity).
    rewrite (drop_S (staticParts b) s (S i)) by exact Hs.
    cbn [dynamicTail]. rewrite !append_assoc. reflexivity.
Qed.

Lemma render_spec (b : t) :
  length (staticParts b) = S (length (partBindings b)) ->
  render b
  = VStr (concatenation (staticParts b) (ContentBinding.value <$> partBindings b)).
Proof.
  intros Hlen. unfold render.
  destruct (staticParts b) as [| s0 ss] eqn:Hss; [discriminate |].
  destruct (Nat.eqb_spec (length (partBindings b)) 1) as [H1 | H1].
  - destruct (partBindings b) as [| p [| ? ?]] eqn:Hps; try discriminate.
    destruct ss as [| s1 [| ? ?]]; try discriminate.
    unfold staticPart, partValue. rewrite Hss, Hps. cbn [lookup list_lookup].
    rewrite add_str_l, add_str_l. cbn [to_string fmap list_fmap concatenation dynamicTail].
    rewrite append_assoc, append_nil_r. reflexivity.
  - unfold staticPart at 1. rewrite Hss. cbn [lookup list_lookup].
    rewrite concatFrom_spec by first [rewrite Hss; exact Hlen | lia].
    rewrite Hss. reflexivity.
Qed.

Lemma runTask_queued (result : val) (flags : Z) (w : W) (h : nat) :
  queue w !! h = Some {| TaskQueue.status := TaskQueue.pending;
                         TaskQueue.options := queueTaskOptions;
                         TaskQueue.work := WriteResult result flags |} ->
  log (runTask run h w) = log w ++ [SetValue result flags]
  /\ task (binding (runTask run h w)) = None.
Proof. intros Hq. unfold runTask. rewrite Hq. cbn. split; reflexivity. Qed.

(** What the deferring branch of [updateTarget] leaves behind. *)
Lemma updateTarget_queued (value : val) (flags : Z) (w : W) :
  handleIssued (task (binding w)) (queue w) ->
  shouldQueueFlush (binding w) flags = true ->
  let w' := updateTarget value flags w in
  queue w' !! length (queue w)
    = Some {| TaskQueue.status := TaskQueue.pending;
              TaskQueue.options := queueTaskOptions;
              TaskQueue.work := WriteResult (render (binding w)) flags |}
  /\ task (binding w') = Some (length (queue w))
  /\ length (queue w') = S (length (queue w))
  /\ log w' = log w.
Proof.
  intros Hh Hq. cbn zeta. unfold updateTarget. rewrite Hq. cbn.
  destruct (task (binding w)) as [old |] eqn:Hold; cbn in *.
  - rewrite cancel_lookup_ne by lia.
    rewrite cancel_length, length_app. cbn.
    rewrite lookup_app_r by lia. rewrite Nat.sub_diag.
    split_and!; [reflexivity | reflexivity | lia | reflexivity].
  - rewrite length_app. cbn.
    rewrite lookup_app_r by lia. rewrite Nat.sub_diag.
    split_and!; [reflexivity | reflexivity | lia | reflexivity].
Qed.

Lemma updateTarget_immediate (value : val) (flags : Z) (w : W) :
  shouldQueueFlush (binding w) flags = false ->
  updateTarget value flags w = emit [SetValue (render (binding w)) flags] w.
Proof. intros Hq. unfold updateTarget. rewrite Hq. reflexivity. Qed.

(** C1.  For an interpolation with static parts [S0..Sk] and parts whose
    cached values are [v0..v(k-1)], [updateTarget] computes
    [S0 + v0 + S1 + ... + Sk] and writes exactly that to the target: at
    once when the write is not deferred, and through the queued task
    otherwise.  With a single dynamic part the result is
    [staticParts[0] + value + staticParts[1]]. *)
Theorem updateTarget_writes_concatenation (value : val) (flags : Z) (w : W) :
  length (staticParts (binding w)) = S (length (partBindings (binding w))) ->
  handleIssued (task (binding w)) (queue w) ->
  let result :=
    VStr (concatenation (staticParts (binding w))
            (ContentBinding.value <$> partBindings (binding w))) in
  let w' := updateTarget value flags w in
  render (binding w) = result
  /\ (shouldQueueFlush (binding w) flags = false ->
      log w' = log w ++ [SetValue result flags] /\ queue w' = queue w)
  /\ (shouldQueueFlush (binding w) flags = true ->
      log w' = log w
      /\ task (binding w') = Some (length (queue w))
      /\ log (runTask run (length (queue w)) w') = log w ++ [SetValue result flags])
  /\ (forall p s0 s1,
        partBindings (binding w) = [p] -> staticParts (binding w) = [s0; s1] ->
        render (binding w)
        = JS.add (JS.add (VStr s0) (ContentBinding.value p)) (VStr s1)
        /\ result = VStr (s0 +:+ to_string (ContentBinding.value p) +:+ s1)).
Proof.
  intros Hlen Hh. cbn zeta. pose proof (render_spec _ Hlen) as Hr.
  split_and!.
  - exact Hr.
  - intros Hq. rewrite updateTarget_immediate by exact Hq. rewrite Hr.
    split; reflexivity.
  - intros Hq. destruct (updateTarget_queued value flags w Hh Hq) as (Hl & Ht & _ & Hlog).
    split_and!; [exact Hlog | exact Ht |].
    rewrite Hr in Hl. destruct (runTask_queued _ _ _ _ Hl) as [Hrun _].
    rewrite Hrun, Hlog. reflexivity.
  - intros p s0 s1 Hp Hs. rewrite Hp, Hs. cbn.
    rewrite append_nil_r. split; [| reflexivity].
    unfold render, staticPart, partValue. rewrite Hp, Hs. reflexivity.
Qed.

(** ** When a write is deferred *)

Lemma log_shape (l a b : list Event) (x : Event) :
  ((l ++ a) ++ b) ++ [x] = l ++ (a ++ b) ++ [x].
Proof. rewrite <- !app_assoc. reflexivity. Qed.

Lemma unbindParts_length (flags : Z) (ps : list ContentBinding.t) :
  length (fst (unbindParts flags ps)) = length ps.
Proof.
  induction ps as [| p r IH]; [reflexivity |].
  cbn. destruct (ContentBinding.unbind flags p) as [p' e1].
  destruct (unbindParts flags r) as [r' e2]. cbn in *. rewrite IH. reflexivity.
Qed.

Lemma unbind_effects (flags : Z) (w : W) :
  exists ev, log (unbind flags w) = log w ++ ev
             /\ length (queue (unbind flags w)) = length (queue w)
             /\ heap (unbind flags w) = heap w.
Proof.
  unfold unbind. destruct (isBound (binding w)); cbn.
  - destruct (unbindParts flags (partBindings (binding w))) as [ps ev]. cbn.
    exists ev. destruct (task (binding w)); cbn; rewrite ?cancel_length; auto.
  - exists []. rewrite app_nil_r. auto.
Qed.

(** [$bind] on a binding that is not already bound to [s]. *)
Lemma bind_unfold (flags : Z) (s : Scope) (hs : option Scope) (w : W) :
  (isBound (binding w) && bool_decide (scope (binding w) = Some s))%bool = false ->
  let w0 := if isBound (binding w) then unbind flags w else w in
  let b1 := setBound true (Some s) (binding w0) in
  bind flags s hs w
  = updateTarget VUndefined flags
      (emit (snd (bindParts flags s hs (heap w0) (partBindings b1)))
         (setBinding (setParts (fst (bindParts flags s hs (heap w0) (partBindings b1))) b1)
            w0)).
Proof.
  intros Hfresh. cbn zeta. unfold bind. rewrite Hfresh.
  destruct (bindParts _ _ _ _ _) as [ps ev]. reflexivity.
Qed.

(** C5, as the code has it.  A write of [updateTarget] is deferred
    through the task queue, with options reusable=false and preempt=true,
    exactly when the flags lack [fromBind] and the target accessor's type
    has the [Layout] bit; the binding's mode is not consulted.  Otherwise,
    so for every write to a target without the [Layout] bit and for the
    write of a [$bind] that is given [fromBind], the value is set at once
    and nothing is queued. *)
Theorem updateTarget_defers_iff (value : val) (flags : Z) (w : W) :
  handleIssued (task (binding w)) (queue w) ->
  let b := binding w in
  let w' := updateTarget value flags w in
  (shouldQueueFlush b flags = true <->
   band flags LifecycleFlags_fromBind = 0
   /\ band (targetObserverType b) AccessorType_Layout > 0)
  /\ (shouldQueueFlush b flags = true ->
      log w' = log w
      /\ queue w' !! length (queue w)
         = Some {| TaskQueue.status := TaskQueue.pending;
                   TaskQueue.options := {| TaskQueue.reusable := false;
                                           TaskQueue.preempt := true |};
                   TaskQueue.work := WriteResult (render b) flags |})
  /\ (shouldQueueFlush b flags = false ->
      log w' = log w ++ [SetValue (render b) flags] /\ queue w' = queue w)
  /\ (forall m, shouldQueueFlush (setMode m b) flags = shouldQueueFlush b flags)
  /\ (band (targetObserverType b) AccessorType_Layout <= 0 ->
      shouldQueueFlush b flags = false)
  /\ (forall s hs,
        band flags LifecycleFlags_fromBind <> 0 ->
        (isBound b && bool_decide (scope b = Some s))%bool = false ->
        length (queue (bind flags s hs w)) = length (queue w)
        /\ exists ev r, log (bind flags s hs w) = log w ++ ev ++ [SetValue r flags]).
Proof.
  intros Hh. cbn zeta. split_and!.
  - unfold shouldQueueFlush. rewrite andb_true_iff, Z.eqb_eq, Z.gtb_gt. reflexivity.
  - intros Hq. destruct (updateTarget_queued value flags w Hh Hq) as (Hl & _ & _ & Hlog).
    split; assumption.
  - intros Hq. rewrite updateTarget_immediate by exact Hq. split; reflexivity.
  - reflexivity.
  - intros Hl. unfold shouldQueueFlush.
    destruct (Z.gtb_spec (band (targetObserverType (binding w)) AccessorType_Layout) 0);
      [lia | apply andb_false_r].
  - intros s hs Hfb Hfresh. rewrite bind_unfold by exact Hfresh. cbn zeta.
    rewrite updateTarget_immediate.
    2: { unfold shouldQueueFlush. apply Z.eqb_neq in Hfb. rewrite Hfb. reflexivity. }
    cbn. destruct (isBound (binding w)).
    + destruct (unbind_effects flags w) as (ev & Hlog & Hlen & _).
      split; [exact Hlen |]. rewrite Hlog. eexists _, _. apply log_shape.
    + split; [reflexivity |]. eexists _, _. symmetry. apply app_assoc.
Qed.

(** ** One pending write per interpolation binding *)

Lemma updateTarget_onePending (value : val) (flags : Z) (w : W) :
  onePending (task (binding w)) (queue w) ->
  onePending (task (binding (updateTarget value flags w)))
    (queue (updateTarget value flags w)).
Proof.
  intros Hp. unfold updateTarget.
  destruct (shouldQueueFlush (binding w) flags); [| exact Hp].
  pose proof (onePending_reschedule (WriteResult (render (binding w)) flags)
                queueTaskOptions _ _ Hp) as Hr.
  cbn in *. destruct (task (binding w)); exact Hr.
Qed.

Lemma unbind_onePending (flags : Z) (w : W) :
  onePending (task (binding w)) (queue w) ->
  onePending (task (binding (unbind flags w))) (queue (unbind flags w)).
Proof.
  intros Hp. unfold unbind. destruct (isBound (binding w)); [| exact Hp].
  cbn. destruct (unbindParts flags (partBindings (binding w))) as [ps ev]. cbn.
  pose proof (onePending_cancel _ _ Hp) as Hc.
  destruct (task (binding w)); exact Hc.
Qed.

(** After [$unbind] of a bound binding no write is pending and no handle
    is held. *)
Lemma unbind_cancels (flags : Z) (w : W) :
  isBound (binding w) = true ->
  onePending (task (binding w)) (queue w) ->
  TaskQueue.pendingHandles (queue (unbind flags w)) = []
  /\ task (binding (unbind flags w)) = None.
Proof.
  intros Hb Hp. unfold unbind. rewrite Hb. cbn.
  destruct (unbindParts flags (partBindings (binding w))) as [ps ev]. cbn.
  pose proof (onePending_cancel _ _ Hp) as Hc.
  destruct (task (binding w)); split; try reflexivity; exact Hc.
Qed.

Lemma bind_onePending (flags : Z) (s : Scope) (hs : option Scope) (w : W) :
  onePending (task (binding w)) (queue w) ->
  onePending (task (binding (bind flags s hs w))) (queue (bind flags s hs w)).
Proof.
  intros Hp.
  destruct (isBound (binding w) && bool_decide (scope (binding w) = Some s))%bool eqn:Hg.
  - unfold bind. rewrite Hg. exact Hp.
  - rewrite bind_unfold by exact Hg. cbn zeta.
    apply updateTarget_onePending. cbn.
    destruct (isBound (binding w)); [apply unbind_onePending |]; exact Hp.
Qed.

Lemma ownerCall_onePending (c : option (val * Z)) (w : W) :
  onePending (task (binding w)) (queue w) ->
  onePending (task (binding (ownerCall c w))) (queue (ownerCall c w)).
Proof.
  intros Hp. destruct c as [[v flags] |]; [| exact Hp].
  apply updateTarget_onePending. exact Hp.
Qed.

Lemma flush_onePending (w : W) :
  onePending (task (binding w)) (queue w) ->
  onePending (task (binding (flush run w))) (queue (flush run w)).
Proof.
  intros Hp. unfold flush. rewrite (flushOrder_onePending _ _ Hp).
  destruct (task (binding w)) as [h |] eqn:Ht; cbn; [| rewrite Ht; exact Hp].
  unfold runTask. destruct (queue w !! h) as [tk |] eqn:Hl; [| rewrite Ht; exact Hp].
  destruct (TaskQueue.isPending tk); [| rewrite Ht; exact Hp].
  destruct (TaskQueue.work tk) as [result fl]. cbn.
  unfold onePending in *. rewrite pendingHandles_complete, Hp. cbn.
  rewrite Nat.eqb_refl. reflexivity.
Qed.

Lemma exec_onePending (op : Op) (w : W) :
  onePending (task (binding w)) (queue w) ->
  onePending (task (binding (exec op w))) (queue (exec op w)).
Proof.
  intros Hp. destruct op as [flags s hs | flags | i nv ov flags | i flags | h |]; cbn.
  - apply bind_onePending. exact Hp.
  - apply unbind_onePending. exact Hp.
  - unfold partHandleChange. destruct (partBindings (binding w) !! i) as [p |]; [| exact Hp].
    destruct (ContentBinding.handleChange nv ov flags (heap w) p) as [p' c].
    apply ownerCall_onePending. exact Hp.
  - unfold partHandleCollectionChange.
    destruct (partBindings (binding w) !! i); [| exact Hp].
    apply updateTarget_onePending. exact Hp.
  - exact Hp.
  - apply flush_onePending. exact Hp.
Qed.

(** Whatever happens to an interpolation binding that starts without a
    task, at most one write task is pending for it, and it is the one
    whose handle the binding holds. *)
Lemma InterpolationBinding_at_most_one_pending (ops : list Op) (w : W) :
  onePending (task (binding w)) (queue w) ->
  let w' := fold_left (fun acc op => exec op acc) ops w in
  onePending (task (binding w')) (queue w') /\ (pendingCount w' <= 1)%nat.
Proof.
  cbn zeta. revert w. induction ops as [| op ops IH]; intros w Hp; cbn.
  - split; [exact Hp |]. unfold pendingCount. rewrite Hp.
    destruct (task (binding w)); cbn; lia.
  - apply IH. apply exec_onePending. exact Hp.
Qed.

(** Of the deferred writes of one turn only the last reaches the target:
    when the queue flushes after a deferred [updateTarget], the target
    receives that call's string and nothing else. *)
Lemma InterpolationBinding_last_write_wins (value : val) (flags : Z) (w : W) :
  onePending (task (binding w)) (queue w) ->
  shouldQueueFlush (binding w) flags = true ->
  log (flush run (updateTarget value flags w))
  = log w ++ [SetValue (render (binding w)) flags].
Proof.
  intros Hp Hq.
  destruct (updateTarget_queued value flags w (onePending_issued _ _ Hp) Hq)
    as (Hl & Ht & _ & Hlog).
  pose proof (updateTarget_onePending value flags w Hp) as Hp'.
  unfold flush. rewrite (flushOrder_onePending _ _ Hp'), Ht. cbn [fold_left].
  destruct (runTask_queued _ _ _ _ Hl) as [Hrun _]. rewrite Hrun, Hlog. reflexivity.
Qed.

End InterpolationProperties.

(** ** Change handling of the content bindings *)

Lemma clear_stale_all_current (r : Connectable.ObserverRecord) :
  Forall (fun e => snd e = Connectable.version (Connectable.clear false r))
    (Connectable.entries (Connectable.clear false r)).
Proof.
  unfold Connectable.clear. cbn. apply List.Forall_forall. intros e He.
  apply filter_In in He. destruct He as [_ He]. apply Z.eqb_eq in He. exact He.
Qed.

Section ContentBindingProperties.
Context `{Enums}.
Import ContentBinding.

Lemma setObs_same (b : t) : setObs (obs b) b = b.
Proof. destruct b. reflexivity. Qed.

Lemma refresh_optimized (newValue : val) (flags : Z) (h : Heap) (b : t) :
  canOptimize b = true -> refresh newValue flags h b = (newValue, b).
Proof. intros Hc. unfold refresh. rewrite Hc. reflexivity. Qed.

Lemma refresh_tracked (newValue : val) (flags : Z) (h : Heap) (b : t) :
  canOptimize b = false -> shouldConnect b = true ->
  refresh newValue flags h b
  = (evaluate (sourceExpression b) flags (scope b) (hostScope b) (locator b) h,
     setObs (Connectable.clear false
               (Connectable.tracked true
                  (reads (sourceExpression b) flags (scope b) (hostScope b) (locator b) h)
                  (Connectable.bump (obs b)))) b).
Proof. intros Hc Hs. unfold refresh. rewrite Hc, Hs. reflexivity. Qed.

Lemma refresh_untracked (newValue : val) (flags : Z) (h : Heap) (b : t) :
  canOptimize b = false -> shouldConnect b = false ->
  refresh newValue flags h b
  = (evaluate (sourceExpression b) flags (scope b) (hostScope b) (locator b) h, b).
Proof.
  intros Hc Hs. unfold refresh. rewrite Hc, Hs. cbn. rewrite setObs_same. reflexivity.
Qed.

Lemma refresh_keeps_value (newValue : val) (flags : Z) (h : Heap) (b : t) :
  value (snd (refresh newValue flags h b)) = value b.
Proof. unfold refresh. destruct (canOptimize b); reflexivity. Qed.

Lemma handleChange_unchanged (newValue oldValue : val) (flags : Z) (h : Heap) (b : t) :
  isBound b = true ->
  loose_eq (fst (refresh newValue flags h b)) (value b) = true ->
  handleChange newValue oldValue flags h b = (snd (refresh newValue flags h b), None).
Proof.
  intros Hb Heq. unfold handleChange. rewrite Hb. cbn [negb].
  pose proof (refresh_keeps_value newValue flags h b) as Hv.
  destruct (refresh newValue flags h b) as [v b1]. cbn in *.
  rewrite Hv, Heq. reflexivity.
Qed.

Lemma handleChange_changed (newValue oldValue : val) (flags : Z) (h : Heap) (b : t) :
  isBound b = true ->
  loose_eq (fst (refresh newValue flags h b)) (value b) = false ->
  value (fst (handleChange newValue oldValue flags h b)) = fst (refresh newValue flags h b)
  /\ snd (handleChange newValue oldValue flags h b)
     = Some (fst (refresh newValue flags h b), flags).
Proof.
  intros Hb Heq. unfold handleChange. rewrite Hb. cbn [negb].
  pose proof (refresh_keeps_value newValue flags h b) as Hv.
  destruct (refresh newValue flags h b) as [v b1]. cbn in *.
  rewrite Hv, Heq. cbn. destruct (instanceof_Array v); split; reflexivity.
Qed.

Lemma handleChange_unbound (newValue oldValue : val) (flags : Z) (h : Heap) (b : t) :
  isBound b = false -> handleChange newValue oldValue flags h b = (b, None).
Proof. intros Hb. unfold handleChange. rewrite Hb. reflexivity. Qed.

End ContentBindingProperties.

Section ContentBinding2Properties.
Context `{Enums}.
Import ContentBinding2.

Lemma setObs2_same (b : t) : setObs (obs b) b = b.
Proof. destruct b. reflexivity. Qed.

Lemma refresh2_optimized (newValue : val) (flags : Z) (h : Heap) (b : t) :
  canOptimize b = true -> refresh newValue flags h b = (newValue, b).
Proof. intros Hc. unfold refresh. rewrite Hc. reflexivity. Qed.

Lemma refresh2_tracked (newValue : val) (flags : Z) (h : Heap) (b : t) :
  canOptimize b = false -> shouldConnect b = true ->
  refresh newValue flags h b
  = (evaluate (sourceExpression b) flags (scope b) (hostScope b) (locator b) h,
     setObs (Connectable.clear false
               (Connectable.tracked true
                  (reads (sourceExpression b) flags (scope b) (hostScope b) (locator b) h)
                  (Connectable.bump (obs b)))) b).
Proof. intros Hc Hs. unfold refresh. rewrite Hc, Hs. reflexivity. Qed.

Lemma refresh2_untracked (newValue : val) (flags : Z) (h : Heap) (b : t) :
  canOptimize b = false -> shouldConnect b = false ->
  refresh newValue flags h b
  = (evaluate (sourceExpression b) flags (scope b) (hostScope b) (locator b) h, b).
Proof.
  intros Hc Hs. unfold refresh. rewrite Hc, Hs. cbn. rewrite setObs2_same. reflexivity.
Qed.

Lemma refresh2_keeps (newValue : val) (flags : Z) (h : Heap) (b : t) :
  value (snd (refresh newValue flags h b)) = value b
  /\ task (snd (refresh newValue flags h b)) = task b
  /\ isBound (snd (refresh newValue flags h b)) = isBound b.
Proof. unfold refresh. destruct (canOptimize b); repeat split. Qed.

(** [handleChange] up to the comparison. *)
Lemma handleChange2_same (newValue oldValue : val) (flags : Z) (w : W) :
  isBound (binding w) = true ->
  strict_eq (fst (refresh newValue flags (heap w) (binding w))) (value (binding w)) = true ->
  handleChange newValue oldValue flags w
  = setBinding (snd (refresh newValue flags (heap w) (binding w))) w.
Proof.
  intros Hb Heq. unfold handleChange. rewrite Hb. cbn [negb].
  destruct (refresh2_keeps newValue flags (heap w) (binding w)) as (Hv & _ & _).
  destruct (refresh newValue flags (heap w) (binding w)) as [v b1]. cbn in *.
  rewrite Hv, Heq. reflexivity.
Qed.

Lemma handleChange2_immediate (newValue oldValue : val) (flags : Z) (w : W) :
  isBound (binding w) = true ->
  strict_eq (fst (refresh newValue flags (heap w) (binding w))) (value (binding w)) = false ->
  band flags LifecycleFlags_fromBind <> 0 ->
  let v := fst (refresh newValue flags (heap w) (binding w)) in
  let w' := handleChange newValue oldValue flags w in
  value (binding w') = v
  /\ log w' = log w ++ domWrites (value (binding w)) v.
Proof.
  intros Hb Heq Hfb. cbn zeta. unfold handleChange. rewrite Hb. cbn [negb].
  destruct (refresh2_keeps newValue flags (heap w) (binding w)) as (Hv & _ & _).
  destruct (refresh newValue flags (heap w) (binding w)) as [v b1]. cbn in *.
  rewrite Hv, Heq. apply Z.eqb_neq in Hfb. rewrite Hfb.
  destruct (task b1); cbn; rewrite ?Hv; split; reflexivity.
Qed.

Lemma handleChange2_queued (newValue oldValue : val) (flags : Z) (w : W) :
  isBound (binding w) = true ->
  strict_eq (fst (refresh newValue flags (heap w) (binding w))) (value (binding w)) = false ->
  band flags LifecycleFlags_fromBind = 0 ->
  let v := fst (refresh newValue flags (heap w) (binding w)) in
  let w' := handleChange newValue oldValue flags w in
  log w' = log w
  /\ value (binding w') = value (binding w)
  /\ task (binding w') = Some (length (queue w))
  /\ queue w' !! length (queue w)
     = Some {| TaskQueue.status := TaskQueue.pending;
               TaskQueue.options := queueTaskOptions;
               TaskQueue.work := UpdateTarget v flags |}.
Proof.
  intros Hb Heq Hfb. cbn zeta. unfold handleChange. rewrite Hb. cbn [negb].
  destruct (refresh2_keeps newValue flags (heap w) (binding w)) as (Hv & _ & _).
  destruct (refresh newValue flags (heap w) (binding w)) as [v b1]. cbn in *.
  rewrite Hv, Heq. apply Z.eqb_eq in Hfb. rewrite Hfb.
  destruct (task b1) as [old |]; cbn; rewrite ?cancel_length;
    (rewrite lookup_app_r by (rewrite ?cancel_length; lia));
    rewrite ?cancel_length, Nat.sub_diag; split_and!; try reflexivity; exact Hv.
Qed.

Lemma handleChange2_unbound (newValue oldValue : val) (flags : Z) (w : W) :
  isBound (binding w) = false -> handleChange newValue oldValue flags w = w.
Proof. intros Hb. unfold handleChange. rewrite Hb. reflexivity. Qed.

End ContentBinding2Properties.

(** C6, as the code has it.  In [handleChange] of [ContentBinding] and of
    [ContentBinding2], the notified value is taken as it is, with neither
    evaluation nor any change to the observer record, exactly when the
    expression's kind is [AccessScope] and the record counts one
    subscription.  Otherwise the expression is evaluated again: when the
    mode has the [toView] bit the version is incremented first, the
    evaluation feeds the record and the stale entries are removed
    afterwards; when it has not, the evaluation is not connected and the
    record, version included, stays as it was. *)
Theorem handleChange_tracking_protocol `{Enums} (newValue : val) (flags : Z) (h : Heap)
    (p : ContentBinding.t) (q : ContentBinding2.t) :
  let eval1 := evaluate (ContentBinding.sourceExpression p) flags (ContentBinding.scope p)
                 (ContentBinding.hostScope p) (ContentBinding.locator p) h in
  let reads1 := reads (ContentBinding.sourceExpression p) flags (ContentBinding.scope p)
                  (ContentBinding.hostScope p) (ContentBinding.locator p) h in
  let eval2 := evaluate (ContentBinding2.sourceExpression q) flags (ContentBinding2.scope q)
                 (ContentBinding2.hostScope q) (ContentBinding2.locator q) h in
  let reads2 := reads (ContentBinding2.sourceExpression q) flags (ContentBinding2.scope q)
                  (ContentBinding2.hostScope q) (ContentBinding2.locator q) h in
  (* ContentBinding *)
  (ContentBinding.canOptimize p = true <->
   kind (ContentBinding.sourceExpression p) = ExpressionKind_AccessScope
   /\ Connectable.count (ContentBinding.obs p) = 1)
  /\ (ContentBinding.canOptimize p = true ->
      ContentBinding.refresh newValue flags h p = (newValue, p))
  /\ (ContentBinding.canOptimize p = false -> ContentBinding.shouldConnect p = true ->
      ContentBinding.refresh newValue flags h p
      = (eval1,
         ContentBinding.setObs
           (Connectable.clear false
              (Connectable.tracked true reads1 (Connectable.bump (ContentBinding.obs p))))
           p))
  /\ (ContentBinding.canOptimize p = false -> ContentBinding.shouldConnect p = false ->
      ContentBinding.refresh newValue flags h p = (eval1, p))
  /\ (forall oldValue, ContentBinding.isBound p = true ->
      let r := ContentBinding.refresh newValue flags h p in
      let out := ContentBinding.handleChange newValue oldValue flags h p in
      (loose_eq (fst r) (ContentBinding.value p) = true -> out = (snd r, None))
      /\ (loose_eq (fst r) (ContentBinding.value p) = false ->
          ContentBinding.value (fst out) = fst r /\ snd out = Some (fst r, flags)))
  (* ContentBinding2 *)
  /\ (ContentBinding2.canOptimize q = true <->
      kind (ContentBinding2.sourceExpression q) = ExpressionKind_AccessScope
      /\ Connectable.count (ContentBinding2.obs q) = 1)
  /\ (ContentBinding2.canOptimize q = true ->
      ContentBinding2.refresh newValue flags h q = (newValue, q))
  /\ (ContentBinding2.canOptimize q = false -> ContentBinding2.shouldConnect q = true ->
      ContentBinding2.refresh newValue flags h q
      = (eval2,
         ContentBinding2.setObs
           (Connectable.clear false
              (Connectable.tracked true reads2 (Connectable.bump (ContentBinding2.obs q))))
           q))
  /\ (ContentBinding2.canOptimize q = false -> ContentBinding2.shouldConnect q = false ->
      ContentBinding2.refresh newValue flags h q = (eval2, q))
  /\ (forall oldValue (w : ContentBinding2.W),
      binding w = q -> heap w = h -> ContentBinding2.isBound q = true ->
      let r := ContentBinding2.refresh newValue flags h q in
      let w' := ContentBinding2.handleChange newValue oldValue flags w in
      (strict_eq (fst r) (ContentBinding2.value q) = true -> w' = setBinding (snd r) w)
      /\ (strict_eq (fst r) (ContentBinding2.value q) = false ->
          band flags LifecycleFlags_fromBind = 0 ->
          queue w' !! length (queue w)
          = Some {| TaskQueue.status := TaskQueue.pending;
                    TaskQueue.options := queueTaskOptions;
                    TaskQueue.work := ContentBinding2.UpdateTarget (fst r) flags |})
      /\ (strict_eq (fst r) (ContentBinding2.value q) = false ->
          band flags LifecycleFlags_fromBind <> 0 ->
          ContentBinding2.value (binding w') = fst r)).
Proof.
  cbn zeta. split_and!.
  - unfold ContentBinding.canOptimize. rewrite andb_true_iff, !Z.eqb_eq. reflexivity.
  - apply refresh_optimized.
  - apply refresh_tracked.
  - apply refresh_untracked.
  - intros oldValue Hb. split.
    + intros Heq. apply handleChange_unchanged; assumption.
    + intros Hne. apply handleChange_changed; assumption.
  - unfold ContentBinding2.canOptimize. rewrite andb_true_iff, !Z.eqb_eq. reflexivity.
  - apply refresh2_optimized.
  - apply refresh2_tracked.
  - apply refresh2_untracked.
  - intros oldValue w <- <- Hb. split_and!.
    + intros Heq. apply handleChange2_same; assumption.
    + intros Hne Hfb.
      apply (handleChange2_queued newValue oldValue flags w Hb Hne Hfb).
    + intros Hne Hfb.
      apply (handleChange2_immediate newValue oldValue flags w Hb Hne Hfb).
Qed.

(** ** Change detection *)

Lemma updateTarget_keeps_parts `{Enums} (v : val) (flags : Z) (w : InterpolationBinding.W) :
  InterpolationBinding.partBindings (binding (InterpolationBinding.updateTarget v flags w))
  = InterpolationBinding.partBindings (binding w).
Proof.
  unfold InterpolationBinding.updateTarget.
  destruct (InterpolationBinding.shouldQueueFlush (binding w) flags); [| reflexivity].
  cbn. destruct (InterpolationBinding.task (binding w)); reflexivity.
Qed.

Lemma partHandleChange_unchanged `{Enums} (i : nat) (newValue oldValue : val) (flags : Z)
    (w : InterpolationBinding.W) (p : ContentBinding.t) :
  InterpolationBinding.partBindings (binding w) !! i = Some p ->
  ContentBinding.isBound p = true ->
  loose_eq (fst (ContentBinding.refresh newValue flags (heap w) p)) (ContentBinding.value p)
  = true ->
  let w' := InterpolationBinding.partHandleChange i newValue oldValue flags w in
  log w' = log w /\ queue w' = queue w
  /\ InterpolationBinding.task (binding w') = InterpolationBinding.task (binding w)
  /\ InterpolationBinding.partValue (binding w') i = ContentBinding.value p.
Proof.
  intros Hp Hb Heq. cbn zeta. unfold InterpolationBinding.partHandleChange.
  rewrite Hp, handleChange_unchanged by assumption. cbn.
  split_and!; try reflexivity.
  unfold InterpolationBinding.partValue. cbn.
  rewrite list_lookup_insert_eq by (eapply lookup_lt_Some; exact Hp).
  apply refresh_keeps_value.
Qed.

Lemma partHandleChange_changed `{Enums} (i : nat) (newValue oldValue : val) (flags : Z)
    (w : InterpolationBinding.W) (p : ContentBinding.t) :
  InterpolationBinding.partBindings (binding w) !! i = Some p ->
  ContentBinding.isBound p = true ->
  loose_eq (fst (ContentBinding.refresh newValue flags (heap w) p)) (ContentBinding.value p)
  = false ->
  let w' := InterpolationBinding.partHandleChange i newValue oldValue flags w in
  InterpolationBinding.partValue (binding w') i
  = fst (ContentBinding.refresh newValue flags (heap w) p)
  /\ exists w1,
       w' = InterpolationBinding.updateTarget
              (fst (ContentBinding.refresh newValue flags (heap w) p)) flags w1
       /\ log w1 = log w /\ queue w1 = queue w.
Proof.
  intros Hp Hb Hne. cbn zeta. unfold InterpolationBinding.partHandleChange. rewrite Hp.
  destruct (handleChange_changed newValue oldValue flags (heap w) p Hb Hne) as [Hv Hc].
  destruct (ContentBinding.handleChange newValue oldValue flags (heap w) p) as [p' c].
  cbn in Hv, Hc. subst c. cbn [InterpolationBinding.ownerCall]. split.
  - unfold InterpolationBinding.partValue. rewrite updateTarget_keeps_parts. cbn.
    rewrite list_lookup_insert_eq by (eapply lookup_lt_Some; exact Hp). exact Hv.
  - eexists. split; [reflexivity |]. split; reflexivity.
Qed.

(** Notifications that reach an unbound part change neither the log nor
    the queue. *)
Lemma partHandleChange_unbound `{Enums} (i : nat) (newValue oldValue : val) (flags : Z)
    (w : InterpolationBinding.W)     (p : ContentBinding.t) :
  InterpolationBinding.partBindings (binding w) !! i = Some p ->
  ContentBinding.isBound p = false ->
  let w' := InterpolationBinding.partHandleChange i newValue oldValue flags w in
  log w' = log w /\ queue w' = queue w /\ InterpolationBinding.partBindings (binding w') = InterpolationBinding.partBindings (binding w).
Proof.
  intros Hp Hb. cbn zeta. unfold InterpolationBinding.partHandleChange.
  rewrite Hp, handleChange_unbound by exact Hb. cbn.
  split_and!; try reflexivity. apply list_insert_id. exact Hp.
Qed.

(** Strict equality is contained in loose equality. *)
Lemma loose_eq_strict (a b : val) : strict_eq a b = true -> loose_eq a b = true.
Proof. destruct a, b; cbn; trivial; discriminate. Qed.

(** Conversions that [==] makes and [===] does not: a string is read as
    a numeric literal (decimal with fraction and exponent, hexadecimal,
    octal, binary, white space around it, the empty string as 0), a
    boolean as 0 or 1, an object as its string; a string that is no
    literal is NaN and equal to nothing. *)
Lemma loose_eq_conversions :
  loose_eq (VStr "1e0") (VNum (Int 1)) = true
  /\ loose_eq (VStr "15.00") (VNum (Int 15)) = true
  /\ loose_eq (VStr "") (VNum (Int 0)) = true
  /\ loose_eq (VStr "0b11") (VNum (Int 3)) = true
  /\ loose_eq (VStr "-0x10") (VNum (Int (-16))) = false
  /\ loose_eq (VStr "1.5") (VNum (Int 1)) = false
  /\ loose_eq (VStr "one") (VNum (Int 1)) = false
  /\ loose_eq (VStr "NaN") (VNum NaN) = false
  /\ loose_eq (VStr "1") (VStr "1.0") = false
  /\ loose_eq (VBool false) (VStr "") = true
  /\ loose_eq (VObj Arr 0 "1") (VNum (Int 1)) = true
  /\ loose_eq (VObj Arr 0 "1") (VObj Arr 1 "1") = false
  /\ loose_eq VNull (VNum (Int 0)) = false.
Proof. split_and!; vm_compute; reflexivity. Qed.

(** C7, as the code has it.  [ContentBinding.handleChange] compares with
    loose inequality: when the new value is loosely equal to the cached
    one, as 1 and "1" are (or 1 and "1.0", 16 and "0x10", true and " 1 ",
    null and undefined), the cached value stays and the owner writes
    nothing; when it is not, the value is cached and the owner's
    [updateTarget] runs.  [ContentBinding2.handleChange] compares with
    strict equality: it returns without a write only when the new value
    is strictly equal to the cached one, and otherwise writes at once
    (with [fromBind]) or queues the write (without). *)
Theorem handleChange_change_detection `{Enums} (i : nat) (newValue oldValue : val)
    (flags : Z) (w : InterpolationBinding.W) (p : ContentBinding.t)
    (w2 : ContentBinding2.W) :
  let v := fst (ContentBinding.refresh newValue flags (heap w) p) in
  let w' := InterpolationBinding.partHandleChange i newValue oldValue flags w in
  let v2 := fst (ContentBinding2.refresh newValue flags (heap w2) (binding w2)) in
  let w2' := ContentBinding2.handleChange newValue oldValue flags w2 in
  loose_eq (VNum (Int 1)) (VStr "1") = true
  /\ loose_eq (VNum (Int 1)) (VStr "1.0") = true
  /\ loose_eq (VStr "0x10") (VNum (Int 16)) = true
  /\ loose_eq (VBool true) (VStr " 1 ") = true
  /\ loose_eq VNull VUndefined = true
  /\ strict_eq (VNum (Int 1)) (VStr "1") = false
  (* ContentBinding, as a part of its owner *)
  /\ (InterpolationBinding.partBindings (binding w) !! i = Some p ->
      ContentBinding.isBound p = true ->
      (loose_eq v (ContentBinding.value p) = true ->
       log w' = log w /\ queue w' = queue w
       /\ InterpolationBinding.partValue (binding w') i = ContentBinding.value p)
      /\ (loose_eq v (ContentBinding.value p) = false ->
          InterpolationBinding.partValue (binding w') i = v
          /\ exists w1, w' = InterpolationBinding.updateTarget v flags w1
                        /\ log w1 = log w /\ queue w1 = queue w))
  (* ContentBinding2 *)
  /\ (ContentBinding2.isBound (binding w2) = true ->
      (strict_eq v2 (ContentBinding2.value (binding w2)) = true ->
       log w2' = log w2 /\ queue w2' = queue w2
       /\ ContentBinding2.value (binding w2') = ContentBinding2.value (binding w2))
      /\ (strict_eq v2 (ContentBinding2.value (binding w2)) = false ->
          band flags LifecycleFlags_fromBind <> 0 ->
          ContentBinding2.value (binding w2') = v2
          /\ log w2' = log w2
                       ++ ContentBinding2.domWrites (ContentBinding2.value (binding w2)) v2)
      /\ (strict_eq v2 (ContentBinding2.value (binding w2)) = false ->
          band flags LifecycleFlags_fromBind = 0 ->
          queue w2' !! length (queue w2)
          = Some {| TaskQueue.status := TaskQueue.pending;
                    TaskQueue.options := queueTaskOptions;
                    TaskQueue.work := ContentBinding2.UpdateTarget v2 flags |})).
Proof.
  cbn zeta. split_and!; try reflexivity.
  - intros Hp Hb. split.
    + intros Heq.
      destruct (partHandleChange_unchanged i newValue oldValue flags w p Hp Hb Heq)
        as (Hl & Hq & _ & Hv).
      split_and!; assumption.
    + intros Hne. apply partHandleChange_changed; assumption.
  - intros Hb. split_and!.
    + intros Heq. rewrite handleChange2_same by assumption. cbn.
      split_and!; try reflexivity. apply refresh2_keeps.
    + intros Hne Hfb.
      apply (handleChange2_immediate newValue oldValue flags w2 Hb Hne Hfb).
    + intros Hne Hfb.
      apply (handleChange2_queued newValue oldValue flags w2 Hb Hne Hfb).
Qed.

(** ** Binding twice *)

Section Rebinding.
Context `{Enums}.

Lemma guard_same (bound : bool) (sc : option Scope) (s : Scope) :
  bound = true -> sc = Some s -> (bound && bool_decide (sc = Some s))%bool = true.
Proof. intros -> ->. rewrite bool_decide_eq_true_2; reflexivity. Qed.

Lemma guard_other (bound : bool) (sc : option Scope) (s : Scope) :
  sc <> Some s -> (bound && bool_decide (sc = Some s))%bool = false.
Proof. intros Hne. rewrite bool_decide_eq_false_2 by exact Hne. apply andb_false_r. Qed.

Lemma InterpolationBinding_unbind_unbound (flags : Z) (w : InterpolationBinding.W) :
  InterpolationBinding.isBound (binding (InterpolationBinding.unbind flags w)) = false.
Proof.
  unfold InterpolationBinding.unbind.
  destruct (InterpolationBinding.isBound (binding w)) eqn:Hb; [| exact Hb].
  cbn. destruct (InterpolationBinding.unbindParts _ _) as [ps ev]. cbn.
  destruct (InterpolationBinding.task (binding w)); reflexivity.
Qed.

Lemma InterpolationBinding_rebind (flags : Z) (s : Scope) (hs : option Scope)
    (w : InterpolationBinding.W) :
  InterpolationBinding.isBound (binding w) = true ->
  InterpolationBinding.scope (binding w) <> Some s ->
  InterpolationBinding.bind flags s hs w
  = InterpolationBinding.bind flags s hs (InterpolationBinding.unbind flags w).
Proof.
  intros Hb Hne.
  unfold InterpolationBinding.bind at 1 2.
  rewrite (guard_other _ _ _ Hne), Hb.
  rewrite InterpolationBinding_unbind_unbound. reflexivity.
Qed.

Lemma ContentBinding_unbind_unbound (flags : Z) (b : ContentBinding.t) :
  ContentBinding.isBound (fst (ContentBinding.unbind flags b)) = false.
Proof.
  unfold ContentBinding.unbind.
  destruct (ContentBinding.isBound b) eqn:Hb; [reflexivity | exact Hb].
Qed.

Lemma ContentBinding_rebind (flags : Z) (s : Scope) (hs : option Scope) (h : Heap)
    (b : ContentBinding.t) :
  ContentBinding.isBound b = true ->
  ContentBinding.scope b <> Some s ->
  ContentBinding.bind flags s hs h b
  = (fst (ContentBinding.bind flags s hs h (fst (ContentBinding.unbind flags b))),
     snd (ContentBinding.unbind flags b)
     ++ snd (ContentBinding.bind flags s hs h (fst (ContentBinding.unbind flags b)))).
Proof.
  intros Hb Hne.
  unfold ContentBinding.bind at 1 2 3.
  rewrite (guard_other _ _ _ Hne), Hb.
  pose proof (ContentBinding_unbind_unbound flags b) as Hu.
  destruct (ContentBinding.unbind flags b) as [b0 ev0]. cbn [fst snd] in *.
  rewrite Hu. cbn. reflexivity.
Qed.

Lemma ContentBinding2_unbind_unbound (flags : Z) (w : ContentBinding2.W) :
  ContentBinding2.isBound (binding (ContentBinding2.unbind flags w)) = false.
Proof.
  unfold ContentBinding2.unbind.
  destruct (ContentBinding2.isBound (binding w)) eqn:Hb; [reflexivity | exact Hb].
Qed.

Lemma ContentBinding2_rebind (flags : Z) (s : Scope) (hs : option Scope)
    (w : ContentBinding2.W) :
  ContentBinding2.isBound (binding w) = true ->
  ContentBinding2.scope (binding w) <> Some s ->
  ContentBinding2.bind flags s hs w
  = ContentBinding2.bind flags s hs (ContentBinding2.unbind flags w).
Proof.
  intros Hb Hne.
  unfold ContentBinding2.bind at 1 2.
  rewrite (guard_other _ _ _ Hne), Hb.
  rewrite ContentBinding2_unbind_unbound. reflexivity.
Qed.

Lemma ContentBinding_bind_fresh (flags : Z) (s : Scope) (hs : option Scope) (h : Heap)
    (p : ContentBinding.t) :
  ContentBinding.isBound p = false ->
  let p' := fst (ContentBinding.bind flags s hs h p) in
  ContentBinding.isBound p' = true
  /\ ContentBinding.scope p' = Some s
  /\ ContentBinding.hostScope p' = hs
  /\ ContentBinding.value p'
     = evaluate (ContentBinding.sourceExpression p) flags (Some s) hs
         (ContentBinding.locator p) h
  /\ snd (ContentBinding.bind flags s hs h p)
     = if hasBind (ContentBinding.sourceExpression p) then [ExprBind flags s hs] else [].
Proof.
  intros Hb. cbn zeta. unfold ContentBinding.bind. rewrite Hb. cbn.
  destruct (instanceof_Array _); repeat split.
Qed.

Lemma bindParts_fresh (flags : Z) (s : Scope) (hs : option Scope) (h : Heap)
    (ps : list ContentBinding.t) :
  Forall (fun p => ContentBinding.isBound p = false) ps ->
  let ps' := fst (InterpolationBinding.bindParts flags s hs h ps) in
  length ps' = length ps
  /\ ContentBinding.value <$> ps'
     = (fun p => evaluate (ContentBinding.sourceExpression p) flags (Some s) hs
                   (ContentBinding.locator p) h) <$> ps
  /\ Forall (fun p => ContentBinding.isBound p = true
                      /\ ContentBinding.scope p = Some s
                      /\ ContentBinding.hostScope p = hs) ps'
  /\ Forall (fun e => e = ExprBind flags s hs)
       (snd (InterpolationBinding.bindParts flags s hs h ps)).
Proof.
  cbn zeta. induction 1 as [| p ps Hp Hps IH]; cbn.
  - split_and!; [reflexivity | reflexivity | constructor | constructor].
  - destruct (ContentBinding_bind_fresh flags s hs h p Hp) as (Hb & Hs & Hh & Hv & He).
    destruct (ContentBinding.bind flags s hs h p) as [p' e1].
    destruct (InterpolationBinding.bindParts flags s hs h ps) as [ps' e2].
    cbn in *. destruct IH as (Hl & Hvs & Hall & Hev).
    split_and!; [rewrite Hl; reflexivity | rewrite Hv, Hvs; reflexivity | |].
    + constructor; [split_and!; assumption | exact Hall].
    + apply Forall_app. split; [| exact Hev]. rewrite He.
      destruct (hasBind _); repeat constructor.
Qed.

Lemma concatFrom_ext (b1 b2 : InterpolationBinding.t) (n i : nat) (acc : val) :
  InterpolationBinding.partBindings b1 = InterpolationBinding.partBindings b2 ->
  InterpolationBinding.staticParts b1 = InterpolationBinding.staticParts b2 ->
  InterpolationBinding.concatFrom b1 i n acc = InterpolationBinding.concatFrom b2 i n acc.
Proof.
  intros Hp Hs. revert i acc. induction n as [| n IH]; intros i acc; cbn; [reflexivity |].
  unfold InterpolationBinding.partValue, InterpolationBinding.staticPart.
  rewrite Hp, Hs. apply IH.
Qed.

(** The rendered string depends on the parts and the static parts only. *)
Lemma render_ext (b1 b2 : InterpolationBinding.t) :
  InterpolationBinding.partBindings b1 = InterpolationBinding.partBindings b2 ->
  InterpolationBinding.staticParts b1 = InterpolationBinding.staticParts b2 ->
  InterpolationBinding.render b1 = InterpolationBinding.render b2.
Proof.
  intros Hp Hs. unfold InterpolationBinding.render,
    InterpolationBinding.partValue, InterpolationBinding.staticPart.
  rewrite Hp, Hs. destruct (Nat.eqb _ 1); [reflexivity |].
  apply concatFrom_ext; assumption.
Qed.

Lemma updateTarget_keeps_binding (v : val) (flags : Z) (w : InterpolationBinding.W) :
  let b' := binding (InterpolationBinding.updateTarget v flags w) in
  InterpolationBinding.partBindings b' = InterpolationBinding.partBindings (binding w)
  /\ InterpolationBinding.staticParts b' = InterpolationBinding.staticParts (binding w)
  /\ InterpolationBinding.isBound b' = InterpolationBinding.isBound (binding w)
  /\ InterpolationBinding.scope b' = InterpolationBinding.scope (binding w).
Proof.
  cbn zeta. unfold InterpolationBinding.updateTarget.
  destruct (InterpolationBinding.shouldQueueFlush (binding w) flags); [| repeat split].
  cbn. destruct (InterpolationBinding.task (binding w)); repeat split.
Qed.

Lemma unbindParts_all_unbound (flags : Z) (ps : list ContentBinding.t) :
  Forall (fun p => ContentBinding.isBound p = false)
    (fst (InterpolationBinding.unbindParts flags ps)).
Proof.
  induction ps as [| p r IH]; cbn; [constructor |].
  pose proof (ContentBinding_unbind_unbound flags p) as Hp.
  destruct (ContentBinding.unbind flags p) as [p' e1].
  destruct (InterpolationBinding.unbindParts flags r) as [r' e2].
  cbn in *. constructor; assumption.
Qed.

Lemma unbindParts_hooks (flags : Z) (s : Scope) (hs : option Scope)
    (ps : list ContentBinding.t) :
  Forall (isHook flags s hs) (snd (InterpolationBinding.unbindParts flags ps)).
Proof.
  induction ps as [| p r IH]; cbn; [constructor |].
  assert (Hp : Forall (isHook flags s hs) (snd (ContentBinding.unbind flags p))).
  { unfold ContentBinding.unbind. destruct (ContentBinding.isBound p); cbn; [| constructor].
    destruct (hasUnbind _); [| constructor]. constructor; [right; eauto | constructor]. }
  destruct (ContentBinding.unbind flags p) as [p' e1].
  destruct (InterpolationBinding.unbindParts flags r) as [r' e2].
  cbn in *. apply Forall_app. split; assumption.
Qed.

Lemma unbindParts_keeps_expressions {A : Type}
    (f : Expression -> Locator -> A) (flags : Z) (ps : list ContentBinding.t) :
  (fun q => f (ContentBinding.sourceExpression q) (ContentBinding.locator q))
    <$> fst (InterpolationBinding.unbindParts flags ps)
  = (fun q => f (ContentBinding.sourceExpression q) (ContentBinding.locator q)) <$> ps.
Proof.
  induction ps as [| p r IH]; [reflexivity |]. cbn.
  assert (Hp : ContentBinding.sourceExpression (fst (ContentBinding.unbind flags p))
               = ContentBinding.sourceExpression p
               /\ ContentBinding.locator (fst (ContentBinding.unbind flags p))
                  = ContentBinding.locator p).
  { unfold ContentBinding.unbind. destruct (ContentBinding.isBound p); split; reflexivity. }
  destruct (ContentBinding.unbind flags p) as [p' e1].
  destruct (InterpolationBinding.unbindParts flags r) as [r' e2].
  cbn in *. destruct Hp as [-> ->]. rewrite IH. reflexivity.
Qed.

(** What [$unbind] of a bound interpolation leaves. *)
Lemma unbind_bound (flags : Z) (s : Scope) (hs : option Scope)
    (w : InterpolationBinding.W) :
  InterpolationBinding.isBound (binding w) = true ->
  let w0 := InterpolationBinding.unbind flags w in
  InterpolationBinding.task (binding w0) = None
  /\ InterpolationBinding.partBindings (binding w0)
     = fst (InterpolationBinding.unbindParts flags
              (InterpolationBinding.partBindings (binding w)))
  /\ InterpolationBinding.staticParts (binding w0)
     = InterpolationBinding.staticParts (binding w)
  /\ InterpolationBinding.targetObserverType (binding w0)
     = InterpolationBinding.targetObserverType (binding w)
  /\ heap w0 = heap w
  /\ length (queue w0) = length (queue w)
  /\ exists ev, log w0 = log w ++ ev /\ Forall (isHook flags s hs) ev.
Proof.
  intros Hb. cbn zeta. unfold InterpolationBinding.unbind. rewrite Hb. cbn.
  pose proof (unbindParts_hooks flags s hs
                (InterpolationBinding.partBindings (binding w))) as Hev.
  destruct (InterpolationBinding.unbindParts _ _) as [ps ev]. cbn in *.
  destruct (InterpolationBinding.task (binding w)); cbn; rewrite ?cancel_length;
    split_and!; try reflexivity; exists ev; split; auto.
Qed.

(** C8.  [$bind] on a binding that is bound to the very scope it is given
    changes nothing: no subscription is added and nothing is written or
    queued.  [$bind] with another scope on a bound binding is [$unbind]
    followed by the bind of an unbound binding, and it ends bound to the
    new scope: the expression is evaluated again in that scope, the value
    is cached, and the target is written (for an interpolation at once or
    through a queued task, as its [updateTarget] decides; for a text
    binding at once).  This holds of [InterpolationBinding],
    [ContentBinding] and [ContentBinding2]. *)
Theorem bind_idempotent_and_rebind (flags : Z) (s : Scope) (hs : option Scope)
    (w : InterpolationBinding.W) (h : Heap) (p : ContentBinding.t)
    (w2 : ContentBinding2.W) :
  (InterpolationBinding.isBound (binding w) = true ->
   (InterpolationBinding.scope (binding w) = Some s ->
    InterpolationBinding.bind flags s hs w = w)
   /\ (InterpolationBinding.scope (binding w) <> Some s ->
       let w' := InterpolationBinding.bind flags s hs w in
       InterpolationBinding.bind flags s hs w
       = InterpolationBinding.bind flags s hs (InterpolationBinding.unbind flags w)
       /\ InterpolationBinding.isBound (binding (InterpolationBinding.unbind flags w))
          = false
       /\ InterpolationBinding.isBound (binding w') = true
       /\ InterpolationBinding.scope (binding w') = Some s
       /\ ContentBinding.value <$> InterpolationBinding.partBindings (binding w')
          = (fun q => evaluate (ContentBinding.sourceExpression q) flags (Some s) hs
                        (ContentBinding.locator q) (heap w))
              <$> InterpolationBinding.partBindings (binding w)
       /\ Forall (fun q => ContentBinding.isBound q = true
                           /\ ContentBinding.scope q = Some s
                           /\ ContentBinding.hostScope q = hs)
            (InterpolationBinding.partBindings (binding w'))
       /\ exists hooks,
            Forall (isHook flags s hs) hooks
            /\ (InterpolationBinding.shouldQueueFlush (binding w) flags = false ->
                log w' = log w ++ hooks
                         ++ [SetValue (InterpolationBinding.render (binding w')) flags])
            /\ (InterpolationBinding.shouldQueueFlush (binding w) flags = true ->
                log w' = log w ++ hooks
                /\ InterpolationBinding.task (binding w') = Some (length (queue w))
                /\ queue w' !! length (queue w)
                   = Some {| TaskQueue.status := TaskQueue.pending;
                             TaskQueue.options := queueTaskOptions;
                             TaskQueue.work :=
                               InterpolationBinding.WriteResult
                                 (InterpolationBinding.render (binding w')) flags |})))
  /\ (ContentBinding.isBound p = true ->
      (ContentBinding.scope p = Some s -> ContentBinding.bind flags s hs h p = (p, []))
      /\ (ContentBinding.scope p <> Some s ->
          let r := ContentBinding.bind flags s hs h p in
          ContentBinding.bind flags s hs h p
          = (fst (ContentBinding.bind flags s hs h (fst (ContentBinding.unbind flags p))),
             snd (ContentBinding.unbind flags p)
             ++ snd (ContentBinding.bind flags s hs h (fst (ContentBinding.unbind flags p))))
          /\ ContentBinding.isBound (fst (ContentBinding.unbind flags p)) = false
          /\ ContentBinding.isBound (fst r) = true
          /\ ContentBinding.scope (fst r) = Some s
          /\ ContentBinding.hostScope (fst r) = hs
          /\ ContentBinding.value (fst r)
             = evaluate (ContentBinding.sourceExpression p) flags (Some s) hs
                 (ContentBinding.locator p) h
          /\ snd r
             = (if hasUnbind (ContentBinding.sourceExpression p)
                then [ExprUnbind flags (ContentBinding.scope p) (ContentBinding.hostScope p)]
                else [])
               ++ (if hasBind (ContentBinding.sourceExpression p)
                   then [ExprBind flags s hs] else [])))
  /\ (ContentBinding2.isBound (binding w2) = true ->
      (ContentBinding2.scope (binding w2) = Some s ->
       ContentBinding2.bind flags s hs w2 = w2)
      /\ (ContentBinding2.scope (binding w2) <> Some s ->
          let w2' := ContentBinding2.bind flags s hs w2 in
          let v := evaluate (ContentBinding2.sourceExpression (binding w2)) flags (Some s)
                     hs (ContentBinding2.locator (binding w2)) (heap w2) in
          ContentBinding2.bind flags s hs w2
          = ContentBinding2.bind flags s hs (ContentBinding2.unbind flags w2)
          /\ ContentBinding2.isBound (binding (ContentBinding2.unbind flags w2)) = false
          /\ ContentBinding2.isBound (binding w2') = true
          /\ ContentBinding2.scope (binding w2') = Some s
          /\ ContentBinding2.hostScope (binding w2') = hs
          /\ ContentBinding2.value (binding w2') = v
          /\ queue w2' = queue w2
          /\ log w2'
             = log w2
               ++ (if hasUnbind (ContentBinding2.sourceExpression (binding w2))
                   then [ExprUnbind flags (ContentBinding2.scope (binding w2))
                           (ContentBinding2.hostScope (binding w2))]
                   else [])
               ++ (if hasBind (ContentBinding2.sourceExpression (binding w2))
                   then [ExprBind flags s hs] else [])
               ++ ContentBinding2.domWrites v v)).
Proof.
  split_and!.
  - intros Hb. split.
    + intros Hs. unfold InterpolationBinding.bind.
      rewrite guard_same by assumption. reflexivity.
    + intros Hne. cbn zeta.
      split; [apply InterpolationBinding_rebind; assumption |].
      split; [apply InterpolationBinding_unbind_unbound |].
      destruct (unbind_bound flags s hs w Hb)
        as (Ht & Hps & Hst & Hty & Hh & Hq & ev & Hlog & Hev).
      rewrite bind_unfold by (apply guard_other; exact Hne). cbn zeta. rewrite Hb.
      set (w0 := InterpolationBinding.unbind flags w) in *.
      assert (Hun : Forall (fun q => ContentBinding.isBound q = false)
                      (InterpolationBinding.partBindings
                         (InterpolationBinding.setBound true (Some s) (binding w0)))).
      { cbn. rewrite Hps. apply unbindParts_all_unbound. }
      destruct (bindParts_fresh flags s hs (heap w0) _ Hun) as (Hl & Hv & Hall & Hbev).
      set (ps' := fst (InterpolationBinding.bindParts flags s hs (heap w0) _)) in *.
      set (ev1 := snd (InterpolationBinding.bindParts flags s hs (heap w0) _)) in *.
      set (w1 := emit ev1 _).
      destruct (updateTarget_keeps_binding VUndefined flags w1) as (Kp & Ks & Kb & Ksc).
      assert (Hr : InterpolationBinding.render
                     (binding (InterpolationBinding.updateTarget VUndefined flags w1))
                   = InterpolationBinding.render (binding w1)).
      { apply render_ext; assumption. }
      assert (Hsq : InterpolationBinding.shouldQueueFlush (binding w1) flags
                    = InterpolationBinding.shouldQueueFlush (binding w) flags).
      { unfold InterpolationBinding.shouldQueueFlush. cbn. rewrite Hty. reflexivity. }
      split_and!.
      * rewrite Kb. reflexivity.
      * rewrite Ksc. reflexivity.
      * rewrite Kp. cbn. fold ps'. rewrite Hv. cbn. rewrite Hps, Hh.
        apply (unbindParts_keeps_expressions
                 (fun e l => evaluate e flags (Some s) hs l (heap w))).
      * rewrite Kp. exact Hall.
      * exists (ev ++ ev1). split_and!.
        -- apply Forall_app. split; [exact Hev |].
           eapply Forall_impl; [exact Hbev |]. cbn. intros e ->. left. reflexivity.
        -- intros Hf. rewrite Hr. rewrite <- Hsq in Hf.
           rewrite updateTarget_immediate by exact Hf. cbn. rewrite Hlog.
           rewrite <- !app_assoc. reflexivity.
        -- intros Hf. rewrite Hr. rewrite <- Hsq in Hf.
           assert (Hi : handleIssued (InterpolationBinding.task (binding w1)) (queue w1)).
           { cbn. rewrite Ht. exact I. }
           destruct (updateTarget_queued VUndefined flags w1 Hi Hf) as (Q1 & Q2 & _ & Q4).
           assert (Hlen : length (queue w1) = length (queue w)) by (cbn; exact Hq).
           rewrite Hlen in Q1, Q2.
           split_and!; [| exact Q2 | exact Q1].
           rewrite Q4. cbn. rewrite Hlog, <- app_assoc. reflexivity.
  - intros Hb. split.
    + intros Hs. unfold ContentBinding.bind.
      rewrite guard_same by assumption. reflexivity.
    + intros Hne. cbn zeta.
      split; [apply ContentBinding_rebind; assumption |].
      split; [apply ContentBinding_unbind_unbound |].
      unfold ContentBinding.bind, ContentBinding.unbind.
      rewrite (guard_other _ _ _ Hne), Hb. cbn.
      destruct (instanceof_Array _); cbn; split_and!; reflexivity.
  - intros Hb. split.
    + intros Hs. unfold ContentBinding2.bind.
      rewrite guard_same by assumption. reflexivity.
    + intros Hne. cbn zeta.
      split; [apply ContentBinding2_rebind; assumption |].
      split; [apply ContentBinding2_unbind_unbound |].
      unfold ContentBinding2.bind, ContentBinding2.unbind, ContentBinding2.updateTarget.
      rewrite (guard_other _ _ _ Hne), Hb. cbn.
      destruct (instanceof_Array _); cbn; split_and!; try reflexivity;
        rewrite <- !app_assoc; reflexivity.
Qed.

End Rebinding.

(** ** After [$unbind] *)

Lemma unbind_parts (flags : Z) (w : InterpolationBinding.W) :
  InterpolationBinding.isBound (binding w) = true ->
  InterpolationBinding.partBindings (binding (InterpolationBinding.unbind flags w))
  = fst (InterpolationBinding.unbindParts flags
           (InterpolationBinding.partBindings (binding w))).
Proof.
  intros Hb. unfold InterpolationBinding.unbind. rewrite Hb. cbn.
  destruct (InterpolationBinding.unbindParts _ _) as [ps ev]. cbn.
  destruct (InterpolationBinding.task (binding w)); reflexivity.
Qed.

(** Once an interpolation binding is unbound, no write is pending for it
    and a change notification to any of its parts writes and queues
    nothing. *)
Lemma InterpolationBinding_unbind_silences `{Enums} (flags : Z)
    (w : InterpolationBinding.W) (i : nat) (newValue oldValue : val) (fl : Z) :
  InterpolationBinding.isBound (binding w) = true ->
  onePending (InterpolationBinding.task (binding w)) (queue w) ->
  let w1 := InterpolationBinding.unbind flags w in
  let w2 := InterpolationBinding.partHandleChange i newValue oldValue fl w1 in
  TaskQueue.pendingHandles (queue w1) = []
  /\ log w2 = log w1 /\ queue w2 = queue w1.
Proof.
  intros Hb Hp. cbn zeta. split; [apply unbind_cancels; assumption |].
  destruct (InterpolationBinding.partBindings
              (binding (InterpolationBinding.unbind flags w)) !! i) as [p |] eqn:Hl.
  - assert (Hu : ContentBinding.isBound p = false).
    { pose proof (unbindParts_all_unbound flags
                    (InterpolationBinding.partBindings (binding w))) as Hall.
      rewrite <- unbind_parts in Hall by exact Hb.
      rewrite List.Forall_forall in Hall. apply Hall.
      apply list_elem_of_In. eapply list_elem_of_lookup_2. exact Hl. }
    destruct (partHandleChange_unbound i newValue oldValue fl _ p Hl Hu) as (H1 & H2 & _).
    split; assumption.
  - unfold InterpolationBinding.partHandleChange. rewrite Hl. split; reflexivity.
Qed.

Lemma updateTarget_writes_concatenation_witness :
  InterpolationBinding.render (binding (boundWorld 64 2 (VStr "X") (VStr "Y"))) = VStr "X and Y"
  /\ log (boundWorld 64 2 (VStr "X") (VStr "Y")) = [SetValue (VStr "X and Y") 2].
Proof.
  split; [| reflexivity].
  exact (proj1 (@updateTarget_writes_concatenation sampleEnums VUndefined 0
                  (boundWorld 64 2 (VStr "X") (VStr "Y")) eq_refl I)).
Defined.

Lemma updateTarget_defers_iff_witness :
  log (@InterpolationBinding.updateTarget sampleEnums VUndefined 2
         (boundWorld 64 2 (VStr "X") (VStr "Y")))
  = [SetValue (VStr "X and Y") 2; SetValue (VStr "X and Y") 2].
Proof.
  exact (proj1 (proj1 (proj2 (proj2
           (@updateTarget_defers_iff sampleEnums VUndefined 2
              (boundWorld 64 2 (VStr "X") (VStr "Y")) I))) eq_refl)).
Defined.

(** C5, as the specification words it, fails.  A binding whose mode is
    one-time has its write deferred like any other when the flags lack
    [fromBind] and the target is layout-affecting; and the write of a
    [$bind] called without [fromBind] is queued, not applied. *)
Lemma one_time_write_is_deferred :
  let w := boundWorld 64 1 (VStr "X") (VStr "Y") in
  let w' := @InterpolationBinding.updateTarget sampleEnums VUndefined 0 w in
  InterpolationBinding.mode (binding w) = BindingMode_oneTime (Enums := sampleEnums)
  /\ log w' = log w
  /\ TaskQueue.pendingHandles (queue w') = [0%nat]
  /\ (let w0 := @InterpolationBinding.bind sampleEnums 0 1%nat None
                  (sampleWorld 64 2 (VStr "X") (VStr "Y")) in
      log w0 = [] /\ TaskQueue.pendingHandles (queue w0) = [0%nat]).
Proof. repeat split. Qed.

(** C6, as the specification words it, fails: on a binding whose mode
    lacks [toView] and whose expression is not a bare property access, a
    notification re-evaluates the expression, yet the record's version is
    not incremented. *)
Lemma version_not_incremented_without_toView :
  let p := boundPart (converted "a") 1 (VStr "X") in
  let out := @ContentBinding.handleChange sampleEnums (VStr "n") VUndefined 0
               (sampleHeap (VStr "Z") VUndefined) p in
  let w := boundText (converted "a") 1 (VStr "X") in
  let w' := @ContentBinding2.handleChange sampleEnums (VStr "n") VUndefined 0
              (setHeap (sampleHeap (VStr "Z") VUndefined) w) in
  @ContentBinding.canOptimize sampleEnums p = false
  /\ snd out = Some (VStr "Z", 0)
  /\ Connectable.version (ContentBinding.obs (fst out))
     = Connectable.version (ContentBinding.obs p)
  /\ @ContentBinding2.canOptimize sampleEnums (binding w) = false
  /\ (TaskQueue.work <$> queue w' !! 0%nat)
     = Some (ContentBinding2.UpdateTarget (VStr "Z") 0)
  /\ Connectable.version (ContentBinding2.obs (binding w'))
     = Connectable.version (ContentBinding2.obs (binding w)).
Proof. repeat split. Qed.

(** C7, as the specification words it, fails on [ContentBinding2]: with 1
    cached and "1" notified, two loosely equal values, the cached value is
    replaced and the text node is written (at once under [fromBind];
    otherwise a write task is queued and writes when the queue flushes). *)
Lemma text_binding_writes_on_loosely_equal_value :
  let w := boundText (accessScope "a") 2 (VNum (Int 1)) in
  let now := @ContentBinding2.handleChange sampleEnums (VStr "1") (VNum (Int 1)) 2 w in
  let later := flush ContentBinding2.run
                 (@ContentBinding2.handleChange sampleEnums (VStr "1") (VNum (Int 1)) 0 w) in
  loose_eq (VStr "1") (ContentBinding2.value (binding w)) = true
  /\ ContentBinding2.value (binding w) = VNum (Int 1)
  /\ log w = [SetTextContent "1"]
  /\ ContentBinding2.value (binding now) = VStr "1"
  /\ log now = [SetTextContent "1"; SetTextContent "1"]
  /\ ContentBinding2.value (binding later) = VStr "1"
  /\ log later = [SetTextContent "1"; SetTextContent "1"].
Proof. repeat split. Qed.

(** ** The scenario of the specification *)

(** ["${a} and ${b}"] with a = "X" and b = "Y" on a layout-affecting
    target: the bind writes "X and Y" at once; a := "Z" queues a write; a
    := "W" before the flush cancels it and queues another; the flush
    writes "W and Y" and nothing else. *)
Example interpolation_scenario :
  let w0 := boundWorld 64 2 (VStr "X") (VStr "Y") in
  let w1 := @InterpolationBinding.partHandleChange sampleEnums 0 (VStr "Z") (VStr "X") 0
              (setHeap (sampleHeap (VStr "Z") (VStr "Y")) w0) in
  let w2 := @InterpolationBinding.partHandleChange sampleEnums 0 (VStr "W") (VStr "Z") 0
              (setHeap (sampleHeap (VStr "W") (VStr "Y")) w1) in
  let w3 := flush InterpolationBinding.run w2 in
  log w0 = [SetValue (VStr "X and Y") 2]
  /\ log w1 = log w0 /\ TaskQueue.pendingHandles (queue w1) = [0%nat]
  /\ log w2 = log w0 /\ TaskQueue.pendingHandles (queue w2) = [1%nat]
  /\ (TaskQueue.status <$> queue w2 !! 0%nat) = Some TaskQueue.canceled
  /\ log w3 = [SetValue (VStr "X and Y") 2; SetValue (VStr "W and Y") 0]
  /\ TaskQueue.pendingHandles (queue w3) = [].
Proof. cbv zeta. split_and!; vm_compute; reflexivity. Qed.

(** ** ContentBinding2 and its task *)

(** [ContentBinding2.$unbind] does not touch the queue nor the handle. *)
Lemma ContentBinding2_unbind_keeps_queue (flags : Z) (w : ContentBinding2.W) :
  queue (ContentBinding2.unbind flags w) = queue w
  /\ ContentBinding2.task (binding (ContentBinding2.unbind flags w))
     = ContentBinding2.task (binding w).
Proof.
  unfold ContentBinding2.unbind.
  destruct (ContentBinding2.isBound (binding w)); split; reflexivity.
Qed.

(** [ContentBinding2.updateTarget] forgets the handle without canceling. *)
Lemma ContentBinding2_updateTarget_keeps_queue (v : val) (flags : Z)
    (w : ContentBinding2.W) :
  queue (ContentBinding2.updateTarget v flags w) = queue w
  /\ ContentBinding2.task (binding (ContentBinding2.updateTarget v flags w)) = None.
Proof. split; reflexivity. Qed.

(** C2 on [ContentBinding2].  A run of [handleChange] calls alone keeps
    one task pending, but [updateTarget] clears the handle without
    canceling the task behind it.  After a change is queued, a collection
    notification (or an unbind followed by a bind) leaves that task
    pending with no handle to it; the next change queues a second task,
    and the flush writes the superseded value before the latest one. *)
Theorem text_binding_leaves_two_tasks_pending :
  (* a is reassigned, the new array is mutated, a is reassigned again *)
  (let w0 := boundText (joined "a") 2 (VObj Arr 7 "1,2") in
   let w1 := @ContentBinding2.handleChange sampleEnums VUndefined VUndefined 0
               (setHeap (sampleHeap (VObj Arr 8 "5") VUndefined) w0) in
   let w2 := @ContentBinding2.handleCollectionChange sampleEnums
               (setHeap (sampleHeap (VObj Arr 8 "5,6") VUndefined) w1) in
   let w3 := @ContentBinding2.handleChange sampleEnums VUndefined VUndefined 0
               (setHeap (sampleHeap (VObj Arr 9 "7") VUndefined) w2) in
   let w4 := flush ContentBinding2.run w3 in
   log w0 = [SetTextContent "1,2"]
   /\ TaskQueue.pendingHandles (queue w1) = [0%nat]
   /\ TaskQueue.pendingHandles (queue w2) = [0%nat]
   /\ ContentBinding2.task (binding w2) = None
   /\ TaskQueue.pendingHandles (queue w3) = [0%nat; 1%nat]
   /\ pendingCount w3 = 2%nat
   /\ log w4 = log w2 ++ [SetTextContent "5"; SetTextContent "7"])
  (* handleChange, $unbind, $bind, handleChange *)
  /\ (let w0 := boundText (accessScope "a") 2 (VStr "X") in
      let w1 := @ContentBinding2.handleChange sampleEnums (VStr "Y") (VStr "X") 0 w0 in
      let w2 := @ContentBinding2.bind sampleEnums 2 1%nat None
                  (ContentBinding2.unbind 0 w1) in
      let w3 := @ContentBinding2.handleChange sampleEnums (VStr "Z") (VStr "X") 0 w2 in
      let w4 := flush ContentBinding2.run w3 in
      TaskQueue.pendingHandles (queue w1) = [0%nat]
      /\ TaskQueue.pendingHandles (queue w2) = [0%nat]
      /\ ContentBinding2.task (binding w2) = None
      /\ TaskQueue.pendingHandles (queue w3) = [0%nat; 1%nat]
      /\ log w4 = log w2 ++ [SetTextContent "Y"; SetTextContent "Z"])
  (* handleChange after handleChange does cancel *)
  /\ (let w0 := boundText (accessScope "a") 2 (VStr "X") in
      let w1 := @ContentBinding2.handleChange sampleEnums (VStr "Y") (VStr "X") 0 w0 in
      let w2 := @ContentBinding2.handleChange sampleEnums (VStr "Z") (VStr "Y") 0 w1 in
      TaskQueue.pendingHandles (queue w2) = [1%nat]
      /\ log (flush ContentBinding2.run w2) = log w0 ++ [SetTextContent "Z"]).
Proof. cbv zeta. split_and!; vm_compute; reflexivity. Qed.

(** C4 on [ContentBinding2].  [$unbind] neither cancels the outstanding
    task nor forgets its handle: a write queued before the unbind is still
    pending after it, and the flush writes to the text node of the unbound
    binding.  (A notification after the unbind does nothing.) *)
Theorem text_unbind_keeps_task_pending :
  let w0 := boundText (accessScope "a") 2 (VStr "X") in
  let w1 := @ContentBinding2.handleChange sampleEnums (VStr "Z") (VStr "X") 0 w0 in
  let w2 := ContentBinding2.unbind 0 w1 in
  let w3 := flush ContentBinding2.run w2 in
  TaskQueue.pendingHandles (queue w1) = [0%nat]
  /\ ContentBinding2.isBound (binding w2) = false
  /\ TaskQueue.pendingHandles (queue w2) = [0%nat]
  /\ ContentBinding2.task (binding w2) = Some 0%nat
  /\ log w2 = [SetTextContent "X"]
  /\ @ContentBinding2.handleChange sampleEnums (VStr "W") (VStr "Z") 0 w2 = w2
  /\ log w3 = [SetTextContent "X"; SetTextContent "Z"]
  /\ ContentBinding2.value (binding w3) = VStr "Z".
Proof. cbv zeta. split_and!; vm_compute; reflexivity. Qed.

(* ===================================================================== *)
(** * Properties of the code around the claims                            *)
(* ===================================================================== *)

(** ** The history helpers *)

Section HistoryProperties.
Import History.

Lemma slice_prefix (l : list val) (i : Z) :
  0 <= i <= len l -> slice l 0 (Some i) = firstn (Z.to_nat i) l.
Proof.
  intros Hi. unfold slice, relativeIndex, len in *. cbn.
  destruct (Z.ltb_spec i 0); [lia |].
  rewrite (Z.min_l 0) by lia. rewrite Z.min_l by lia.
  rewrite Z.sub_0_r. reflexivity.
Qed.

Lemma slice_suffix (l : list val) (i : Z) :
  0 <= i <= len l -> slice l i None = skipn (Z.to_nat i) l.
Proof.
  intros Hi. unfold slice, relativeIndex, len in *.
  destruct (Z.ltb_spec i 0); [lia |].
  rewrite Z.min_l by lia.
  apply firstn_all2. rewrite length_skipn. lia.
Qed.

Lemma item_nth (l : list val) (i : Z) :
  0 <= i -> item l i = nth (Z.to_nat i) l VUndefined.
Proof. intros Hi. unfold item. destruct (Z.ltb_spec i 0); [lia | reflexivity]. Qed.

Lemma split_at (l : list val) (i : nat) :
  (i < length l)%nat -> firstn i l ++ nth i l VUndefined :: skipn (S i) l = l.
Proof.
  intros Hi. destruct (lookup_lt_is_Some_2 l i Hi) as [x Hx].
  rewrite (nth_lookup_Some _ _ _ _ Hx). apply take_drop_middle. exact Hx.
Qed.

Lemma isStateHistory_make (p : list val) (x : val) (f : list val) :
  isStateHistory (make p x f) = negb (isUndefined x).
Proof. unfold isStateHistory. cbn. rewrite !andb_true_r. reflexivity. Qed.

Lemma isStateHistory_inv (h : object) :
  isStateHistory h = true ->
  exists p f, h = make p (present h) f /\ isUndefined (present h) = false.
Proof.
  unfold isStateHistory. destruct h as [[p |] x [f |]]; cbn;
    rewrite ?andb_false_r; try discriminate.
  intros Hx. exists p, f. split; [reflexivity |].
  destruct (isUndefined x); [discriminate | reflexivity].
Qed.

(** Redo: [n] steps forward, within the future. *)
Lemma jump_forward (p : list val) (x : val) (f : list val) (n : Z) :
  isUndefined x = false -> 0 < n <= len f ->
  jump (make p x f) n
  = Returns (make (p ++ [x] ++ firstn (Z.to_nat (n - 1)) f)
               (nth (Z.to_nat (n - 1)) f VUndefined)
               (skipn (Z.to_nat n) f)).
Proof.
  intros Hx Hn. unfold jump. rewrite isStateHistory_make, Hx. cbn [negb].
  destruct (Z.gtb_spec n 0); [| lia].
  unfold jumpToFuture, make. cbn [past future present].
  destruct (Z.ltb_spec (n - 1) 0); [lia |].
  destruct (Z.geb_spec (n - 1) (len f)); [lia |]. cbn [orb].
  rewrite slice_prefix, slice_suffix, item_nth by lia.
  replace (n - 1 + 1) with n by lia. reflexivity.
Qed.

(** Undo: [-n] steps back, within the past. *)
Lemma jump_backward (p : list val) (x : val) (f : list val) (n : Z) :
  isUndefined x = false -> - len p <= n < 0 ->
  jump (make p x f) n
  = Returns (make (firstn (Z.to_nat (len p + n)) p)
               (nth (Z.to_nat (len p + n)) p VUndefined)
               (skipn (S (Z.to_nat (len p + n))) p ++ [x] ++ f)).
Proof.
  intros Hx Hn. unfold jump. rewrite isStateHistory_make, Hx. cbn [negb].
  destruct (Z.gtb_spec n 0); [lia |].
  destruct (Z.ltb_spec n 0); [| lia].
  unfold jumpToPast, make. cbn [past future present].
  destruct (Z.ltb_spec (len p + n) 0); [lia |].
  destruct (Z.geb_spec (len p + n) (len p)); [lia |]. cbn [orb].
  rewrite slice_prefix, slice_suffix, item_nth by lia.
  replace (Z.to_nat (len p + n + 1)) with (S (Z.to_nat (len p + n))) by lia.
  reflexivity.
Qed.

Lemma jump_zero (h : object) : isStateHistory h = true -> jump h 0 = Returns h.
Proof. intros Hh. unfold jump. rewrite Hh. reflexivity. Qed.

Lemma jump_too_far (p : list val) (x : val) (f : list val) (n : Z) :
  isUndefined x = false -> n < - len p \/ len f < n ->
  jump (make p x f) n = Returns (make p x f).
Proof.
  intros Hx Hn. unfold jump. rewrite isStateHistory_make, Hx. cbn [negb].
  destruct (Z.gtb_spec n 0).
  - unfold jumpToFuture, make. cbn [past future present].
    destruct (Z.ltb_spec (n - 1) 0); [reflexivity |].
    destruct (Z.geb_spec (n - 1) (len f)); [reflexivity | unfold len in *; lia].
  - destruct (Z.ltb_spec n 0); [| reflexivity].
    unfold jumpToPast, make. cbn [past future present].
    destruct (Z.ltb_spec (len p + n) 0); [reflexivity | unfold len in *; lia].
Qed.

(** Where a jump within range lands: same timeline, position moved by [n]. *)
Lemma jump_lands (p : list val) (x : val) (f : list val) (n : Z) :
  isUndefined x = false -> - len p <= n <= len f ->
  exists p' x' f',
    jump (make p x f) n = Returns (make p' x' f')
    /\ p' ++ x' :: f' = p ++ x :: f
    /\ len p' = len p + n.
Proof.
  intros Hx Hn.
  destruct (Z.lt_trichotomy n 0) as [Hneg | [-> | Hpos]].
  - eexists _, _, _. split; [apply jump_backward; [exact Hx | lia] |].
    assert (Hi : (Z.to_nat (len p + n) < length p)%nat) by (unfold len in *; lia).
    split.
    + transitivity ((firstn (Z.to_nat (len p + n)) p
                       ++ nth (Z.to_nat (len p + n)) p VUndefined
                          :: skipn (S (Z.to_nat (len p + n))) p) ++ x :: f).
      * rewrite <- app_assoc. reflexivity.
      * rewrite (split_at p _ Hi). reflexivity.
    + unfold len. rewrite length_firstn. unfold len in *. lia.
  - exists p, x, f. split; [| split; [reflexivity | lia]].
    apply jump_zero. rewrite isStateHistory_make, Hx. reflexivity.
  - eexists _, _, _. split; [apply jump_forward; [exact Hx | lia] |].
    assert (Hi : (Z.to_nat (n - 1) < length f)%nat) by (unfold len in *; lia).
    split.
    + cbn. rewrite <- !app_assoc. cbn. do 2 f_equal.
      replace (Z.to_nat n) with (S (Z.to_nat (n - 1))) by lia.
      apply split_at. exact Hi.
    + unfold len. rewrite !length_app, length_firstn. cbn. unfold len in *. lia.
Qed.

(** A history is known by its timeline and the length of its past. *)
Lemma zipper_unique (p1 p2 : list val) (x1 x2 : val) (f1 f2 : list val) :
  p1 ++ x1 :: f1 = p2 ++ x2 :: f2 -> length p1 = length p2 ->
  make p1 x1 f1 = make p2 x2 f2.
Proof.
  intros Heq Hlen. apply app_inj_1 in Heq; [| exact Hlen].
  destruct Heq as [-> Heq]. injection Heq as -> ->. reflexivity.
Qed.

Lemma wellFormed_inv (h : object) :
  wellFormed h ->
  exists p x f, h = make p x f /\ isUndefined x = false
                /\ forallb (fun v => negb (isUndefined v)) (p ++ x :: f) = true.
Proof.
  intros [Hh Hall]. destruct (isStateHistory_inv h Hh) as (p & f & Heq & Hx).
  exists p, (present h), f. split_and!; [exact Heq | exact Hx |].
  rewrite Heq in Hall. exact Hall.
Qed.

Lemma wellFormed_make (p : list val) (x : val) (f : list val) :
  forallb (fun v => negb (isUndefined v)) (p ++ x :: f) = true ->
  wellFormed (make p x f) /\ isUndefined x = false.
Proof.
  intros Hall. assert (Hx : isUndefined x = false).
  { rewrite forallb_app in Hall. apply andb_true_iff in Hall. destruct Hall as [_ Hall].
    cbn in Hall. apply andb_true_iff in Hall. destruct Hall as [Hall _].
    destruct (isUndefined x); [discriminate | reflexivity]. }
  split; [| exact Hx]. split; [| exact Hall].
  rewrite isStateHistory_make, Hx. reflexivity.
Qed.

(** A jump on a well-formed history never throws, never loses or
    reorders a recorded state, and yields a well-formed history. *)
Theorem jump_keeps_timeline_integer (h : object) (n : Z) :
  wellFormed h ->
  exists h', jump h n = Returns h' /\ timeline h' = timeline h /\ wellFormed h'.
Proof.
  intros Hw. destruct (wellFormed_inv h Hw) as (p & x & f & -> & Hx & Hall).
  destruct (Z_le_gt_dec (- len p) n) as [Hlo |];
    [destruct (Z_le_gt_dec n (len f)) as [Hhi |] |].
  - destruct (jump_lands p x f n Hx (conj Hlo Hhi)) as (p' & x' & f' & Hj & Ht & _).
    exists (make p' x' f'). split_and!; [exact Hj | exact Ht |].
    apply wellFormed_make. rewrite Ht. exact Hall.
  - exists (make p x f). split_and!; [apply jump_too_far; [exact Hx | lia] | reflexivity | exact Hw].
  - exists (make p x f). split_and!; [apply jump_too_far; [exact Hx | lia] | reflexivity | exact Hw].
Qed.

(** Within range a jump moves the present by exactly [n] places; a jump
    past either end of the history returns the state as it is. *)
Theorem jump_moves_position_integer (h : object) (p f : list val) (n : Z) :
  isStateHistory h = true -> past h = Some p -> future h = Some f ->
  (- len p <= n <= len f ->
   exists h' p', jump h n = Returns h' /\ past h' = Some p' /\ len p' = len p + n)
  /\ (n < - len p \/ len f < n -> jump h n = Returns h).
Proof.
  intros Hh Hp Hf. destruct (isStateHistory_inv h Hh) as (p0 & f0 & Heq & Hx).
  rewrite Heq in Hp, Hf. cbn in Hp, Hf. injection Hp as ->. injection Hf as ->.
  rewrite Heq. split.
  - intros Hn. destruct (jump_lands p (present h) f n Hx Hn) as (p' & x' & f' & Hj & _ & Hl).
    exists (make p' x' f'), p'. split_and!; [exact Hj | reflexivity | exact Hl].
  - intros Hn. apply jump_too_far; assumption.
Qed.

(** Jumps compose: [n] places and then [m] places is [n + m] places, as
    long as both stops are inside the history; in particular jumping back
    by [n] undoes a jump by [n]. *)
Theorem jump_compose_integer (h : object) (p f : list val) (n m : Z) :
  wellFormed h -> past h = Some p -> future h = Some f ->
  - len p <= n <= len f -> - len p <= n + m <= len f ->
  exists h', jump h n = Returns h'
             /\ jump h' m = jump h (n + m)
             /\ jump h' (- n) = Returns h.
Proof.
  intros Hw Hp Hf Hn Hnm.
  destruct (wellFormed_inv h Hw) as (p0 & x & f0 & -> & Hx & Hall).
  cbn in Hp, Hf. injection Hp as ->. injection Hf as ->.
  destruct (jump_lands p x f n Hx Hn) as (p' & x' & f' & Hj & Ht & Hl).
  exists (make p' x' f'). split; [exact Hj |].
  assert (Hx' : isUndefined x' = false).
  { apply (wellFormed_make p' x' f'). rewrite Ht. exact Hall. }
  assert (Hlen : len p' + 1 + len f' = len p + 1 + len f).
  { apply (f_equal (@length val)) in Ht. rewrite !length_app in Ht. cbn in Ht.
    unfold len. lia. }
  assert (Hgo : forall k, - len p <= n + k <= len f ->
                          jump (make p' x' f') k = jump (make p x f) (n + k)).
  { intros k Hk.
    destruct (jump_lands p' x' f' k Hx') as (p1 & x1 & f1 & Hj1 & Ht1 & Hl1); [lia |].
    destruct (jump_lands p x f (n + k) Hx Hk) as (p2 & x2 & f2 & Hj2 & Ht2 & Hl2).
    rewrite Hj1, Hj2. f_equal. apply zipper_unique.
    - rewrite Ht1, Ht2, Ht. reflexivity.
    - unfold len in *. lia. }
  split.
  - apply Hgo. exact Hnm.
  - rewrite Hgo by (unfold len; lia). replace (n + - n) with 0 by lia.
    apply jump_zero. rewrite isStateHistory_make, Hx. reflexivity.
Qed.


(** Recording a new state drops what could be redone; an undo right
    after it brings the previous present back and leaves the new state as
    the one thing to redo. *)
Theorem nextStateHistory_then_undo (h : object) (p : list val) (x : val) :
  isStateHistory h = true -> past h = Some p -> isUndefined x = false ->
  exists h1,
    nextStateHistory h x = Returns h1
    /\ h1 = make (p ++ [present h]) x []
    /\ jump h1 (-1) = Returns (make p (present h) [x])
    /\ jump h1 1 = Returns h1.
Proof.
  intros Hh Hp Hx. destruct (isStateHistory_inv h Hh) as (p0 & f & Heq & Hx0).
  rewrite Heq in Hp. cbn in Hp. injection Hp as ->.
  exists (make (p ++ [present h]) x []). split_and!.
  - unfold nextStateHistory. rewrite Heq. reflexivity.
  - reflexivity.
  - destruct (jump_lands (p ++ [present h]) x [] (-1) Hx)
      as (p' & x' & f' & Hj & Ht & Hl).
    { unfold len. rewrite length_app. cbn. lia. }
    rewrite Hj. f_equal. apply zipper_unique.
    + rewrite Ht, <- app_assoc. reflexivity.
    + unfold len in Hl. rewrite length_app in Hl. cbn in Hl. lia.
  - apply jump_too_far; [exact Hx | right; unfold len; cbn; lia].
Qed.

(** With a limit that is not negative, [applyLimits] keeps the present,
    the last [limit] past states and the first [limit] future states, so
    neither side is longer than the limit; applying it again changes
    nothing.  What is not a state history is returned as it is. *)
Theorem applyLimits_window_integer (h : object) (p f : list val) (limit : Z) :
  isStateHistory h = true -> past h = Some p -> future h = Some f -> 0 <= limit ->
  applyLimits h limit
  = make (skipn (Z.to_nat (len p - limit)) p) (present h) (firstn (Z.to_nat limit) f)
  /\ len (skipn (Z.to_nat (len p - limit)) p) <= limit
  /\ len (firstn (Z.to_nat limit) f) <= limit
  /\ applyLimits (applyLimits h limit) limit = applyLimits h limit.
Proof.
  intros Hh Hp Hf Hl.
  assert (Hstep : forall h0 p0 f0,
             isStateHistory h0 = true -> past h0 = Some p0 -> future h0 = Some f0 ->
             applyLimits h0 limit
             = make (skipn (Z.to_nat (len p0 - limit)) p0) (present h0)
                 (firstn (Z.to_nat limit) f0)).
  { intros h0 p0 f0 Hh0 Hp0 Hf0. unfold applyLimits. rewrite Hh0, Hp0, Hf0.
    unfold make. f_equal.
    - f_equal. destruct (Z.gtb_spec (len p0) limit).
      + apply slice_suffix. lia.
      + replace (Z.to_nat (len p0 - limit)) with 0%nat by lia. reflexivity.
    - f_equal. destruct (Z.gtb_spec (len f0) limit).
      + apply slice_prefix. lia.
      + symmetry. apply firstn_all2. unfold len in *. lia. }
  assert (Hlp : len (skipn (Z.to_nat (len p - limit)) p) <= limit)
    by (unfold len; rewrite length_skipn; lia).
  assert (Hlf : len (firstn (Z.to_nat limit) f) <= limit)
    by (unfold len; rewrite length_firstn; lia).
  split_and!; [apply Hstep; assumption | exact Hlp | exact Hlf |].
  rewrite (Hstep h p f Hh Hp Hf).
  rewrite (Hstep _ _ _ ltac:(rewrite isStateHistory_make;
                             destruct (isStateHistory_inv h Hh) as (? & ? & _ & ->);
                             reflexivity) eq_refl eq_refl).
  unfold make. cbn [present]. f_equal.
  - f_equal.
    replace (Z.to_nat (len (skipn (Z.to_nat (len p - limit)) p) - limit)) with 0%nat by lia.
    reflexivity.
  - f_equal. apply firstn_all2. rewrite length_firstn. lia.
Qed.

(** With a negative limit, [applyLimits] empties the past and cuts the
    last [-limit] states off the future (all of it when it is shorter). *)
Theorem applyLimits_negative_integer (h : object) (p f : list val) (limit : Z) :
  isStateHistory h = true -> past h = Some p -> future h = Some f -> limit < 0 ->
  applyLimits h limit
  = make [] (present h) (firstn (Z.to_nat (len f + limit)) f).
Proof.
  intros Hh Hp Hf Hl. unfold applyLimits. rewrite Hh, Hp, Hf. unfold make. f_equal.
  - f_equal. destruct (Z.gtb_spec (len p) limit); [| unfold len in *; lia].
    unfold slice, relativeIndex. fold (len p).
    destruct (Z.ltb_spec (len p - limit) 0); [unfold len in *; lia |].
    rewrite Z.min_r by lia. rewrite Z.sub_diag. reflexivity.
  - f_equal. destruct (Z.gtb_spec (len f) limit); [| unfold len in *; lia].
    unfold slice, relativeIndex. fold (len f).
    destruct (Z.ltb_spec limit 0); [| lia].
    change (0 <? 0) with false. cbv iota.
    rewrite Z.min_l by (unfold len; lia). rewrite Z.sub_0_r.
    replace (Z.to_nat (Z.max (len f + limit) 0)) with (Z.to_nat (len f + limit)) by lia.
    reflexivity.
Qed.

Lemma applyLimits_not_history (h : object) (limit : Z) :
  isStateHistory h = false -> applyLimits h limit = h.
Proof. intros Hh. unfold applyLimits. rewrite Hh. reflexivity. Qed.

End HistoryProperties.

Lemma nextStateHistory_then_undo_witness :
  exists h1,
    History.nextStateHistory History.sample (VStr "n") = History.Returns h1
    /\ h1 = History.make ([VStr "a"; VStr "b"] ++ [History.present History.sample])
              (VStr "n") []
    /\ History.jump h1 (-1)
       = History.Returns (History.make [VStr "a"; VStr "b"]
                            (History.present History.sample) [VStr "n"])
    /\ History.jump h1 1 = History.Returns h1.
Proof.
  apply (nextStateHistory_then_undo History.sample [VStr "a"; VStr "b"] (VStr "n"));
    reflexivity.
Defined.

(** ** Numbers that are integers *)

Lemma oddPart_spec (p : positive) (e : Z) :
  e <= snd (Number.oddPart p e)
  /\ Zpos (fst (Number.oddPart p e)) * 2 ^ (snd (Number.oddPart p e) - e) = Zpos p.
Proof.
  revert e. induction p as [p IH | p IH |]; intros e; cbn [Number.oddPart fst snd].
  - rewrite Z.sub_diag. split; lia.
  - destruct (IH (e + 1)) as [Hle Hv]. split; [lia |].
    replace (snd (Number.oddPart p (e + 1)) - e)
      with (Z.succ (snd (Number.oddPart p (e + 1)) - (e + 1))) by lia.
    rewrite Z.pow_succ_r by lia. lia.
  - rewrite Z.sub_diag. split; lia.
Qed.

Lemma finite_spec (m e : Z) :
  exists m' e', Number.finite m e = Number.Finite m' e'
                /\ (m = 0 \/ e <= e') /\ (m = 0 -> e' = 0) /\ m' * 2 ^ (e' - e) = m.
Proof.
  destruct m as [| p | p]; cbn [Number.finite].
  - exists 0, 0. split_and!; auto.
  - pose proof (oddPart_spec p e) as [Hle Hv].
    destruct (Number.oddPart p e) as [q e']. cbn [fst snd] in *.
    exists (Zpos q), e'. split_and!; auto. discriminate.
  - pose proof (oddPart_spec p e) as [Hle Hv].
    destruct (Number.oddPart p e) as [q e']. cbn [fst snd] in *.
    exists (Zneg q), e'. split_and!; auto; [discriminate |].
    change (Z.neg q) with (- Z.pos q). change (Z.neg p) with (- Z.pos p). lia.
Qed.

Lemma finite_double (z e : Z) : Number.finite (2 * z) e = Number.finite z (e + 1).
Proof. destruct z; reflexivity. Qed.

Lemma finite_shift (z e j : Z) :
  0 <= j -> Number.finite (z * 2 ^ j) e = Number.finite z (e + j).
Proof.
  intros Hj. revert e. pattern j. apply natlike_ind; [| | exact Hj].
  - intros e. rewrite Z.mul_1_r, Z.add_0_r. reflexivity.
  - intros k Hk IH e. rewrite Z.pow_succ_r by exact Hk.
    replace (z * (2 * 2 ^ k)) with (2 * (z * 2 ^ k)) by lia.
    rewrite finite_double, IH. f_equal. lia.
Qed.

Lemma neg_finite (m e : Z) : Number.neg (Number.finite m e) = Number.finite (- m) e.
Proof.
  destruct m as [| p | p]; [reflexivity | |].
  - change (- Z.pos p) with (Z.neg p). unfold Number.finite.
    destruct (Number.oddPart p e); reflexivity.
  - change (- Z.neg p) with (Z.pos p). unfold Number.finite.
    destruct (Number.oddPart p e); reflexivity.
Qed.

Lemma roundHalfEven_one (a : Z) : Number.roundHalfEven a 1 = a.
Proof.
  unfold Number.roundHalfEven. rewrite Z.div_1_r, Z.mod_1_r. reflexivity.
Qed.

Lemma nearestPos_integer (z : Z) :
  0 < z <= 2 ^ 53 -> Number.nearestPos z 1 = Number.finite z 0.
Proof.
  intros Hz.
  pose proof (Z.log2_spec z (proj1 Hz)) as [Hlo Hhi].
  pose proof (Z.log2_nonneg z) as Hnn.
  assert (Hle : Z.log2 z <= 53).
  { change 53 with (Z.log2 (2 ^ 53)). apply Z.log2_le_mono. lia. }
  unfold Number.nearestPos, Number.binade, Number.geqPow2.
  change (Z.log2 1) with 0. rewrite Z.sub_0_r.
  rewrite (proj2 (Z.leb_le 0 (Z.log2 z)) Hnn).
  rewrite Z.mul_1_l. rewrite (proj2 (Z.leb_le _ _) Hlo).
  rewrite Z.max_l by lia.
  destruct (Z.eq_dec (Z.log2 z) 53) as [E53 | N53].
  - assert (z = 2 ^ 53).
    { rewrite E53 in Hlo. lia. }
    subst z. vm_compute. reflexivity.
  - destruct (Z.leb_spec 0 (Z.log2 z - 52)) as [Hex | Hex].
    + assert (E : Z.log2 z - 52 = 0) by lia. rewrite E.
      change (1 * 2 ^ 0) with 1. rewrite roundHalfEven_one.
      change (971 <? 0) with false. change (0 =? 971) with false. reflexivity.
    + rewrite roundHalfEven_one.
      destruct (Z.ltb_spec 971 (Z.log2 z - 52)); [lia |].
      destruct (Z.eqb_spec (Z.log2 z - 52) 971); [lia |]. cbn [orb andb].
      rewrite finite_shift by lia. f_equal. lia.
Qed.

(** The integers up to [2^53] in magnitude are Numbers. *)
Lemma ofZ_safe (z : Z) : Z.abs z <= 2 ^ 53 -> Number.ofZ z = Number.finite z 0.
Proof.
  intros Hz. unfold Number.ofZ, Number.nearest. destruct z as [| p | p].
  - reflexivity.
  - apply nearestPos_integer. lia.
  - change (- Z.neg p) with (Z.pos p). rewrite nearestPos_integer by lia.
    rewrite neg_finite. reflexivity.
Qed.

Lemma ofZ_spec (z : Z) :
  Z.abs z <= 2 ^ 53 ->
  exists m e, Number.ofZ z = Number.Finite m e /\ 0 <= e /\ m * 2 ^ e = z.
Proof.
  intros Hz. rewrite ofZ_safe by exact Hz.
  destruct (finite_spec z 0) as (m & e & -> & Hle & Hz0 & Hv).
  exists m, e. rewrite Z.sub_0_r in Hv. split_and!; [reflexivity | | exact Hv].
  destruct Hle as [-> | Hle]; [rewrite Hz0; [lia | reflexivity] | exact Hle].
Qed.

Lemma pow2_split (e1 e : Z) : 0 <= e <= e1 -> 2 ^ (e1 - e) * 2 ^ e = 2 ^ e1.
Proof. intros He. rewrite <- Z.pow_add_r by lia. f_equal. lia. Qed.

Lemma add_ofZ (a b : Z) :
  Z.abs a <= 2 ^ 53 -> Z.abs b <= 2 ^ 53 ->
  Number.add (Number.ofZ a) (Number.ofZ b) = Number.ofZ (a + b).
Proof.
  intros Ha Hb.
  destruct (ofZ_spec a Ha) as (m1 & e1 & -> & He1 & <-).
  destruct (ofZ_spec b Hb) as (m2 & e2 & -> & He2 & <-).
  cbn [Number.add]. rewrite (proj2 (Z.leb_le 0 (Z.min e1 e2))) by lia.
  unfold Number.ofZ. f_equal.
  rewrite Z.mul_add_distr_r, <- !Z.mul_assoc, !pow2_split by lia. reflexivity.
Qed.

Lemma neg_ofZ (a : Z) :
  Z.abs a <= 2 ^ 53 -> Number.neg (Number.ofZ a) = Number.ofZ (- a).
Proof.
  intros Ha. rewrite !ofZ_safe by lia. apply neg_finite.
Qed.

Lemma sub_ofZ (a b : Z) :
  Z.abs a <= 2 ^ 53 -> Z.abs b <= 2 ^ 53 ->
  Number.sub (Number.ofZ a) (Number.ofZ b) = Number.ofZ (a - b).
Proof.
  intros Ha Hb. unfold Number.sub. rewrite neg_ofZ by exact Hb.
  rewrite add_ofZ by lia. reflexivity.
Qed.

Lemma mul_compare (x y p : Z) : 0 < p -> (x * p ?= y * p) = (x ?= y).
Proof.
  intros Hp. destruct (Z.compare_spec x y) as [-> | Hlt | Hgt].
  - apply Z.compare_refl.
  - apply Z.compare_lt_iff. nia.
  - apply Z.compare_gt_iff. nia.
Qed.

Lemma compare_ofZ (a b : Z) :
  Z.abs a <= 2 ^ 53 -> Z.abs b <= 2 ^ 53 ->
  Number.compare (Number.ofZ a) (Number.ofZ b) = Some (a ?= b).
Proof.
  intros Ha Hb.
  destruct (ofZ_spec a Ha) as (m1 & e1 & -> & He1 & <-).
  destruct (ofZ_spec b Hb) as (m2 & e2 & -> & He2 & <-).
  cbn [Number.compare]. f_equal.
  rewrite <- (pow2_split e1 (Z.min e1 e2)), <- (pow2_split e2 (Z.min e1 e2)) by lia.
  rewrite !Z.mul_assoc. symmetry. apply mul_compare.
  apply Z.pow_pos_nonneg; lia.
Qed.

Lemma ltb_ofZ (a b : Z) :
  Z.abs a <= 2 ^ 53 -> Z.abs b <= 2 ^ 53 ->
  Number.ltb (Number.ofZ a) (Number.ofZ b) = (a <? b).
Proof. intros Ha Hb. unfold Number.ltb. rewrite compare_ofZ by assumption. reflexivity. Qed.

Lemma gtb_ofZ (a b : Z) :
  Z.abs a <= 2 ^ 53 -> Z.abs b <= 2 ^ 53 ->
  Number.gtb (Number.ofZ a) (Number.ofZ b) = (a >? b).
Proof.
  intros Ha Hb. unfold Number.gtb. rewrite ltb_ofZ by assumption. symmetry. apply Z.gtb_ltb.
Qed.

Lemma geb_ofZ (a b : Z) :
  Z.abs a <= 2 ^ 53 -> Z.abs b <= 2 ^ 53 ->
  Number.geb (Number.ofZ a) (Number.ofZ b) = (a >=? b).
Proof.
  intros Ha Hb. unfold Number.geb. rewrite compare_ofZ by assumption.
  unfold Z.geb. destruct (a ?= b); reflexivity.
Qed.

Lemma toIntegerOrInfinity_ofZ (z : Z) :
  Z.abs z <= 2 ^ 53 -> Number.toIntegerOrInfinity (Number.ofZ z) = Number.Integer z.
Proof.
  intros Hz. destruct (ofZ_spec z Hz) as (m & e & -> & He & <-).
  cbn. rewrite (proj2 (Z.leb_le 0 e) He). reflexivity.
Qed.

Lemma toInteger_ofZ (z : Z) :
  Z.abs z <= 2 ^ 53 -> Number.toInteger (Number.ofZ z) = Some z.
Proof.
  intros Hz. destruct (ofZ_spec z Hz) as (m & e & -> & He & <-).
  cbn. rewrite (proj2 (Z.leb_le 0 e) He). reflexivity.
Qed.

(** ** The history helpers on Numbers *)

Section NumberHistoryProperties.
Import History.

Lemma relativeIndex_ofZ (n i : Z) :
  Z.abs i <= 2 ^ 53 ->
  NumberHistory.relativeIndex n (Number.ofZ i) = relativeIndex n i.
Proof.
  intros Hi. unfold NumberHistory.relativeIndex.
  rewrite toIntegerOrInfinity_ofZ by exact Hi. reflexivity.
Qed.

Lemma slice_ofZ (l : list val) (a b : Z) :
  Z.abs a <= 2 ^ 53 -> Z.abs b <= 2 ^ 53 ->
  NumberHistory.slice l (Number.ofZ a) (Some (Number.ofZ b)) = slice l a (Some b).
Proof.
  intros Ha Hb. unfold NumberHistory.slice, slice.
  rewrite !relativeIndex_ofZ by assumption. reflexivity.
Qed.

Lemma slice_from_ofZ (l : list val) (a : Z) :
  Z.abs a <= 2 ^ 53 -> NumberHistory.slice l (Number.ofZ a) None = slice l a None.
Proof.
  intros Ha. unfold NumberHistory.slice, slice.
  rewrite !relativeIndex_ofZ by assumption. reflexivity.
Qed.

Lemma item_ofZ (l : list val) (i : Z) :
  Z.abs i <= 2 ^ 53 -> NumberHistory.item l (Number.ofZ i) = item l i.
Proof.
  intros Hi. unfold NumberHistory.item, item. rewrite toInteger_ofZ by exact Hi.
  reflexivity.
Qed.

Lemma zero_ofZ : NumberHistory.zero = Number.ofZ 0.
Proof. reflexivity. Qed.

Lemma one_ofZ : NumberHistory.one = Number.ofZ 1.
Proof. vm_compute. reflexivity. Qed.

Lemma len_nonneg (l : list val) : 0 <= len l.
Proof. unfold len. lia. Qed.

Lemma jumpToFuture_ofZ (p f : list val) (x : val) (index : Z) :
  len f <= 2 ^ 52 -> Z.abs index <= 2 ^ 52 ->
  NumberHistory.jumpToFuture (make p x f) (Number.ofZ index)
  = jumpToFuture (make p x f) index.
Proof.
  intros Hf Hi. unfold NumberHistory.jumpToFuture, jumpToFuture, NumberHistory.length.
  cbn [past future present make].
  pose proof (len_nonneg f).
  rewrite zero_ofZ, one_ofZ.
  rewrite ltb_ofZ, geb_ofZ by lia.
  rewrite add_ofZ by lia.
  rewrite slice_ofZ, slice_from_ofZ, item_ofZ by lia.
  destruct (index <? 0); [reflexivity |]. destruct (index >=? len f); reflexivity.
Qed.

Lemma jumpToPast_ofZ (p f : list val) (x : val) (index : Z) :
  len p <= 2 ^ 52 -> Z.abs index <= 2 ^ 52 ->
  NumberHistory.jumpToPast (make p x f) (Number.ofZ index)
  = jumpToPast (make p x f) index.
Proof.
  intros Hp Hi. unfold NumberHistory.jumpToPast, jumpToPast, NumberHistory.length.
  cbn [past future present make].
  pose proof (len_nonneg p).
  rewrite zero_ofZ, one_ofZ.
  rewrite ltb_ofZ, geb_ofZ by lia.
  rewrite add_ofZ by lia.
  rewrite slice_ofZ, slice_from_ofZ, item_ofZ by lia.
  destruct (index <? 0); [reflexivity |]. destruct (index >=? len p); reflexivity.
Qed.

(** On an integer the functions written for any Number are the
    functions on integers. *)
Lemma jump_ofZ (state : object) (n : Z) :
  match past state with Some p => len p <= 2 ^ 51 | None => True end ->
  match future state with Some f => len f <= 2 ^ 51 | None => True end ->
  Z.abs n <= 2 ^ 51 ->
  NumberHistory.jump state (Number.ofZ n) = jump state n.
Proof.
  intros Hp Hf Hn. unfold NumberHistory.jump, jump, NumberHistory.length.
  destruct (isStateHistory state) eqn:Hh; [| reflexivity]. cbn [negb].
  destruct (isStateHistory_inv state Hh) as (p & f & Heq & _).
  rewrite Heq in Hp, Hf |- *. cbn [past future make] in *.
  pose proof (len_nonneg p).
  rewrite zero_ofZ, one_ofZ.
  rewrite gtb_ofZ, ltb_ofZ by lia.
  destruct (n >? 0) eqn:Hpos.
  - rewrite sub_ofZ by lia. apply jumpToFuture_ofZ; lia.
  - destruct (n <? 0); [| reflexivity].
    rewrite add_ofZ by lia. apply jumpToPast_ofZ; lia.
Qed.

Lemma applyLimits_ofZ (state : object) (limit : Z) :
  match past state with Some p => len p <= 2 ^ 51 | None => True end ->
  match future state with Some f => len f <= 2 ^ 51 | None => True end ->
  Z.abs limit <= 2 ^ 51 ->
  NumberHistory.applyLimits state (Number.ofZ limit) = applyLimits state limit.
Proof.
  intros Hp Hf Hl. unfold NumberHistory.applyLimits, applyLimits, NumberHistory.length.
  destruct (isStateHistory state); [| reflexivity].
  destruct (past state) as [p |]; [| reflexivity].
  destruct (future state) as [f |]; [| reflexivity].
  pose proof (len_nonneg p). pose proof (len_nonneg f).
  rewrite zero_ofZ.
  rewrite !gtb_ofZ by lia. rewrite sub_ofZ by lia.
  rewrite slice_ofZ, slice_from_ofZ by lia.
  reflexivity.
Qed.

Lemma timeline_lengths (h h' : object) (p f p' f' : list val) :
  past h = Some p -> future h = Some f -> past h' = Some p' -> future h' = Some f' ->
  timeline h' = timeline h -> len p' + len f' = len p + len f.
Proof.
  intros Hp Hf Hp' Hf' Ht. unfold timeline in Ht. rewrite Hp, Hf, Hp', Hf' in Ht.
  apply (f_equal (@List.length val)) in Ht. rewrite !length_app in Ht. cbn in Ht.
  unfold len. lia.
Qed.

(** A jump by an integer, on a well-formed history, never throws, never
    loses or reorders a recorded state, and yields a well-formed
    history.  (A jump by a fraction can lose the present, see
    [fractions_are_not_positions].) *)
Theorem jump_keeps_timeline (h : object) (n : Z) :
  wellFormed h ->
  NumberHistory.arrays h ->
  Z.abs n <= 2 ^ 51 ->
  exists h', NumberHistory.jump h (Number.ofZ n) = Returns h'
             /\ timeline h' = timeline h /\ wellFormed h'.
Proof.
  intros Hw Ha Hn.
  destruct (wellFormed_inv h Hw) as (p & x & f & Heq & _).
  unfold NumberHistory.arrays in Ha. rewrite Heq in Ha. cbn in Ha.
  rewrite jump_ofZ by (rewrite ?Heq; cbn; lia).
  apply jump_keeps_timeline_integer. exact Hw.
Qed.

(** Within range a jump by an integer moves the present by exactly [n]
    places; a jump by an integer past either end of the history returns
    the state as it is. *)
Theorem jump_moves_position (h : object) (p f : list val) (n : Z) :
  isStateHistory h = true -> past h = Some p -> future h = Some f ->
  len p < 2 ^ 32 -> len f < 2 ^ 32 -> Z.abs n <= 2 ^ 51 ->
  (- len p <= n <= len f ->
   exists h' p', NumberHistory.jump h (Number.ofZ n) = Returns h'
                 /\ past h' = Some p' /\ len p' = len p + n)
  /\ (n < - len p \/ len f < n -> NumberHistory.jump h (Number.ofZ n) = Returns h).
Proof.
  intros Hh Hp Hf Hlp Hlf Hn.
  rewrite jump_ofZ by (rewrite ?Hp, ?Hf; lia).
  apply jump_moves_position_integer; assumption.
Qed.

(** Jumps by integers compose: [n] places and then [m] places is [n + m]
    places, as long as both stops are inside the history; in particular
    jumping back by [n] undoes a jump by [n]. *)
Theorem jump_compose (h : object) (p f : list val) (n m : Z) :
  wellFormed h -> past h = Some p -> future h = Some f ->
  len p < 2 ^ 32 -> len f < 2 ^ 32 ->
  - len p <= n <= len f -> - len p <= n + m <= len f ->
  exists h', NumberHistory.jump h (Number.ofZ n) = Returns h'
             /\ NumberHistory.jump h' (Number.ofZ m)
                = NumberHistory.jump h (Number.ofZ (n + m))
             /\ NumberHistory.jump h' (Number.ofZ (- n)) = Returns h.
Proof.
  intros Hw Hp Hf Hlp Hlf Hn Hnm.
  pose proof (len_nonneg p). pose proof (len_nonneg f).
  destruct (jump_compose_integer h p f n m Hw Hp Hf Hn Hnm) as (h' & H1 & H2 & H3).
  destruct (jump_keeps_timeline_integer h n Hw) as (h0 & Hj & Ht & Hw').
  rewrite H1 in Hj. injection Hj as <-.
  destruct (wellFormed_inv h' Hw') as (p' & x' & f' & Heq' & _).
  assert (Hp' : past h' = Some p') by (rewrite Heq'; reflexivity).
  assert (Hf' : future h' = Some f') by (rewrite Heq'; reflexivity).
  pose proof (timeline_lengths h h' p f p' f' Hp Hf Hp' Hf' Ht).
  pose proof (len_nonneg p'). pose proof (len_nonneg f').
  exists h'.
  rewrite !(jump_ofZ h) by (rewrite ?Hp, ?Hf; lia).
  rewrite !(jump_ofZ h') by (rewrite ?Hp', ?Hf'; lia).
  split_and!; assumption.
Qed.

(** With a limit that is an integer and not negative, [applyLimits]
    keeps the present, the last [limit] past states and the first [limit]
    future states, so neither side is longer than the limit; applying it
    again changes nothing. *)
Theorem applyLimits_window (h : object) (p f : list val) (limit : Z) :
  isStateHistory h = true -> past h = Some p -> future h = Some f ->
  len p < 2 ^ 32 -> len f < 2 ^ 32 -> 0 <= limit <= 2 ^ 51 ->
  NumberHistory.applyLimits h (Number.ofZ limit)
  = make (skipn (Z.to_nat (len p - limit)) p) (present h) (firstn (Z.to_nat limit) f)
  /\ len (skipn (Z.to_nat (len p - limit)) p) <= limit
  /\ len (firstn (Z.to_nat limit) f) <= limit
  /\ NumberHistory.applyLimits (NumberHistory.applyLimits h (Number.ofZ limit))
       (Number.ofZ limit)
     = NumberHistory.applyLimits h (Number.ofZ limit).
Proof.
  intros Hh Hp Hf Hlp Hlf Hl.
  destruct (applyLimits_window_integer h p f limit Hh Hp Hf (proj1 Hl)) as (E & L1 & L2 & Hid).
  rewrite (applyLimits_ofZ h) by (rewrite ?Hp, ?Hf; lia).
  split_and!; [exact E | exact L1 | exact L2 |].
  rewrite applyLimits_ofZ; [exact Hid | | | lia]; rewrite E; cbn; lia.
Qed.

(** With a limit that is a negative integer, [applyLimits] empties the
    past and cuts the last [-limit] states off the future (all of it when
    it is shorter). *)
Theorem applyLimits_negative (h : object) (p f : list val) (limit : Z) :
  isStateHistory h = true -> past h = Some p -> future h = Some f ->
  len p < 2 ^ 32 -> len f < 2 ^ 32 -> - 2 ^ 51 <= limit < 0 ->
  NumberHistory.applyLimits h (Number.ofZ limit)
  = make [] (present h) (firstn (Z.to_nat (len f + limit)) f).
Proof.
  intros Hh Hp Hf Hlp Hlf Hl.
  rewrite applyLimits_ofZ by (rewrite ?Hp, ?Hf; lia).
  apply (applyLimits_negative_integer h p f limit); [assumption .. | lia].
Qed.

End NumberHistoryProperties.

(** A Number that is not an integer is no position in a history: on
    a, b, [c], d, e a jump by 1.5 leaves the present undefined and loses
    d; a limit of 1.5 keeps both past states; a limit of -0.5 empties
    the future. *)
Example fractions_are_not_positions :
  NumberHistory.jump History.sample (Number.Finite 3 (-1))
  = History.Returns
      (History.make [VStr "a"; VStr "b"; VStr "c"] VUndefined [VStr "e"])
  /\ NumberHistory.applyLimits History.sample (Number.Finite 3 (-1))
     = History.make [VStr "a"; VStr "b"] (VStr "c") [VStr "d"]
  /\ NumberHistory.applyLimits History.sample (Number.Finite (-1) (-1))
     = History.make [] (VStr "c") [].
Proof. split_and!; vm_compute; reflexivity. Qed.

(** On a state history [jump] returns for every Number. *)
Lemma jump_returns_for_every_number (h : History.object) (n : Number.t) :
  History.isStateHistory h = true -> exists h', NumberHistory.jump h n = History.Returns h'.
Proof.
  intros Hh. destruct (isStateHistory_inv h Hh) as (p & f & Heq & _).
  unfold NumberHistory.jump, NumberHistory.jumpToFuture, NumberHistory.jumpToPast.
  rewrite Hh. rewrite Heq. cbn [negb History.past History.future History.make].
  destruct (Number.gtb n NumberHistory.zero).
  - destruct (Number.ltb _ _); [eauto |]. destruct (Number.geb _ _); eauto.
  - destruct (Number.ltb n NumberHistory.zero); [| eauto].
    destruct (Number.ltb _ _); [eauto |]. destruct (Number.geb _ _); eauto.
Qed.

Lemma jump_keeps_timeline_witness :
  exists h', NumberHistory.jump History.sample (Number.ofZ (-2)) = History.Returns h'
             /\ History.timeline h' = History.timeline History.sample
             /\ History.wellFormed h'.
Proof.
  apply jump_keeps_timeline; [split; reflexivity | vm_compute; split; reflexivity | lia].
Defined.

Lemma jump_moves_position_witness :
  NumberHistory.jump History.sample (Number.ofZ 5) = History.Returns History.sample.
Proof.
  apply (proj2 (jump_moves_position History.sample [VStr "a"; VStr "b"]
                  [VStr "d"; VStr "e"] 5 eq_refl eq_refl eq_refl
                  ltac:(reflexivity) ltac:(reflexivity) ltac:(lia))).
  right. reflexivity.
Defined.

Lemma jump_compose_witness :
  exists h', NumberHistory.jump History.sample (Number.ofZ 2) = History.Returns h'
             /\ NumberHistory.jump h' (Number.ofZ (-3))
                = NumberHistory.jump History.sample (Number.ofZ (2 + -3))
             /\ NumberHistory.jump h' (Number.ofZ (- 2)) = History.Returns History.sample.
Proof.
  apply (jump_compose History.sample [VStr "a"; VStr "b"] [VStr "d"; VStr "e"] 2 (-3));
    [split; reflexivity | reflexivity | reflexivity | reflexivity | reflexivity
    | unfold History.len; cbn; lia | unfold History.len; cbn; lia].
Defined.

Lemma applyLimits_window_witness :
  NumberHistory.applyLimits History.sample (Number.ofZ 1)
  = History.make [VStr "b"] (VStr "c") [VStr "d"].
Proof.
  apply (proj1 (applyLimits_window History.sample [VStr "a"; VStr "b"]
                  [VStr "d"; VStr "e"] 1 eq_refl eq_refl eq_refl
                  ltac:(reflexivity) ltac:(reflexivity) ltac:(lia))).
Defined.

Lemma applyLimits_negative_witness :
  NumberHistory.applyLimits History.sample (Number.ofZ (-1))
  = History.make [] (VStr "c") [VStr "d"].
Proof.
  apply (applyLimits_negative History.sample [VStr "a"; VStr "b"]
           [VStr "d"; VStr "e"] (-1) eq_refl eq_refl eq_refl
           ltac:(reflexivity) ltac:(reflexivity) ltac:(lia)).
Defined.

(** ** BatchQueue: [add], [remove] and nested batches *)

Section BatchQueueMore.
Context `{Enums}.
Context {Env : Type} (flushBatch : nat -> Z -> BatchQueue.t Env -> BatchQueue.t Env).

Lemma removeFirst_absent (r : nat) (q : list nat) :
  ~ In r q -> BatchQueue.removeFirst r q = q.
Proof.
  induction q as [| x q IH]; cbn; [reflexivity |].
  intros Hnot. destruct (Nat.eqb_spec x r) as [-> | Hne].
  - exfalso. apply Hnot. left. reflexivity.
  - rewrite IH; [reflexivity |]. intros Hin. apply Hnot. right. exact Hin.
Qed.

Lemma removeFirst_count (r x : nat) (q : list nat) :
  count_occ Nat.eq_dec (BatchQueue.removeFirst r q) x
  = if Nat.eq_dec x r then Nat.pred (count_occ Nat.eq_dec q x)
    else count_occ Nat.eq_dec q x.
Proof.
  induction q as [| y q IH]; cbn.
  - destruct (Nat.eq_dec x r); reflexivity.
  - destruct (Nat.eqb_spec y r) as [-> | Hne].
    + destruct (Nat.eq_dec r x) as [-> | Hrx].
      * destruct (Nat.eq_dec x x); [reflexivity | contradiction].
      * destruct (Nat.eq_dec x r); [congruence | reflexivity].
    + cbn. rewrite IH. destruct (Nat.eq_dec y x) as [-> | Hyx].
      * destruct (Nat.eq_dec x r); [congruence | reflexivity].
      * reflexivity.
Qed.

Lemma removeFirst_app_present (r : nat) (q l : list nat) :
  In r q -> BatchQueue.removeFirst r (q ++ l) = BatchQueue.removeFirst r q ++ l.
Proof.
  induction q as [| x q IH]; cbn; [contradiction |].
  intros Hin. destruct (Nat.eqb_spec x r) as [-> | Hne]; [reflexivity |].
  cbn. rewrite IH; [reflexivity |]. destruct Hin as [-> | Hin]; [contradiction | exact Hin].
Qed.

Lemma removeFirst_app_absent (r : nat) (q : list nat) :
  ~ In r q -> BatchQueue.removeFirst r (q ++ [r]) = q.
Proof.
  induction q as [| x q IH]; cbn.
  - intros _. rewrite Nat.eqb_refl. reflexivity.
  - intros Hnot. destruct (Nat.eqb_spec x r) as [-> | Hne].
    + exfalso. apply Hnot. left. reflexivity.
    + rewrite IH; [reflexivity |]. intros Hin. apply Hnot. right. exact Hin.
Qed.

(** [remove] takes out one occurrence of the requestor, the first, and
    nothing else; on a requestor that is not queued it does nothing.
    [remove] after [add] gives the queue back when the requestor was not
    queued before, and otherwise moves the requestor to the end. *)
Theorem BatchQueue_remove_spec (r : nat) (s : BatchQueue.t Env) :
  (forall x, count_occ Nat.eq_dec (BatchQueue.queue Env (BatchQueue.remove Env r s)) x
             = if Nat.eq_dec x r
               then Nat.pred (count_occ Nat.eq_dec (BatchQueue.queue Env s) x)
               else count_occ Nat.eq_dec (BatchQueue.queue Env s) x)
  /\ (~ In r (BatchQueue.queue Env s) ->
      BatchQueue.remove Env r s = s
      /\ BatchQueue.remove Env r (BatchQueue.add Env r s) = s)
  /\ (In r (BatchQueue.queue Env s) ->
      BatchQueue.queue Env (BatchQueue.remove Env r (BatchQueue.add Env r s))
      = BatchQueue.removeFirst r (BatchQueue.queue Env s) ++ [r])
  /\ BatchQueue.depth Env (BatchQueue.remove Env r s) = BatchQueue.depth Env s.
Proof.
  split_and!.
  - intros x. apply removeFirst_count.
  - intros Hnot. destruct s as [q d e].
    unfold BatchQueue.remove, BatchQueue.add, BatchQueue.setQueue. cbn in *.
    rewrite removeFirst_absent, removeFirst_app_absent by exact Hnot.
    split; reflexivity.
  - intros Hin. cbn. apply removeFirst_app_present. exact Hin.
  - reflexivity.
Qed.


Lemma fold_add_queue (l : list nat) (s : BatchQueue.t Env) :
  BatchQueue.queue Env (fold_left (fun acc x => BatchQueue.add Env x acc) l s)
  = BatchQueue.queue Env s ++ l
  /\ BatchQueue.depth Env (fold_left (fun acc x => BatchQueue.add Env x acc) l s)
     = BatchQueue.depth Env s.
Proof.
  revert s. induction l as [| x l IH]; intros s; cbn.
  - rewrite app_nil_r. split; reflexivity.
  - destruct (IH (BatchQueue.add Env x s)) as [Hq Hd]. rewrite Hq, Hd. cbn.
    rewrite <- app_assoc. split; reflexivity.
Qed.

Lemma flushPass_quiet (flags : Z) (s : BatchQueue.t Env) (lg : list nat) :
  (forall r f s0, BatchQueue.queue Env (flushBatch r f s0) = BatchQueue.queue Env s0
                  /\ BatchQueue.depth Env (flushBatch r f s0) = BatchQueue.depth Env s0) ->
  let out := BatchQueue.flushPass Env flushBatch flags (s, lg) in
  BatchQueue.queue Env (fst out) = []
  /\ BatchQueue.depth Env (fst out) = BatchQueue.depth Env s
  /\ snd out = lg ++ BatchQueue.queue Env s.
Proof.
  intros Hq. cbn zeta. split_and!; [| | apply flushPass_invokes_snapshot].
  - unfold BatchQueue.flushPass. cbn [fst snd].
    generalize (BatchQueue.queue Env s) as batch.
    assert (Hgen : forall batch s0 lg0,
               BatchQueue.queue Env s0 = [] ->
               BatchQueue.queue Env
                 (fst (fold_left (fun acc r => (flushBatch r flags (fst acc), snd acc ++ [r]))
                         batch (s0, lg0))) = []).
    { induction batch as [| r rest IH]; intros s0 lg0 H0; cbn; [exact H0 |].
      apply IH. rewrite (proj1 (Hq r flags s0)). exact H0. }
    intros batch. apply Hgen. reflexivity.
  - unfold BatchQueue.flushPass. cbn [fst snd].
    change (BatchQueue.depth Env s)
      with (BatchQueue.depth Env (BatchQueue.setQueue Env [] s)).
    generalize (BatchQueue.setQueue Env [] s) as s0. generalize lg as lg0.
    induction (BatchQueue.queue Env s) as [| r rest IH]; intros lg0 s0; cbn; [reflexivity |].
    rewrite IH. apply Hq.
Qed.

(** A top-level [inline] whose function adds requestors flushes each of
    them once, in the order added, before it returns, and leaves the
    queue empty, provided the flush callbacks leave the queue alone. *)
Theorem inline_flushes_added (fuel : nat) (added : list nat) (flags : option Z)
    (s : BatchQueue.t Env) (lg : list nat) :
  (forall r f s0, BatchQueue.queue Env (flushBatch r f s0) = BatchQueue.queue Env s0
                  /\ BatchQueue.depth Env (flushBatch r f s0) = BatchQueue.depth Env s0) ->
  BatchQueue.depth Env s = 0 -> BatchQueue.queue Env s = [] ->
  exists s',
    BatchQueue.inline Env flushBatch (S fuel)
      (fun s0 => fold_left (fun acc x => BatchQueue.add Env x acc) added s0) flags (s, lg)
    = Some (s', lg ++ added)
    /\ BatchQueue.queue Env s' = [] /\ BatchQueue.depth Env s' = 0.
Proof.
  intros Hq Hd H0. unfold BatchQueue.inline, BatchQueue.end_. cbn [fst snd].
  set (f := match flags with Some f => f | None => LifecycleFlags_none end).
  set (s1 := BatchQueue.setDepth Env _ _).
  assert (Hs1q : BatchQueue.queue Env s1 = added).
  { unfold s1. cbn. rewrite (proj1 (fold_add_queue added _)). cbn. rewrite H0. reflexivity. }
  assert (Hs1d : BatchQueue.depth Env s1 = 0).
  { unfold s1. cbn. rewrite (proj2 (fold_add_queue added _)). cbn. lia. }
  rewrite Hs1d. cbn [Z.eqb].
  destruct added as [| a rest].
  - exists s1. rewrite process_empty by exact Hs1q. rewrite app_nil_r. auto.
  - rewrite process_step by (cbn [fst]; rewrite Hs1q; discriminate).
    destruct (flushPass_quiet f s1 lg Hq) as (Hpq & Hpd & Hpl).
    rewrite process_empty by exact Hpq.
    exists (fst (BatchQueue.flushPass Env flushBatch f (s1, lg))).
    split_and!; [| exact Hpq | rewrite Hpd; exact Hs1d].
    rewrite <- Hs1q, <- Hpl. destruct (BatchQueue.flushPass _ _ _ _); reflexivity.
Qed.

End BatchQueueMore.

(** ** stringifyState *)

Lemma activated_covers (st : Z) :
  hasFlag st State.activated = true ->
  hasFlag st State.beforeBindCalled = true
  /\ hasFlag st State.activateChildrenCalled = true.
Proof.
  intros Hst. apply (hasFlag_three st 2 4 8) in Hst; [tauto | int32_range ..].
Qed.

Lemma deactivated_covers (st : Z) :
  hasFlag st State.deactivated = true ->
  hasFlag st State.beforeDetachCalled = true
  /\ hasFlag st State.deactivateChildrenCalled = true.
Proof.
  intros Hst. apply (hasFlag_three st 32 64 128) in Hst; [tauto | int32_range ..].
Qed.

Lemma In_existsb (x : string) (l : list string) :
  In x l <-> existsb (String.eqb x) l = true.
Proof.
  rewrite existsb_exists. split.
  - intros Hin. exists x. split; [exact Hin | apply String.eqb_refl].
  - intros (y & Hin & Heq). apply String.eqb_eq in Heq. subst y. exact Hin.
Qed.

(** The facts below, decided flag by flag. *)
Lemma stateNames_checked (st : Z) :
  String.eqb (stringifyState st) "none"
  = negb (hasFlag st State.activating || hasFlag st State.beforeBindCalled
          || hasFlag st State.activateChildrenCalled || hasFlag st State.deactivating
          || hasFlag st State.beforeDetachCalled
          || hasFlag st State.deactivateChildrenCalled
          || hasFlag st State.released || hasFlag st State.disposed)
  /\ existsb (String.eqb "activated") (stateNames st) = hasFlag st State.activated
  /\ (existsb (String.eqb "activated") (stateNames st)
      && (existsb (String.eqb "beforeBindCalled") (stateNames st)
          || existsb (String.eqb "activateChildrenCalled") (stateNames st)))%bool
     = false
  /\ existsb (String.eqb "deactivated") (stateNames st) = hasFlag st State.deactivated
  /\ (existsb (String.eqb "deactivated") (stateNames st)
      && (existsb (String.eqb "beforeDetachCalled") (stateNames st)
          || existsb (String.eqb "deactivateChildrenCalled") (stateNames st)))%bool
     = false
  /\ Nat.leb (length (stateNames st)) 8 = true.
Proof.
  pose proof (activated_covers st) as Ha. pose proof (deactivated_covers st) as Hd.
  revert Ha Hd. unfold stringifyState, stateNames.
  destruct (hasFlag st State.activating), (hasFlag st State.activated),
    (hasFlag st State.beforeBindCalled), (hasFlag st State.activateChildrenCalled),
    (hasFlag st State.deactivating), (hasFlag st State.deactivated),
    (hasFlag st State.beforeDetachCalled), (hasFlag st State.deactivateChildrenCalled),
    (hasFlag st State.released), (hasFlag st State.disposed);
    intros Ha Hd;
    first
      [ vm_compute; repeat split; reflexivity
      | destruct (Ha eq_refl); discriminate
      | destruct (Hd eq_refl); discriminate ].
Qed.

(** [stringifyState] answers "none" exactly for the states that have none
    of the eight named single flags; the two bits that only occur in
    [activated] and [deactivated] do not count, so a state made of those
    bits alone is printed as "none" too. *)
Theorem stringifyState_none_iff (st : Z) :
  stringifyState st = "none"%string <->
  hasFlag st State.activating = false
  /\ hasFlag st State.beforeBindCalled = false
  /\ hasFlag st State.activateChildrenCalled = false
  /\ hasFlag st State.deactivating = false
  /\ hasFlag st State.beforeDetachCalled = false
  /\ hasFlag st State.deactivateChildrenCalled = false
  /\ hasFlag st State.released = false
  /\ hasFlag st State.disposed = false.
Proof.
  destruct (stateNames_checked st) as (Hnone & _).
  rewrite <- String.eqb_eq, Hnone, negb_true_iff, !orb_false_iff. tauto.
Qed.

(** "activated" is printed exactly for the states that pass the
    [activated] test, and then in place of "beforeBindCalled" and
    "activateChildrenCalled", never beside them; likewise "deactivated".
    No state has more than eight names. *)
Theorem stateNames_composites (st : Z) :
  (In "activated"%string (stateNames st) <-> hasFlag st State.activated = true)
  /\ (In "activated"%string (stateNames st) ->
      ~ In "beforeBindCalled"%string (stateNames st)
      /\ ~ In "activateChildrenCalled"%string (stateNames st))
  /\ (In "deactivated"%string (stateNames st) <-> hasFlag st State.deactivated = true)
  /\ (In "deactivated"%string (stateNames st) ->
      ~ In "beforeDetachCalled"%string (stateNames st)
      /\ ~ In "deactivateChildrenCalled"%string (stateNames st))
  /\ (length (stateNames st) <= 8)%nat.
Proof.
  destruct (stateNames_checked st) as (_ & Ha & Hax & Hd & Hdx & Hlen).
  rewrite !In_existsb.
  split_and!.
  - rewrite Ha. reflexivity.
  - intros Hin. rewrite Hin in Hax. cbn [andb] in Hax. apply orb_false_iff in Hax.
    destruct Hax as [H1 H2]. rewrite H1, H2. split; discriminate.
  - rewrite Hd. reflexivity.
  - intros Hin. rewrite Hin in Hdx. cbn [andb] in Hdx. apply orb_false_iff in Hdx.
    destruct Hdx as [H1 H2]. rewrite H1, H2. split; discriminate.
  - apply Nat.leb_le. exact Hlen.
Qed.

(** ** Binding and unbinding an interpolation *)

Section BindingLifecycle.
Context `{Enums}.

(** [$bind] of an interpolation that is not bound, with [fromBind]: each
    part is bound to the scope and caches the value of its expression in
    that scope, and the target receives, at once and once, the static
    parts interleaved with those values. *)
Theorem bind_renders_expressions (flags : Z) (s : Scope) (hs : option Scope)
    (w : InterpolationBinding.W) :
  InterpolationBinding.isBound (binding w) = false ->
  Forall (fun p => ContentBinding.isBound p = false)
    (InterpolationBinding.partBindings (binding w)) ->
  length (InterpolationBinding.staticParts (binding w))
  = S (length (InterpolationBinding.partBindings (binding w))) ->
  band flags LifecycleFlags_fromBind <> 0 ->
  let values :=
    (fun p => evaluate (ContentBinding.sourceExpression p) flags (Some s) hs
                (ContentBinding.locator p) (heap w))
      <$> InterpolationBinding.partBindings (binding w) in
  let w' := InterpolationBinding.bind flags s hs w in
  InterpolationBinding.isBound (binding w') = true
  /\ InterpolationBinding.scope (binding w') = Some s
  /\ ContentBinding.value <$> InterpolationBinding.partBindings (binding w') = values
  /\ Forall (fun p => ContentBinding.isBound p = true
                      /\ ContentBinding.scope p = Some s
                      /\ ContentBinding.hostScope p = hs)
       (InterpolationBinding.partBindings (binding w'))
  /\ queue w' = queue w
  /\ exists hooks,
       Forall (fun e => e = ExprBind flags s hs) hooks
       /\ log w' = log w ++ hooks
                   ++ [SetValue
                         (VStr (concatenation
                                  (InterpolationBinding.staticParts (binding w)) values))
                         flags].
Proof.
  intros Hb Hps Hlen Hfb. cbn zeta.
  rewrite bind_unfold by (rewrite Hb; reflexivity). cbn zeta. rewrite Hb.
  destruct (bindParts_fresh flags s hs (heap w) _ Hps) as (Hl & Hv & Hall & Hev).
  set (ps' := fst (InterpolationBinding.bindParts flags s hs (heap w) _)) in *.
  set (ev := snd (InterpolationBinding.bindParts flags s hs (heap w) _)) in *.
  set (w1 := emit ev _).
  assert (Hq : InterpolationBinding.shouldQueueFlush (binding w1) flags = false).
  { unfold InterpolationBinding.shouldQueueFlush. apply Z.eqb_neq in Hfb.
    rewrite Hfb. reflexivity. }
  rewrite updateTarget_immediate by exact Hq.
  assert (Hr : InterpolationBinding.render (binding w1)
               = VStr (concatenation (InterpolationBinding.staticParts (binding w))
                         (ContentBinding.value <$> ps'))).
  { apply (render_spec (binding w1)). cbn. rewrite Hl. exact Hlen. }
  rewrite Hr, Hv. cbn.
  split_and!; try reflexivity; try assumption.
  exists ev. split; [exact Hev | rewrite <- app_assoc; reflexivity].
Qed.

End BindingLifecycle.

Lemma bind_renders_expressions_witness :
  InterpolationBinding.scope (binding (boundWorld 0 2 (VStr "X") (VStr "Y"))) = Some 1%nat
  /\ ContentBinding.value
       <$> InterpolationBinding.partBindings (binding (boundWorld 0 2 (VStr "X") (VStr "Y")))
     = [VStr "X"; VStr "Y"].
Proof.
  destruct (@bind_renders_expressions sampleEnums 2 1%nat None
              (sampleWorld 0 2 (VStr "X") (VStr "Y")))
    as (_ & Hs & Hv & _).
  - reflexivity.
  - repeat constructor.
  - reflexivity.
  - vm_compute. discriminate.
  - split; [exact Hs | exact Hv].
Defined.

Section UnbindingLifecycle.
Context `{Enums}.

Lemma ContentBinding_unbind_keeps_value (flags : Z) (p : ContentBinding.t) :
  ContentBinding.value (fst (ContentBinding.unbind flags p)) = ContentBinding.value p.
Proof. unfold ContentBinding.unbind. destruct (ContentBinding.isBound p); reflexivity. Qed.

Lemma unbindParts_keeps_values (flags : Z) (ps : list ContentBinding.t) :
  ContentBinding.value <$> fst (InterpolationBinding.unbindParts flags ps)
  = ContentBinding.value <$> ps.
Proof.
  induction ps as [| p r IH]; [reflexivity |]. cbn.
  pose proof (ContentBinding_unbind_keeps_value flags p) as Hp.
  destruct (ContentBinding.unbind flags p) as [p' e1].
  destruct (InterpolationBinding.unbindParts flags r) as [r' e2].
  cbn in *. rewrite Hp, IH. reflexivity.
Qed.

Lemma partValue_values (b1 b2 : InterpolationBinding.t) (i : nat) :
  ContentBinding.value <$> InterpolationBinding.partBindings b1
  = ContentBinding.value <$> InterpolationBinding.partBindings b2 ->
  InterpolationBinding.partValue b1 i = InterpolationBinding.partValue b2 i.
Proof.
  intros Hv. apply (f_equal (fun l => l !! i)) in Hv.
  rewrite !list_lookup_fmap in Hv. unfold InterpolationBinding.partValue.
  destruct (InterpolationBinding.partBindings b1 !! i),
    (InterpolationBinding.partBindings b2 !! i); cbn in Hv; congruence.
Qed.

Lemma concatFrom_values (b1 b2 : InterpolationBinding.t) (n i : nat) (acc : val) :
  ContentBinding.value <$> InterpolationBinding.partBindings b1
  = ContentBinding.value <$> InterpolationBinding.partBindings b2 ->
  InterpolationBinding.staticParts b1 = InterpolationBinding.staticParts b2 ->
  InterpolationBinding.concatFrom b1 i n acc = InterpolationBinding.concatFrom b2 i n acc.
Proof.
  intros Hv Hs. revert i acc. induction n as [| n IH]; intros i acc; cbn; [reflexivity |].
  rewrite (partValue_values b1 b2 i Hv). unfold InterpolationBinding.staticPart.
  rewrite Hs. apply IH.
Qed.

(** The rendered string is a function of the cached values and the static
    parts. *)
Lemma render_values (b1 b2 : InterpolationBinding.t) :
  ContentBinding.value <$> InterpolationBinding.partBindings b1
  = ContentBinding.value <$> InterpolationBinding.partBindings b2 ->
  InterpolationBinding.staticParts b1 = InterpolationBinding.staticParts b2 ->
  InterpolationBinding.render b1 = InterpolationBinding.render b2.
Proof.
  intros Hv Hs. unfold InterpolationBinding.render.
  assert (Hl : length (InterpolationBinding.partBindings b1)
               = length (InterpolationBinding.partBindings b2)).
  { apply (f_equal (@length val)) in Hv. rewrite !length_fmap in Hv. exact Hv. }
  rewrite Hl, (partValue_values b1 b2 0 Hv). unfold InterpolationBinding.staticPart.
  rewrite Hs. destruct (Nat.eqb _ 1); [reflexivity |].
  apply concatFrom_values; assumption.
Qed.

Lemma partHandleCollectionChange_eq (i : nat) (flags : Z) (w : InterpolationBinding.W)
    (p : ContentBinding.t) :
  InterpolationBinding.partBindings (binding w) !! i = Some p ->
  InterpolationBinding.partHandleCollectionChange i flags w
  = InterpolationBinding.updateTarget VUndefined flags w.
Proof.
  intros Hp. unfold InterpolationBinding.partHandleCollectionChange. rewrite Hp. cbn.
  rewrite list_insert_id by exact Hp.
  destruct w as [h [] q lg]. reflexivity.
Qed.

Lemma unbind_keeps_values (flags : Z) (w : InterpolationBinding.W) :
  InterpolationBinding.isBound (binding w) = true ->
  ContentBinding.value
    <$> InterpolationBinding.partBindings (binding (InterpolationBinding.unbind flags w))
  = ContentBinding.value <$> InterpolationBinding.partBindings (binding w).
Proof.
  intros Hb. rewrite (unbind_parts flags w Hb). apply unbindParts_keeps_values.
Qed.

Lemma unbind_fields (flags : Z) (w : InterpolationBinding.W) :
  InterpolationBinding.isBound (binding w) = true ->
  InterpolationBinding.scope (binding (InterpolationBinding.unbind flags w)) = None
  /\ InterpolationBinding.task (binding (InterpolationBinding.unbind flags w)) = None
  /\ InterpolationBinding.staticParts (binding (InterpolationBinding.unbind flags w))
     = InterpolationBinding.staticParts (binding w).
Proof.
  intros Hb. unfold InterpolationBinding.unbind. rewrite Hb. cbn.
  destruct (InterpolationBinding.unbindParts _ _) as [ps ev]. cbn.
  destruct (InterpolationBinding.task (binding w)); repeat split.
Qed.

(** [$unbind] of a bound interpolation unbinds every part and drops the
    scope and the task handle, but the parts keep their cached values:
    the string the binding would render is the one it rendered last. *)
Theorem unbind_keeps_cached_values (flags : Z) (w : InterpolationBinding.W) :
  InterpolationBinding.isBound (binding w) = true ->
  let w' := InterpolationBinding.unbind flags w in
  InterpolationBinding.isBound (binding w') = false
  /\ InterpolationBinding.scope (binding w') = None
  /\ InterpolationBinding.task (binding w') = None
  /\ Forall (fun p => ContentBinding.isBound p = false)
       (InterpolationBinding.partBindings (binding w'))
  /\ ContentBinding.value <$> InterpolationBinding.partBindings (binding w')
     = ContentBinding.value <$> InterpolationBinding.partBindings (binding w)
  /\ InterpolationBinding.render (binding w') = InterpolationBinding.render (binding w).
Proof.
  intros Hb. cbn zeta.
  destruct (unbind_fields flags w Hb) as (Hs & Ht & Hst).
  split_and!.
  - apply InterpolationBinding_unbind_unbound.
  - exact Hs.
  - exact Ht.
  - rewrite (unbind_parts flags w Hb). apply unbindParts_all_unbound.
  - apply unbind_keeps_values. exact Hb.
  - apply render_values; [apply unbind_keeps_values; exact Hb | exact Hst].
Qed.

(** [handleCollectionChange] of a part is not guarded by [isBound]: on an
    interpolation that is not bound, as [$unbind] leaves it, a collection
    notification to a part still makes the owner write.  The owner writes
    the string it renders at that moment from the values its parts cache:
    at once to a target that is not layout-affecting (or with
    [fromBind]), and through a queued task otherwise.  The binding stays
    unbound. *)
Theorem collection_change_after_unbind_writes (fl : Z) (i : nat)
    (w : InterpolationBinding.W) :
  InterpolationBinding.isBound (binding w) = false ->
  InterpolationBinding.task (binding w) = None ->
  (i < length (InterpolationBinding.partBindings (binding w)))%nat ->
  let w' := InterpolationBinding.partHandleCollectionChange i fl w in
  InterpolationBinding.isBound (binding w') = false
  /\ (InterpolationBinding.shouldQueueFlush (binding w) fl = false ->
      log w' = log w ++ [SetValue (InterpolationBinding.render (binding w)) fl]
      /\ queue w' = queue w)
  /\ (InterpolationBinding.shouldQueueFlush (binding w) fl = true ->
      log w' = log w
      /\ InterpolationBinding.task (binding w') = Some (length (queue w))
      /\ queue w' !! length (queue w)
         = Some {| TaskQueue.status := TaskQueue.pending;
                   TaskQueue.options := queueTaskOptions;
                   TaskQueue.work :=
                     InterpolationBinding.WriteResult
                       (InterpolationBinding.render (binding w)) fl |}).
Proof.
  intros Hb Ht Hi. cbn zeta.
  destruct (lookup_lt_is_Some_2 _ _ Hi) as [p Hp].
  rewrite (partHandleCollectionChange_eq i fl _ p Hp).
  split_and!.
  - destruct (updateTarget_keeps_binding VUndefined fl w) as (_ & _ & Kb & _).
    rewrite Kb. exact Hb.
  - intros Hq. rewrite updateTarget_immediate by exact Hq. split; reflexivity.
  - intros Hq.
    assert (Hh : handleIssued (InterpolationBinding.task (binding w)) (queue w)).
    { rewrite Ht. exact I. }
    destruct (updateTarget_queued VUndefined fl w Hh Hq) as (Q1 & Q2 & _ & Q4).
    split_and!; assumption.
Qed.

(** [$unbind] of what is not bound changes nothing, so a second [$unbind]
    is idle; this holds of the three binding classes. *)
Theorem unbind_idempotent (f1 f2 : Z) (w : InterpolationBinding.W) (p : ContentBinding.t)
    (w2 : ContentBinding2.W) :
  InterpolationBinding.unbind f2 (InterpolationBinding.unbind f1 w)
  = InterpolationBinding.unbind f1 w
  /\ ContentBinding.unbind f2 (fst (ContentBinding.unbind f1 p))
     = (fst (ContentBinding.unbind f1 p), [])
  /\ ContentBinding2.unbind f2 (ContentBinding2.unbind f1 w2)
     = ContentBinding2.unbind f1 w2.
Proof.
  split_and!.
  - unfold InterpolationBinding.unbind at 1.
    rewrite InterpolationBinding_unbind_unbound. reflexivity.
  - unfold ContentBinding.unbind at 1.
    rewrite ContentBinding_unbind_unbound. reflexivity.
  - unfold ContentBinding2.unbind at 1.
    rewrite ContentBinding2_unbind_unbound. reflexivity.
Qed.

(** Whatever the parts hold, [updateTarget] hands a string to the target
    as soon as the interpolation has a first static part. *)
Theorem render_is_string (b : InterpolationBinding.t) :
  InterpolationBinding.staticParts b <> [] ->
  exists s, InterpolationBinding.render b = VStr s.
Proof.
  intros Hne. destruct (InterpolationBinding.staticParts b) as [| s0 ss] eqn:Hs;
    [contradiction |].
  assert (Hloop : forall n i acc,
             exists s, InterpolationBinding.concatFrom b i n (VStr acc) = VStr s).
  { induction n as [| n IH]; intros i acc; cbn [InterpolationBinding.concatFrom];
      [eexists; reflexivity |].
    rewrite add_str_l. apply IH. }
  unfold InterpolationBinding.render.
  assert (H0 : InterpolationBinding.staticPart b 0 = VStr s0).
  { unfold InterpolationBinding.staticPart. rewrite Hs. reflexivity. }
  rewrite H0. destruct (Nat.eqb _ 1); [| apply Hloop].
  rewrite add_str_l, add_str_l. eexists. reflexivity.
Qed.

End UnbindingLifecycle.

(** ** The text binding: first write and deferred write *)

Section TextBindingLifecycle.
Context `{Enums}.

Lemma textContent_app (init : string) (w : ContentBinding2.W) (es : list Event) :
  ContentBinding2.textContent init (emit es w)
  = fold_left (fun acc e => match e with SetTextContent s => s | _ => acc end) es
      (ContentBinding2.textContent init w).
Proof. unfold ContentBinding2.textContent. cbn. apply fold_left_app. Qed.

Lemma domWrites_text (old v : val) (before : string) :
  fold_left (fun acc e => match e with SetTextContent s => s | _ => acc end)
    (ContentBinding2.domWrites old v) before
  = if instanceof_Node v then ""%string else to_string v.
Proof.
  unfold ContentBinding2.domWrites. rewrite fold_left_app.
  destruct v as [| | | | | [] ref prim]; reflexivity.
Qed.

Lemma ContentBinding2_unbind_effects (flags : Z) (w : ContentBinding2.W) :
  queue (ContentBinding2.unbind flags w) = queue w
  /\ heap (ContentBinding2.unbind flags w) = heap w
  /\ ContentBinding2.sourceExpression (binding (ContentBinding2.unbind flags w))
     = ContentBinding2.sourceExpression (binding w)
  /\ ContentBinding2.locator (binding (ContentBinding2.unbind flags w))
     = ContentBinding2.locator (binding w)
  /\ exists ev, log (ContentBinding2.unbind flags w) = log w ++ ev
                /\ Forall (fun e => exists sc hs0, e = ExprUnbind flags sc hs0) ev.
Proof.
  unfold ContentBinding2.unbind.
  destruct (ContentBinding2.isBound (binding w)); cbn.
  - split_and!; try reflexivity. eexists. split; [reflexivity |].
    destruct (hasUnbind _); repeat constructor. eauto.
  - split_and!; try reflexivity. exists []. rewrite app_nil_r. split; [reflexivity | constructor].
Qed.

(** [$bind] of a text binding writes at once whatever the flags are, and
    queues nothing: the binding caches the value of its expression and
    the node's text is that value as a string (or empty, when the value
    is a node, which is placed before the text node).  The cached value
    is replaced before the write, so a node inserted for an earlier value
    is not removed by [$bind]. *)
Theorem ContentBinding2_bind_writes_now (flags : Z) (s : Scope) (hs : option Scope)
    (init : string) (w : ContentBinding2.W) :
  (ContentBinding2.isBound (binding w)
   && bool_decide (ContentBinding2.scope (binding w) = Some s))%bool = false ->
  let v := evaluate (ContentBinding2.sourceExpression (binding w)) flags (Some s) hs
             (ContentBinding2.locator (binding w)) (heap w) in
  let w' := ContentBinding2.bind flags s hs w in
  queue w' = queue w
  /\ ContentBinding2.isBound (binding w') = true
  /\ ContentBinding2.scope (binding w') = Some s
  /\ ContentBinding2.value (binding w') = v
  /\ ContentBinding2.task (binding w') = None
  /\ (exists hooks,
        log w' = log w ++ hooks ++ ContentBinding2.domWrites v v
        /\ Forall (fun e => e = ExprBind flags s hs
                            \/ exists sc hs0, e = ExprUnbind flags sc hs0) hooks)
  /\ ContentBinding2.textContent init w'
     = if instanceof_Node v then ""%string else to_string v.
Proof.
  intros Hg. cbn zeta.
  destruct (ContentBinding2_unbind_effects flags w) as (Hq & Hh & He & Hl & ev & Hlog & Hev).
  assert (Hpre : exists w0 ev0,
             w0 = (if ContentBinding2.isBound (binding w)
                   then ContentBinding2.unbind flags w else w)
             /\ queue w0 = queue w /\ heap w0 = heap w
             /\ ContentBinding2.sourceExpression (binding w0)
                = ContentBinding2.sourceExpression (binding w)
             /\ ContentBinding2.locator (binding w0) = ContentBinding2.locator (binding w)
             /\ log w0 = log w ++ ev0
             /\ Forall (fun e => exists sc hs0, e = ExprUnbind flags sc hs0) ev0).
  { destruct (ContentBinding2.isBound (binding w)).
    - exists (ContentBinding2.unbind flags w), ev. split_and!; auto.
    - exists w, []. rewrite app_nil_r. split_and!; auto. }
  destruct Hpre as (w0 & ev0 & Hw0 & Hq0 & Hh0 & He0 & Hl0 & Hlog0 & Hev0).
  unfold ContentBinding2.bind. rewrite Hg, <- Hw0. cbn [ContentBinding2.setBound
    ContentBinding2.sourceExpression ContentBinding2.locator].
  rewrite He0, Hl0, Hh0.
  set (v := evaluate _ flags (Some s) hs _ (heap w)).
  set (ev1 := if hasBind _ then [ExprBind flags s hs] else []).
  assert (Hev1 : Forall (fun e => e = ExprBind flags s hs
                                  \/ exists sc hs0, e = ExprUnbind flags sc hs0)
                   (ev0 ++ ev1)).
  { apply Forall_app. split.
    - eapply Forall_impl; [exact Hev0 |]. cbn. intros e He'. right. exact He'.
    - unfold ev1. destruct (hasBind _); repeat constructor. }
  assert (Hval : forall b3 : ContentBinding2.t,
             ContentBinding2.value b3 = v ->
             let w' := ContentBinding2.updateTarget v flags (emit ev1 (setBinding b3 w0)) in
             queue w' = queue w
             /\ ContentBinding2.isBound (binding w') = ContentBinding2.isBound b3
             /\ ContentBinding2.scope (binding w') = ContentBinding2.scope b3
             /\ ContentBinding2.value (binding w') = v
             /\ ContentBinding2.task (binding w') = None
             /\ (exists hooks,
                   log w' = log w ++ hooks ++ ContentBinding2.domWrites v v
                   /\ Forall (fun e => e = ExprBind flags s hs
                                       \/ exists sc hs0, e = ExprUnbind flags sc hs0) hooks)
             /\ ContentBinding2.textContent init w'
                = if instanceof_Node v then ""%string else to_string v).
  { intros b3 Hv3. cbn zeta. unfold ContentBinding2.updateTarget.
    rewrite textContent_app, domWrites_text. cbn. rewrite Hv3, Hlog0.
    split_and!; try reflexivity; try assumption.
    exists (ev0 ++ ev1). split; [rewrite <- !app_assoc; reflexivity | exact Hev1]. }
  destruct (instanceof_Array v); apply Hval; reflexivity.
Qed.

Lemma ContentBinding2_handleChange_queue (newValue oldValue : val) (flags : Z)
    (w : ContentBinding2.W) :
  ContentBinding2.isBound (binding w) = true ->
  strict_eq (fst (ContentBinding2.refresh newValue flags (heap w) (binding w)))
    (ContentBinding2.value (binding w)) = false ->
  band flags LifecycleFlags_fromBind = 0 ->
  onePending (ContentBinding2.task (binding w)) (queue w) ->
  onePending (Some (length (queue w)))
    (queue (ContentBinding2.handleChange newValue oldValue flags w)).
Proof.
  intros Hb Heq Hfb Hp. unfold ContentBinding2.handleChange. rewrite Hb. cbn [negb].
  destruct (refresh2_keeps newValue flags (heap w) (binding w)) as (Hv & Ht & _).
  destruct (ContentBinding2.refresh newValue flags (heap w) (binding w)) as [v b1].
  cbn in *. rewrite Hv, Heq. apply Z.eqb_eq in Hfb. rewrite Hfb. rewrite Ht.
  pose proof (onePending_cancel _ _ Hp) as Hc. unfold onePending in *.
  destruct (ContentBinding2.task (binding w)) as [old |]; cbn.
  - pose proof (pendingHandles_queueTask (ContentBinding2.UpdateTarget v flags)
                  queueTaskOptions (TaskQueue.cancel old (queue w))) as Hq.
    etransitivity; [exact Hq |]. rewrite Hc, cancel_length. reflexivity.
  - pose proof (pendingHandles_queueTask (ContentBinding2.UpdateTarget v flags)
                  queueTaskOptions (queue w)) as Hq.
    etransitivity; [exact Hq |]. rewrite Hc. reflexivity.
Qed.

(** A change notified to a bound text binding without [fromBind] is
    applied by the next flush: provided the task the binding holds is the
    only pending one, after the flush the binding caches the new value,
    the node was written once with it, and nothing is pending. *)
Theorem ContentBinding2_change_applied_at_flush (newValue oldValue : val) (flags : Z)
    (w : ContentBinding2.W) :
  ContentBinding2.isBound (binding w) = true ->
  strict_eq (fst (ContentBinding2.refresh newValue flags (heap w) (binding w)))
    (ContentBinding2.value (binding w)) = false ->
  band flags LifecycleFlags_fromBind = 0 ->
  onePending (ContentBinding2.task (binding w)) (queue w) ->
  let v := fst (ContentBinding2.refresh newValue flags (heap w) (binding w)) in
  let w1 := ContentBinding2.handleChange newValue oldValue flags w in
  let w2 := flush ContentBinding2.run w1 in
  log w1 = log w
  /\ ContentBinding2.value (binding w2) = v
  /\ ContentBinding2.task (binding w2) = None
  /\ TaskQueue.pendingHandles (queue w2) = []
  /\ log w2 = log w ++ ContentBinding2.domWrites (ContentBinding2.value (binding w)) v.
Proof.
  intros Hb Heq Hfb Hp. cbn zeta.
  destruct (handleChange2_queued newValue oldValue flags w Hb Heq Hfb)
    as (Hlog & Hval & Htask & Hl).
  pose proof (ContentBinding2_handleChange_queue newValue oldValue flags w Hb Heq Hfb Hp)
    as Hp1.
  unfold flush. rewrite (flushOrder_onePending _ _ Hp1). cbn [fold_left].
  unfold runTask. rewrite Hl.
  cbn [TaskQueue.isPending TaskQueue.status TaskQueue.work ContentBinding2.run].
  split_and!.
  - exact Hlog.
  - reflexivity.
  - reflexivity.
  - transitivity (TaskQueue.pendingHandles
                    (TaskQueue.complete (length (queue w))
                       (queue (ContentBinding2.handleChange newValue oldValue flags w))));
      [reflexivity |].
    rewrite pendingHandles_complete. unfold onePending in Hp1. rewrite Hp1. cbn.
    rewrite Nat.eqb_refl. reflexivity.
  - unfold ContentBinding2.updateTarget. cbn. rewrite Hval, Hlog. reflexivity.
Qed.

End TextBindingLifecycle.

(** ** The target subscriber does not echo *)

(** When [updateSource] stores the value, so that the source expression
    then evaluates to it, a second notification of the same value changes
    nothing: the source is updated once.  A value that is not strictly
    equal to itself (NaN) updates the source at every notification. *)
Theorem BindingTargetSubscriber_no_echo (b : BindingTargetSubscriber.ITwoWayBindingImpl)
    (value old : val) (flags : Z) (s : BindingTargetSubscriber.state) :
  let eval := fun h =>
    evaluate (BindingTargetSubscriber.sourceExpression b) flags
      (BindingTargetSubscriber.scope b) (BindingTargetSubscriber.hostScope b)
      (BindingTargetSubscriber.locator b) h in
  (forall h, strict_eq value
               (eval (BindingTargetSubscriber.updateSource b value flags h)) = true) ->
  let s1 := BindingTargetSubscriber.handleChange b value old flags s in
  BindingTargetSubscriber.handleChange b value old flags s1 = s1
  /\ (forall s0 o,
        BindingTargetSubscriber.calls
          (BindingTargetSubscriber.handleChange b (VNum NaN) o flags s0)
        = BindingTargetSubscriber.calls s0 ++ [UpdateSource (VNum NaN) flags]).
Proof.
  cbn zeta. intros Hstore. cbv beta in Hstore. split.
  - unfold BindingTargetSubscriber.handleChange.
    destruct (strict_eq value
                (evaluate (BindingTargetSubscriber.sourceExpression b) flags
                   (BindingTargetSubscriber.scope b) (BindingTargetSubscriber.hostScope b)
                   (BindingTargetSubscriber.locator b) (BindingTargetSubscriber.heap s)))
      eqn:Heq; cbn [negb].
    + rewrite Heq. reflexivity.
    + cbn [BindingTargetSubscriber.heap]. rewrite Hstore. reflexivity.
  - intros s0 o. unfold BindingTargetSubscriber.handleChange.
    assert (Hnan : forall x, strict_eq (VNum NaN) x = false).
    { intros [| | | [] | |]; reflexivity. }
    rewrite Hnan. reflexivity.
Qed.

(** ** Concrete runs of the properties above *)

Lemma unbind_keeps_cached_values_witness :
  InterpolationBinding.render
    (binding (InterpolationBinding.unbind 0 (boundWorld 64 2 (VStr "X") (VStr "Y"))))
  = InterpolationBinding.render (binding (boundWorld 64 2 (VStr "X") (VStr "Y"))).
Proof.
  apply (unbind_keeps_cached_values 0 (boundWorld 64 2 (VStr "X") (VStr "Y"))).
  reflexivity.
Defined.

Lemma collection_change_after_unbind_writes_witness :
  InterpolationBinding.isBound
    (binding (@InterpolationBinding.partHandleCollectionChange sampleEnums 0 0
                (InterpolationBinding.unbind 0 (boundWorld 0 2 (VStr "X") (VStr "Y")))))
  = false
  /\ log (@InterpolationBinding.partHandleCollectionChange sampleEnums 0 0
            (InterpolationBinding.unbind 0 (boundWorld 0 2 (VStr "X") (VStr "Y"))))
     = [SetValue (VStr "X and Y") 2; SetValue (VStr "X and Y") 0].
Proof.
  destruct (@collection_change_after_unbind_writes sampleEnums 0 0%nat
              (InterpolationBinding.unbind 0 (boundWorld 0 2 (VStr "X") (VStr "Y"))))
    as (Hb & Hnow & _).
  - reflexivity.
  - reflexivity.
  - vm_compute. lia.
  - split; [exact Hb |]. destruct Hnow as [Hl _]; [reflexivity |].
    rewrite Hl. reflexivity.
Defined.

Lemma render_is_string_witness :
  exists s, InterpolationBinding.render (sampleInterpolation 64 2) = VStr s.
Proof. apply render_is_string. discriminate. Defined.

Lemma ContentBinding2_bind_writes_now_witness :
  ContentBinding2.textContent "old" (boundText (accessScope "a") 2 (VNum (Int 7)))
  = "7"%string.
Proof.
  apply (@ContentBinding2_bind_writes_now sampleEnums 2 1%nat None "old"
           {| heap := sampleHeap (VNum (Int 7)) VUndefined;
              binding := sampleText (accessScope "a") 2;
              queue := []; log := [] |}).
  reflexivity.
Defined.

Lemma ContentBinding2_change_applied_at_flush_witness :
  let w := boundText (accessScope "a") 2 (VStr "X") in
  log (flush ContentBinding2.run
         (@ContentBinding2.handleChange sampleEnums (VStr "Z") (VStr "X") 0 w))
  = log w ++ ContentBinding2.domWrites (VStr "X") (VStr "Z").
Proof.
  cbv zeta.
  apply (@ContentBinding2_change_applied_at_flush sampleEnums (VStr "Z") (VStr "X") 0
           (boundText (accessScope "a") 2 (VStr "X")));
    reflexivity.
Defined.

Lemma BindingTargetSubscriber_no_echo_witness :
  let b := {| BindingTargetSubscriber.sourceExpression := accessScope "a";
              BindingTargetSubscriber.scope := Some 1%nat;
              BindingTargetSubscriber.hostScope := None;
              BindingTargetSubscriber.locator := 0%nat;
              BindingTargetSubscriber.updateSource := fun v _ h => assign 1 "a" v h |} in
  let s := {| BindingTargetSubscriber.heap := sampleHeap (VStr "X") VUndefined;
              BindingTargetSubscriber.calls := [] |} in
  BindingTargetSubscriber.handleChange b (VStr "typed") (VStr "X") 0
    (BindingTargetSubscriber.handleChange b (VStr "typed") (VStr "X") 0 s)
  = BindingTargetSubscriber.handleChange b (VStr "typed") (VStr "X") 0 s.
Proof.
  cbv zeta.
  apply (BindingTargetSubscriber_no_echo
           {| BindingTargetSubscriber.sourceExpression := accessScope "a";
              BindingTargetSubscriber.scope := Some 1%nat;
              BindingTargetSubscriber.hostScope := None;
              BindingTargetSubscriber.locator := 0%nat;
              BindingTargetSubscriber.updateSource := fun v _ h => assign 1 "a" v h |}
           (VStr "typed") (VStr "X") 0).
  intros h. reflexivity.
Defined.

Lemma InterpolationBinding_at_most_one_pending_witness :
  (pendingCount
     (fold_left (fun acc op => @exec sampleEnums op acc)
        [OpBind 2 1%nat None;
         OpPartChange 0 (VStr "Z") (VStr "X") 0;
         OpPartChange 1 (VStr "W") (VStr "Y") 0;
         OpPartCollectionChange 0 0]
        (sampleWorld 64 2 (VStr "X") (VStr "Y"))) <= 1)%nat.
Proof.
  apply (@InterpolationBinding_at_most_one_pending sampleEnums
           [OpBind 2 1%nat None;
            OpPartChange 0 (VStr "Z") (VStr "X") 0;
            OpPartChange 1 (VStr "W") (VStr "Y") 0;
            OpPartCollectionChange 0 0]
           (sampleWorld 64 2 (VStr "X") (VStr "Y"))).
  reflexivity.
Defined.

Lemma InterpolationBinding_last_write_wins_witness :
  let w := @InterpolationBinding.updateTarget sampleEnums VUndefined 0
             (boundWorld 64 2 (VStr "X") (VStr "Y")) in
  log (flush InterpolationBinding.run
         (@InterpolationBinding.updateTarget sampleEnums VUndefined 0 w))
  = log w ++ [SetValue (InterpolationBinding.render (binding w)) 0].
Proof.
  cbv zeta.
  apply (@InterpolationBinding_last_write_wins sampleEnums VUndefined 0
           (@InterpolationBinding.updateTarget sampleEnums VUndefined 0
              (boundWorld 64 2 (VStr "X") (VStr "Y"))));
    reflexivity.
Defined.

Lemma InterpolationBinding_unbind_silences_witness :
  let w := @InterpolationBinding.updateTarget sampleEnums VUndefined 0
             (boundWorld 64 2 (VStr "X") (VStr "Y")) in
  let w1 := InterpolationBinding.unbind 0 w in
  TaskQueue.pendingHandles (queue w1) = []
  /\ log (@InterpolationBinding.partHandleChange sampleEnums 0 (VStr "Z") (VStr "X") 0 w1)
     = log w1
  /\ queue (@InterpolationBinding.partHandleChange sampleEnums 0 (VStr "Z") (VStr "X") 0 w1)
     = queue w1.
Proof.
  cbv zeta.
  apply (@InterpolationBinding_unbind_silences sampleEnums 0
           (@InterpolationBinding.updateTarget sampleEnums VUndefined 0
              (boundWorld 64 2 (VStr "X") (VStr "Y")))
           0%nat (VStr "Z") (VStr "X") 0);
    reflexivity.
Defined.


Lemma inline_flushes_added_witness :
  exists s',
    @BatchQueue.inline sampleEnums unit (fun _ _ s => s) 1
      (fun s0 => fold_left (fun acc x => BatchQueue.add unit x acc) [4%nat; 5%nat] s0) None
      ({| BatchQueue.queue := []; BatchQueue.depth := 0; BatchQueue.env := tt |}, [])
    = Some (s', [] ++ [4%nat; 5%nat])
    /\ BatchQueue.queue unit s' = [] /\ BatchQueue.depth unit s' = 0.
Proof.
  apply (@inline_flushes_added sampleEnums unit (fun _ _ s => s) 0 [4%nat; 5%nat] None
           {| BatchQueue.queue := []; BatchQueue.depth := 0; BatchQueue.env := tt |} []).
  - intros r f s0. split; reflexivity.
  - reflexivity.
  - reflexivity.
Defined.

(** ** The hook manager *)

Section HookManagerProperties.
Context {HookFunction Options Hook : Type}.
Context (newHook : HookFunction -> Options -> Z -> Hook).
Context (hookId : Hook -> Z) (hookType : Hook -> HookManager.HookTypes).
Context (noOptions : Options).

Local Abbreviation manager := (HookManager.t Hook).
Local Abbreviation addHook := (HookManager.addHook HookFunction Options Hook newHook hookType noOptions).
Local Abbreviation removeHook := (HookManager.removeHook Hook hookId).
Local Abbreviation spliceFirst := (HookManager.spliceFirst Hook hookId).
Local Abbreviation allHooks := (HookManager.allHooks Hook).
Local Abbreviation hooks := (HookManager.hooks Hook).
Local Abbreviation lastIdentity := (HookManager.lastIdentity Hook).
Local Abbreviation identitiesBounded := (HookManager.identitiesBounded Hook hookId).

Lemma spliceFirst_absent (id : Z) (l : list Hook) :
  Forall (fun hook => hookId hook <> id) l -> spliceFirst id l = l.
Proof.
  induction 1 as [| hook l Hh Hl IH]; cbn; [reflexivity |].
  destruct (Z.eqb_spec (hookId hook) id); [contradiction |]. rewrite IH. reflexivity.
Qed.

Lemma spliceFirst_last (id : Z) (l : list Hook) (hook : Hook) :
  Forall (fun h => hookId h <> id) l -> hookId hook = id ->
  spliceFirst id (l ++ [hook]) = l.
Proof.
  intros Hl Hid. induction Hl as [| h l Hh Hl IH]; cbn.
  - rewrite Hid, Z.eqb_refl. reflexivity.
  - destruct (Z.eqb_spec (hookId h) id); [contradiction |]. rewrite IH. reflexivity.
Qed.

Lemma spliceFirst_Forall (P : Hook -> Prop) (id : Z) (l : list Hook) :
  Forall P l -> Forall P (spliceFirst id l).
Proof.
  induction 1 as [| hook l Hh Hl IH]; cbn; [constructor |].
  destruct (hookId hook =? id); [exact Hl | constructor; assumption].
Qed.

Lemma bounded_fields (m : manager) :
  identitiesBounded m ->
  Forall (fun hook => hookId hook <= lastIdentity m) (HookManager.beforeNavigation Hook m)
  /\ Forall (fun hook => hookId hook <= lastIdentity m) (HookManager.transformFromUrl Hook m)
  /\ Forall (fun hook => hookId hook <= lastIdentity m) (HookManager.transformToUrl Hook m)
  /\ Forall (fun hook => hookId hook <= lastIdentity m) (HookManager.setTitle Hook m).
Proof.
  unfold HookManager.identitiesBounded, HookManager.allHooks.
  rewrite !Forall_app. tauto.
Qed.

Lemma Forall_below (b i : Z) (l : list Hook) :
  b < i -> Forall (fun hook => hookId hook <= b) l ->
  Forall (fun hook => hookId hook <> i) l /\ Forall (fun hook => hookId hook <= i) l.
Proof.
  intros Hb Hl. split; (eapply Forall_impl; [exact Hl |]); cbn; intros h Hh; lia.
Qed.

(** [addHook] answers an identity one above the last one given out,
    larger than that of every hook the manager holds, and stores the new
    hook, under that identity, at the end of the list of its type. *)
Theorem addHook_fresh_identity (f : HookFunction) (o : option Options) (m : manager) :
  (forall g opts i, hookId (newHook g opts i) = i) ->
  identitiesBounded m ->
  let m' := fst (addHook f o m) in
  let identity := snd (addHook f o m) in
  identity = lastIdentity m + 1
  /\ lastIdentity m' = identity
  /\ Forall (fun hook => hookId hook < identity) (allHooks m)
  /\ identitiesBounded m'
  /\ exists hook,
       hookId hook = identity
       /\ hooks m' (hookType hook) = hooks m (hookType hook) ++ [hook]
       /\ forall type, type <> hookType hook -> hooks m' type = hooks m type.
Proof.
  intros Hid Hb. cbn zeta. unfold HookManager.addHook. cbn [fst snd].
  set (hook := newHook f _ _).
  assert (Hh : hookId hook = lastIdentity m + 1) by apply Hid.
  destruct (bounded_fields m Hb) as (H1 & H2 & H3 & H4).
  assert (Hup : forall l, Forall (fun h => hookId h <= lastIdentity m) l ->
                          Forall (fun h => hookId h <= lastIdentity m + 1) l).
  { intros l Hl. apply (Forall_below (lastIdentity m) (lastIdentity m + 1) l); [lia | exact Hl]. }
  split_and!.
  - reflexivity.
  - destruct (hookType hook); reflexivity.
  - eapply Forall_impl; [exact Hb |]. cbn. intros h Hle. lia.
  - unfold HookManager.identitiesBounded, HookManager.allHooks.
    destruct (hookType hook); cbn; rewrite !Forall_app;
      split_and!; try (apply Hup; assumption); repeat constructor; lia.
  - exists hook. split_and!; [exact Hh | destruct (hookType hook); reflexivity |].
    intros type Hne. destruct (hookType hook), type; try reflexivity; contradiction.
Qed.

(** [removeHook] undoes the [addHook] that gave the identity, except for
    [lastIdentity], which is never taken back: an identity is not given
    out twice.  [removeHook] with an identity no hook has changes
    nothing. *)
Theorem removeHook_spec (f : HookFunction) (o : option Options) (id : Z) (m : manager) :
  (forall g opts i, hookId (newHook g opts i) = i) ->
  identitiesBounded m ->
  (forall type,
     hooks (removeHook (snd (addHook f o m)) (fst (addHook f o m))) type = hooks m type)
  /\ lastIdentity (removeHook (snd (addHook f o m)) (fst (addHook f o m)))
     = lastIdentity m + 1
  /\ lastIdentity (removeHook id m) = lastIdentity m
  /\ identitiesBounded (removeHook id m)
  /\ (Forall (fun hook => hookId hook <> id) (allHooks m) -> removeHook id m = m).
Proof.
  intros Hid Hb.
  destruct (bounded_fields m Hb) as (H1 & H2 & H3 & H4).
  assert (Hne : forall l, Forall (fun h => hookId h <= lastIdentity m) l ->
                          Forall (fun h => hookId h <> lastIdentity m + 1) l).
  { intros l Hl. apply (Forall_below (lastIdentity m) (lastIdentity m + 1) l); [lia | exact Hl]. }
  split_and!.
  - intros type. unfold HookManager.addHook. cbn [fst snd].
    set (hook := newHook f _ _).
    assert (Hh : hookId hook = lastIdentity m + 1) by apply Hid.
    destruct (hookType hook), type; cbn;
      first [ apply spliceFirst_last; [apply Hne; assumption | exact Hh]
            | apply spliceFirst_absent; apply Hne; assumption ].
  - unfold HookManager.addHook. cbn [fst snd].
    destruct (hookType (newHook f _ _)); reflexivity.
  - reflexivity.
  - unfold HookManager.identitiesBounded, HookManager.allHooks. cbn.
    rewrite !Forall_app. split_and!; apply spliceFirst_Forall; assumption.
  - unfold HookManager.allHooks. rewrite !Forall_app. intros (A1 & A2 & A3 & A4).
    unfold HookManager.removeHook. rewrite !spliceFirst_absent by assumption.
    destruct m. reflexivity.
Qed.

End HookManagerProperties.

Lemma addHook_fresh_identity_witness :
  snd (HookManager.addHook unit unit Z (fun _ _ i => i)
         (fun _ => HookManager.BeforeNavigation) tt tt None (HookManager.create Z))
  = HookManager.lastIdentity Z (HookManager.create Z) + 1.
Proof.
  apply (addHook_fresh_identity (fun _ _ i => i) (fun i => i)
           (fun _ => HookManager.BeforeNavigation) tt tt None (HookManager.create Z)).
  - intros g opts i. reflexivity.
  - constructor.
Defined.

Lemma removeHook_spec_witness :
  HookManager.lastIdentity Z
    (HookManager.removeHook Z (fun i => i) 1
       (fst (HookManager.addHook unit unit Z (fun _ _ i => i)
               (fun _ => HookManager.BeforeNavigation) tt tt None (HookManager.create Z))))
  = 1.
Proof.
  apply (removeHook_spec (fun _ _ i => i) (fun i => i)
           (fun _ => HookManager.BeforeNavigation) tt tt None 1 (HookManager.create Z)).
  - intros g opts i. reflexivity.
  - constructor.
Defined.

(** ** The TypeScript syntax helpers *)

Lemma findPropertyValue_some (properties : list Ts.ObjectLiteralElement) (name : string)
    (e : Ts.Expression) :
  findPropertyValue properties name = Some e <->
  exists before propName after,
    properties = before ++ Ts.PropertyAssignment (Ts.NameIdentifier propName) e :: after
    /\ Ts.escapedText propName = name
    /\ Forall (passedOver name) before.
Proof.
  induction properties as [| prop rest IH]; cbn [findPropertyValue].
  - split; [discriminate |]. intros (before & ? & ? & Heq & _). destruct before; discriminate.
  - assert (Hskip : passedOver name prop ->
              (findPropertyValue rest name = Some e <->
               exists before propName after,
                 prop :: rest
                 = before ++ Ts.PropertyAssignment (Ts.NameIdentifier propName) e :: after
                 /\ Ts.escapedText propName = name /\ Forall (passedOver name) before)).
    { intros Hp. rewrite IH. split.
      - intros (before & pn & after & -> & Hn & Hb).
        exists (prop :: before), pn, after. split_and!; [reflexivity | exact Hn |].
        constructor; assumption.
      - intros (before & pn & after & Heq & Hn & Hb).
        destruct before as [| b before]; cbn in Heq; injection Heq as -> ->.
        + cbn in Hp. contradiction.
        + exists before, pn, after. inversion Hb; subst. split_and!; auto. }
    destruct prop as [[propName |] initializer |]; try (apply Hskip; exact I).
    destruct (String.eqb_spec (Ts.escapedText propName) name) as [Heq | Hne].
    + split.
      * intros [= ->]. exists [], propName, rest. split_and!; auto.
      * intros (before & pn & after & Hl & Hn & Hb).
        destruct before as [| b before]; cbn in Hl; injection Hl as ? ?; subst.
        -- reflexivity.
        -- inversion Hb as [| ? ? Hp _]; subst. cbn in Hp. contradiction.
    + apply Hskip. exact Hne.
Qed.

(** [getObjectPropertyValue] answers the initializer of the first
    property assignment whose name is an identifier spelled [name], and
    only such an initializer: computed names, other kinds of property and
    assignments under another name are passed over. *)
Theorem getObjectPropertyValue_first (properties : option (list Ts.ObjectLiteralElement))
    (name : string) (e : Ts.Expression) :
  getObjectPropertyValue properties name = Some e <->
  exists before propName after,
    properties
    = Some (before ++ Ts.PropertyAssignment (Ts.NameIdentifier propName) e :: after)
    /\ Ts.escapedText propName = name
    /\ Forall (passedOver name) before.
Proof.
  destruct properties as [[| prop rest] |]; cbn [getObjectPropertyValue].
  - split; [discriminate |]. intros (before & ? & ? & Heq & _).
    destruct before; discriminate.
  - rewrite findPropertyValue_some. split.
    + intros (before & pn & after & -> & Hn & Hb). exists before, pn, after. auto.
    + intros (before & pn & after & [= Heq] & Hn & Hb). exists before, pn, after. auto.
  - split; [discriminate |]. intros (? & ? & ? & Heq & _). discriminate.
Qed.

Lemma find_some_split {A : Type} (p : A -> bool) (l : list A) (x : A) :
  List.find p l = Some x <->
  exists before after,
    l = before ++ x :: after /\ p x = true /\ Forall (fun y => p y = false) before.
Proof.
  induction l as [| y l IH]; cbn [List.find].
  - split; [discriminate |]. intros (before & ? & Heq & _). destruct before; discriminate.
  - destruct (p y) eqn:Hy.
    + split.
      * intros [= ->]. exists [], l. auto.
      * intros (before & after & Heq & Hx & Hb).
        destruct before as [| b before]; cbn in Heq; injection Heq as ? ?; subst.
        -- reflexivity.
        -- inversion Hb; subst. congruence.
    + rewrite IH. split.
      * intros (before & after & -> & Hx & Hb). exists (y :: before), after.
        split_and!; auto.
      * intros (before & after & Heq & Hx & Hb).
        destruct before as [| b before]; cbn in Heq; injection Heq as ? ?; subst.
        -- congruence.
        -- exists before, after. inversion Hb; subst. auto.
Qed.

(** [getBindableMode] answers a binding mode exactly for a property
    declaration whose first decorator spelled [bindable] (called or not)
    is the call [bindable({ ..., defaultBindingMode: bindingMode.<mode> })]
    with a mode name that [resolveBindingMode] knows; the object literal
    must be the first argument, and further arguments do not matter. *)
Theorem getBindableMode_defined (classMember : Ts.ClassElement) (mode : bindingMode) :
  snd (getBindableMode classMember) = Some mode <->
  exists before callee properties more accessed modeName after,
    classMember
    = Ts.PropertyDeclaration
        (Some (before
               ++ {| Ts.expression :=
                       Ts.CallExpression (Ts.Ident callee)
                         (Some (Ts.ObjectLiteralExpression properties :: more)) |}
               :: after))
    /\ Forall (fun dec => isBindable dec = false) before
    /\ Ts.escapedText callee = "bindable"
    /\ getObjectPropertyValue properties "defaultBindingMode"
       = Some (Ts.PropertyAccessExpression (Ts.Ident accessed) modeName)
    /\ Ts.escapedText accessed = "bindingMode"
    /\ resolveBindingMode (Ts.escapedText modeName) = Some mode.
Proof.
  split.
  - destruct classMember as [[decorators |] |]; cbn; try discriminate.
    destruct (List.find isBindable decorators) as [dec |] eqn:Hfind; [| discriminate].
    apply find_some_split in Hfind as (before & after & -> & Hdec & Hb).
    destruct dec as [e]. unfold getBindableDecoratorBindingMode. cbn [Ts.expression].
    destruct e as [| callee args | | |]; try discriminate.
    destruct args as [[| config more] |]; try discriminate.
    destruct config as [| | properties | |]; try discriminate.
    destruct (getObjectPropertyValue properties "defaultBindingMode") as [v |] eqn:Hv;
      [| discriminate].
    destruct v as [| | | target modeName |]; try discriminate.
    destruct target as [accessed | | | |]; try discriminate.
    destruct (String.eqb_spec (Ts.escapedText accessed) "bindingMode") as [Ha | Ha];
      cbn [negb snd]; [| discriminate].
    intros Hmode.
    unfold isBindable in Hdec. cbn [Ts.expression] in Hdec.
    destruct callee as [callee | | | |]; try discriminate.
    apply String.eqb_eq in Hdec.
    exists before, callee, properties, more, accessed, modeName, after.
    split_and!; auto.
  - intros (before & callee & properties & more & accessed & modeName & after
            & -> & Hb & Hc & Hv & Ha & Hm).
    cbn [getBindableMode getBindableDecorator].
    set (dec := {| Ts.expression := _ |}).
    assert (Hfind : List.find isBindable (before ++ dec :: after) = Some dec).
    { apply find_some_split. exists before, after. split_and!; auto.
      unfold isBindable, dec. cbn. apply String.eqb_eq. exact Hc. }
    rewrite Hfind. unfold getBindableDecoratorBindingMode, dec. cbn [Ts.expression].
    rewrite Hv, Ha. cbn. exact Hm.
Qed.

(** A property declaration that [hasBindableDecorator] accepts on the
    strength of its only decorator has no binding mode: the test reads
    the decorator as a plain identifier, and [getBindableMode] reads the
    mode from a call. *)
Theorem hasBindableDecorator_no_mode (dec : Ts.Decorator) :
  hasBindableDecorator (Ts.PropertyDeclaration (Some [dec])) = true ->
  getBindableMode (Ts.PropertyDeclaration (Some [dec])) = ([], None).
Proof.
  destruct dec as [e]. cbn. rewrite orb_false_r.
  destruct e as [id | f args | | |]; cbn; try discriminate.
  - intros _. unfold isBindable. cbn.
    destruct (Ts.escapedText id =? "bindable")%string; reflexivity.
  - intros _. reflexivity.
Qed.

Lemma hasBindableDecorator_no_mode_witness :
  getBindableMode
    (Ts.PropertyDeclaration
       (Some [ {| Ts.expression :=
                    Ts.Ident {| Ts.escapedText := "bindable"; Ts.text := "bindable" |} |} ]))
  = ([], None).
Proof.
  apply (hasBindableDecorator_no_mode
           {| Ts.expression :=
                Ts.Ident {| Ts.escapedText := "bindable"; Ts.text := "bindable" |} |}).
  reflexivity.
Defined.

Lemma append_length (s t : string) :
  String.length (s +:+ t) = (String.length s + String.length t)%nat.
Proof.
  induction s as [| c s IH]; [reflexivity |].
  change (String c s +:+ t) with (String c (s +:+ t)). cbn. rewrite IH. reflexivity.
Qed.

Lemma replaceAtEnd_suffix (suffix s : string) :
  replaceAtEnd suffix (s +:+ suffix) = s.
Proof.
  induction s as [| c s IH].
  - change (EmptyString +:+ suffix) with suffix.
    destruct suffix; cbn; rewrite ?Ascii.eqb_refl, ?String.eqb_refl; reflexivity.
  - change (String c s +:+ suffix) with (String c (s +:+ suffix)).
    cbn [replaceAtEnd]. fold (replaceAtEnd suffix (s +:+ suffix)).
    destruct (String.eqb_spec (String c (s +:+ suffix)) suffix) as [Heq | _].
    + apply (f_equal String.length) in Heq. cbn in Heq. rewrite append_length in Heq. lia.
    + rewrite IH. reflexivity.
Qed.

Lemma replaceAtEnd_other (suffix s : string) :
  (forall stem, s <> stem +:+ suffix) -> replaceAtEnd suffix s = s.
Proof.
  induction s as [| c s IH]; intros Hno.
  - destruct suffix; reflexivity.
  - cbn [replaceAtEnd]. fold (replaceAtEnd suffix s).
    destruct (String.eqb_spec (String c s) suffix) as [Heq | _].
    + destruct (Hno EmptyString). exact Heq.
    + rewrite IH; [reflexivity |]. intros stem ->. apply (Hno (String c stem)). reflexivity.
Qed.

(** The class-name helpers.  A name of the form [<stem>CustomElement]
    is normalized to its stem, with one suffix removed (so a second
    normalization can remove another), and any other name is kept;
    [getElementViewName] and [getPrivateClassName] wrap the normalized
    and the plain name; and all three fail exactly on a class declaration
    without a name. *)
Theorem normalizeElementClassName_spec (name : Ts.NameLike) :
  (forall stem, spelled name = Some (stem +:+ "CustomElement") ->
     normalizeElementClassName name = Some stem
     /\ getElementViewName name = Some ("$" +:+ stem +:+ "View"))
  /\ (forall s, spelled name = Some s -> (forall stem, s <> stem +:+ "CustomElement") ->
        normalizeElementClassName name = Some s
        /\ getElementViewName name = (fun p => p +:+ "View") <$> getPrivateClassName name)
  /\ getPrivateClassName name = (fun s => "$" +:+ s) <$> spelled name
  /\ (normalizeElementClassName name = None <-> name = Ts.OfClass {| Ts.name := None |})
  /\ (getPrivateClassName name = None <-> normalizeElementClassName name = None).
Proof.
  assert (Hn : normalizeElementClassName name = replaceAtEnd "CustomElement" <$> spelled name).
  { destruct name; reflexivity. }
  assert (Hp : getPrivateClassName name = (fun s => "$" +:+ s) <$> spelled name).
  { destruct name; reflexivity. }
  split_and!.
  - intros stem Hs. unfold getElementViewName. rewrite Hn, Hs. cbn [fmap option_fmap option_map].
    rewrite replaceAtEnd_suffix. split; reflexivity.
  - intros s Hs Hno. unfold getElementViewName. rewrite Hp, Hn, Hs.
    cbn [fmap option_fmap option_map]. rewrite replaceAtEnd_other by exact Hno.
    split; reflexivity.
  - exact Hp.
  - rewrite Hn. destruct name as [s | id | [[id |]]]; cbn; split; intros H;
      first [discriminate | reflexivity].
  - rewrite Hn, Hp. destruct (spelled name); cbn; split; intros H;
      first [discriminate | reflexivity].
Qed.

Lemma findIndex_split {A : Type} (p : A -> bool) (before after : list A) (x : A) :
  Forall (fun y => p y = false) before -> p x = true ->
  findIndex p (before ++ x :: after) = Some (length before).
Proof.
  intros Hb Hx. induction Hb as [| y before Hy Hb IH]; cbn.
  - rewrite Hx. reflexivity.
  - rewrite Hy, IH. reflexivity.
Qed.

Lemma findIndex_none {A : Type} (p : A -> bool) (l : list A) :
  Forall (fun y => p y = false) l -> findIndex p l = None.
Proof.
  induction 1 as [| y l Hy Hl IH]; cbn; [reflexivity |]. rewrite Hy, IH. reflexivity.
Qed.

(** [removeExport] removes the first modifier of kind [ExportKeyword]
    and nothing else: the modifiers before and after it keep their order,
    a second [export] modifier stays, and an array without one (or no
    array) comes back as it is. *)
Theorem removeExport_spec (ExportKeyword : Z) :
  (forall before m after,
     Forall (fun x => Ts.kind x <> ExportKeyword) before ->
     Ts.kind m = ExportKeyword ->
     removeExport ExportKeyword (Some (before ++ m :: after)) = Some (before ++ after))
  /\ (forall modifiers,
        Forall (fun x => Ts.kind x <> ExportKeyword) modifiers ->
        removeExport ExportKeyword (Some modifiers) = Some modifiers)
  /\ removeExport ExportKeyword None = None.
Proof.
  assert (Hconv : forall l, Forall (fun x => Ts.kind x <> ExportKeyword) l ->
                            Forall (fun x => (Ts.kind x =? ExportKeyword) = false) l).
  { intros l Hl. eapply Forall_impl; [exact Hl |]. cbn. intros x Hx. apply Z.eqb_neq. exact Hx. }
  split_and!.
  - intros before m after Hb Hm. unfold removeExport.
    rewrite (findIndex_split _ before after m (Hconv _ Hb)) by (apply Z.eqb_eq; exact Hm).
    rewrite take_app_length.
    replace (S (length before)) with (length before + 1)%nat by lia.
    rewrite drop_app_add'; [| reflexivity]. reflexivity.
  - intros modifiers Hl. unfold removeExport. rewrite (findIndex_none _ _ (Hconv _ Hl)).
    reflexivity.
  - reflexivity.
Qed.
